(** * AI-Drag-Racing: stream decoding, provider adapters and race orchestration

    A shallow embedding of
    - the SSE stream decoders [streamSSE] (utils/providers/cerebras.ts) and
      [streamOpenAIResponse] (utils/providers/zhipu.ts),
    - the two adapters' [generate],
    - the reducer [appReducer] and the orchestrator [handleRunComparison]
      (pages/index.tsx),
    followed by the properties proved about them. *)

From Stdlib Require Import ZArith NArith QArith List Strings.String Strings.Ascii Strings.Byte Bool Lia.
From Stdlib Require Import Numbers.DecimalString Sorting.Sorted.
From stdpp Require Import base option list countable gmap.
Import ListNotations.

Set Warnings "-register-all".
Local Open Scope N_scope.

(* ===================================================================== *)
(** ** JavaScript strings                                                  *)
(* ===================================================================== *)

(** A JavaScript string is kept as the list of its code points.  Every
    string the decoders see comes out of a UTF-8 [TextDecoder], which never
    produces a lone surrogate, and the operations used by the source
    ([startsWith], [substring], [trim], [split], [===], [+]) only look at
    BMP characters, so code points and UTF-16 code units agree on them. *)
Abbreviation jstring := (list N).

Module Js.

(** A string literal of the source. *)
Definition lit (s : string) : jstring :=
  List.map N_of_ascii (list_ascii_of_string s).

Definition LF : N := 10.

Definition eqb (a b : jstring) : bool := bool_decide (a = b).

(** [s.startsWith(prefix)] *)
Fixpoint startsWith (s prefix : jstring) : bool :=
  match prefix with
  | [] => true
  | p :: prefix' =>
      match s with
      | [] => false
      | c :: s' => (c =? p) && startsWith s' prefix'
      end
  end.

(** [s.substring(n)] *)
Definition substring (n : nat) (s : jstring) : jstring := skipn n s.

(** WhiteSpace and LineTerminator code points of ECMAScript, the ones
    [String.prototype.trim] strips. *)
Definition isWhiteSpace (c : N) : bool :=
  (c =? 0x09) || (c =? 0x0A) || (c =? 0x0B) || (c =? 0x0C) || (c =? 0x0D)
  || (c =? 0x20) || (c =? 0xA0) || (c =? 0x1680)
  || ((0x2000 <=? c) && (c <=? 0x200A))
  || (c =? 0x2028) || (c =? 0x2029) || (c =? 0x202F) || (c =? 0x205F)
  || (c =? 0x3000) || (c =? 0xFEFF).

Fixpoint trimStart (s : jstring) : jstring :=
  match s with
  | [] => []
  | c :: s' => if isWhiteSpace c then trimStart s' else s
  end.

Definition trimEnd (s : jstring) : jstring := rev (trimStart (rev s)).

(** [s.trim()] *)
Definition trim (s : jstring) : jstring := trimEnd (trimStart s).

(** Puts [c] in front of the first part of a split. *)
Definition consHead (c : N) (parts : list jstring) : list jstring :=
  match parts with
  | [] => [[c]]
  | x :: xs => (c :: x) :: xs
  end.

(** [s.split('\n\n')]: the separator is searched from the left, matches do
    not overlap, and the result always has at least one part. *)
Fixpoint split_blank (s : jstring) : list jstring :=
  match s with
  | [] => [[]]
  | c :: s' =>
      match s' with
      | [] => [[c]]
      | d :: s'' =>
          if (c =? LF) && (d =? LF) then [] :: split_blank s''
          else consHead c (split_blank s')
      end
  end.

(** [parts.pop() || ''] together with what is left in [parts]. *)
Definition pop (parts : list jstring) : list jstring * jstring :=
  (List.removelast parts, List.last parts []).

(** Truthiness of a string. *)
Definition truthy (s : jstring) : bool :=
  match s with [] => false | _ => true end.

(** [`${n}`] for an integer [n] *)
Definition ofZ (n : Z) : jstring := lit (NilEmpty.string_of_int (Z.to_int n)).

End Js.

(* ===================================================================== *)
(** ** [TextDecoder('utf-8')] used with [{ stream: true }]                 *)
(* ===================================================================== *)

(** The decoder of the Encoding standard: a byte-at-a-time state machine
    whose state survives from one [decode] call to the next.  The source never
    makes the final flushing call, so bytes of an unfinished sequence at the
    end of the body are dropped. *)
Module TextDecoder.

Record t := mk {
  code_point : N;
  bytes_seen : N;
  bytes_needed : N;
  lower_boundary : N;
  upper_boundary : N;
  bom_seen : bool
}.

Definition REPLACEMENT : N := 0xFFFD.
Definition BOM : N := 0xFEFF.

(** [new TextDecoder('utf-8')] *)
Definition create : t := mk 0 0 0 0x80 0xBF false.

Definition idle (d : t) : t := mk 0 0 0 0x80 0xBF (bom_seen d).

Definition between (lo hi b : N) : bool := (lo <=? b) && (b <=? hi).

(** A byte read while no sequence is pending. *)
Definition lead (d : t) (b : N) : t * list N :=
  if b <=? 0x7F then (idle d, [b])
  else if between 0xC2 0xDF b then
    (mk (N.land b 0x1F) 0 1 0x80 0xBF (bom_seen d), [])
  else if between 0xE0 0xEF b then
    (mk (N.land b 0xF) 0 2
        (if b =? 0xE0 then 0xA0 else 0x80)
        (if b =? 0xED then 0x9F else 0xBF) (bom_seen d), [])
  else if between 0xF0 0xF4 b then
    (mk (N.land b 0x7) 0 3
        (if b =? 0xF0 then 0x90 else 0x80)
        (if b =? 0xF4 then 0x8F else 0xBF) (bom_seen d), [])
  else (idle d, [REPLACEMENT]).

(** The UTF-8 decoder's handler for one byte; a byte that cannot continue the
    pending sequence yields U+FFFD and is then read again as a lead byte. *)
Definition handler (d : t) (b : N) : t * list N :=
  if bytes_needed d =? 0 then lead d b
  else if negb (between (lower_boundary d) (upper_boundary d) b) then
    let '(d', out) := lead (idle d) b in (d', REPLACEMENT :: out)
  else
    let cp := N.lor (N.shiftl (code_point d) 6) (N.land b 0x3F) in
    let seen := bytes_seen d + 1 in
    if seen =? bytes_needed d then (idle d, [cp])
    else (mk cp seen (bytes_needed d) 0x80 0xBF (bom_seen d), []).

(** Output serialisation: the first code point ever produced is dropped when
    it is the byte order mark ([ignoreBOM] is false by default). *)
Definition serialize (d : t) (out : list N) : t * list N :=
  match out with
  | [] => (d, [])
  | c :: out' =>
      if bom_seen d then (d, out)
      else (mk (code_point d) (bytes_seen d) (bytes_needed d)
               (lower_boundary d) (upper_boundary d) true,
            if c =? BOM then out' else out)
  end.

Definition step (d : t) (b : byte) : t * jstring :=
  let '(d', out) := handler d (Byte.to_N b) in serialize d' out.

(** [decoder.decode(value, { stream: true })] *)
Fixpoint decode (d : t) (value : list byte) : t * jstring :=
  match value with
  | [] => (d, [])
  | b :: value' =>
      let '(d1, out1) := step d b in
      let '(d2, out2) := decode d1 value' in
      (d2, out1 ++ out2)
  end.

End TextDecoder.

(* ===================================================================== *)
(** ** Values, errors and the completion events                           *)
(* ===================================================================== *)

(** The result of an expression that may throw; [message] is the
    [message] of the thrown error. *)
Inductive result (A : Type) : Type :=
| Ok (a : A)
| Throw (message : jstring).
Arguments Ok {A} a.
Arguments Throw {A} message.

(** How an async generator ends once it is consumed to the end. *)
Inductive completion : Type :=
| Returned
| Threw (message : jstring).

(** What [JSON.parse] returns, plus [undefined] for absent properties. *)
Inductive jsval : Type :=
| JUndefined
| JNull
| JBool (b : bool)
| JNum (q : Q)
| JStr (s : jstring)
| JArr (items : list jsval)
| JObj (fields : list (jstring * jsval)).

Module JsVal.

Definition nullish (v : jsval) : bool :=
  match v with JUndefined | JNull => true | _ => false end.

(** [if (v)] *)
Definition truthy (v : jsval) : bool :=
  match v with
  | JUndefined | JNull => false
  | JBool b => b
  | JNum q => negb (Qeq_bool q 0)
  | JStr s => Js.truthy s
  | JArr _ | JObj _ => true
  end.

Fixpoint assoc (name : jstring) (fields : list (jstring * jsval)) : jsval :=
  match fields with
  | [] => JUndefined
  | (k, v) :: fields' => if Js.eqb k name then v else assoc name fields'
  end.

(** The message of the TypeError raised by reading [name] off [null] or
    [undefined] (as V8 words it). *)
Definition cannotRead (v : jsval) (name : jstring) : jstring :=
  Js.lit "Cannot read properties of "
  ++ (match v with JNull => Js.lit "null" | _ => Js.lit "undefined" end)
  ++ Js.lit " (reading '" ++ name ++ Js.lit "')".

(** The UTF-16 code unit a string shows at the start of code point [c]. *)
Definition firstUnit (c : N) : N :=
  if c <? 0x10000 then c else 0xD800 + N.shiftr (c - 0x10000) 10.

(** [v.name] for the property names read by the adapters ([choices],
    [delta], [content]); reading a property of [null] or [undefined] is a
    TypeError. *)
Definition getProp (v : jsval) (name : jstring) : result jsval :=
  match v with
  | JUndefined | JNull => Throw (cannotRead v name)
  | JObj fields => Ok (assoc name fields)
  | _ => Ok JUndefined
  end.

(** [v[0]] *)
Definition getIndex0 (v : jsval) : result jsval :=
  match v with
  | JUndefined | JNull => Throw (cannotRead v (Js.lit "0"))
  | JObj fields => Ok (assoc (Js.lit "0") fields)
  | JArr items => Ok (List.hd JUndefined items)
  | JStr s => Ok (match s with [] => JUndefined | c :: _ => JStr [firstUnit c] end)
  | _ => Ok JUndefined
  end.

(** [v?.name] *)
Definition optProp (v : jsval) (name : jstring) : result jsval :=
  if nullish v then Ok JUndefined else getProp v name.

(** [v?.[0]] *)
Definition optIndex0 (v : jsval) : result jsval :=
  if nullish v then Ok JUndefined else getIndex0 v.

Definition bind {A B} (r : result A) (k : A -> result B) : result B :=
  match r with
  | Ok a => k a
  | Throw m => Throw m
  end.

Section ToString.
Variable Number_toString : Q -> jstring.

(** The string a value contributes to [text + v] and [text += v]. *)
Fixpoint ToString (v : jsval) : jstring :=
  match v with
  | JUndefined => Js.lit "undefined"
  | JNull => Js.lit "null"
  | JBool true => Js.lit "true"
  | JBool false => Js.lit "false"
  | JNum q => Number_toString q
  | JStr s => s
  | JArr items =>
      (fix join (l : list jsval) : jstring :=
         match l with
         | [] => []
         | x :: l' =>
             (if nullish x then [] else ToString x)
             ++ match l' with [] => [] | _ => Js.lit "," ++ join l' end
         end) items
  | JObj _ => Js.lit "[object Object]"
  end.
End ToString.

End JsVal.

Notation "'let*' x := r 'in' k" := (JsVal.bind r (fun x => k))
  (at level 10, x name, r at level 100, k at level 200).

(** [CompletionMetrics] (utils/providerService.ts), as the adapters and the
    orchestrator build it: [firstTokenTime] stays undefined when no chunk
    came, and the orchestrator's own metrics have no [inputTokens]. *)
Record CompletionMetrics := mkMetrics {
  startTime : Z;
  firstTokenTime : option Z;
  finishTime : option Z;
  tokenCount : Z;
  inputTokens : option Z;
  outputTokens : option Z
}.

(** [CompletionResult]: [{ type: 'chunk', content }] or
    [{ type: 'metrics', data }].  [content] is declared a string; a truthy
    delta of another type is kept as the string it concatenates as. *)
Inductive CompletionResult : Type :=
| Chunk (content : jstring)
| Metrics (data : CompletionMetrics).

Inductive ReasoningEffort : Type := low | medium | high.

Record ModelSettings := mkSettings {
  temperature : Q;
  maxTokens : Z;
  topP : Q;
  reasoningEffort : option ReasoningEffort
}.

(** An [AbortSignal], known by its identity. *)
Inductive AbortSignal : Type := abortSignal (id : N).

(** The object handed to [JSON.stringify] as request body, field by field;
    [extra] holds what the conditional spread adds. *)
Record RequestBody := mkBody {
  body_model : jstring;
  body_messages : list (jstring * jstring);
  body_stream : bool;
  body_temperature : Q;
  body_max_tokens : Z;
  body_top_p : Q;
  body_extra : list (jstring * jsval)
}.

Record Request := mkRequest {
  req_url : jstring;
  req_method : jstring;
  req_headers : list (jstring * jstring);
  req_body : RequestBody;
  req_signal : option AbortSignal
}.

(** A response body: the values its reader delivers, then either
    [done] or a rejected [read()] (network failure, abort). *)
Record ReadableStream := mkStream {
  reads : list (list byte);
  reads_end : completion
}.

Record Response := mkResponse {
  resp_ok : bool;
  resp_status : Z;
  resp_text : result jstring;
  resp_body : option ReadableStream
}.

(** What the code takes from its environment: JavaScript built-ins, the clock,
    the network, and the two estimators of utils/tokens.ts.  [now k] is the
    value of the [k]-th [Date.now()] call made through this environment. *)
Record Env := mkEnv {
  JSON_parse : jstring -> option jsval;
  Number_toString : Q -> jstring;
  fetch : Request -> result Response;
  now : nat -> Z;
  approxTokensFromText : jstring -> Z;
  finalTokenTotal : jstring -> jstring -> Z
}.

(** A generator run to its end: the requests it made, the values it
    yielded, and how it finished. *)
Record Stream := mkRun {
  sent : list Request;
  events : list CompletionResult;
  finished : completion
}.

Definition DONE : jstring := Js.lit "[DONE]".
Definition DATA_PREFIX : jstring := Js.lit "data: ".

(** [settings?.field ?? dflt] *)
Definition setting {A} (settings : option ModelSettings)
  (field : ModelSettings -> A) (dflt : A) : A :=
  match settings with
  | Some s => field s
  | None => dflt
  end.

(** [!firstTokenTime] *)
Definition unset (t : option Z) : bool :=
  match t with
  | None => true
  | Some v => (v =? 0)%Z
  end.

(** The local variables of [generate]'s loop; [clock] counts the calls of
    [Date.now()] made so far. *)
Record locals := mkLocals {
  clock : nat;
  l_firstTokenTime : option Z;
  l_tokenCount : Z;
  generatedText : jstring
}.

Section Adapter.
Variable env : Env.
Variable content_of : jsval -> result jsval.

(** The body of [for await (const chunk of ...)] in [generate], which is the
    same in the three adapters but for the expression computing [content]. *)
Fixpoint for_await (st : locals) (chunks : list jsval)
  : list CompletionResult * result locals :=
  match chunks with
  | [] => ([], Ok st)
  | chunk :: rest =>
      match content_of chunk with
      | Throw m => ([], Throw m)
      | Ok content =>
          if JsVal.truthy content then
            let st1 :=
              if unset (l_firstTokenTime st)
              then mkLocals (S (clock st)) (Some (now env (clock st)))
                            (l_tokenCount st) (generatedText st)
              else st in
            let text := JsVal.ToString (Number_toString env) content in
            let st2 := mkLocals (clock st1) (l_firstTokenTime st1)
                                (l_tokenCount st1 + 1)%Z
                                (generatedText st1 ++ text) in
            let '(evs, r) := for_await st2 rest in
            (Chunk text :: evs, r)
          else for_await st rest
      end
  end.

(** What [generate] does once the response is known to be ok: consume the
    decoded objects, then compute and yield the metrics. *)
Definition stream_events (prompt : jstring) (startTime : Z)
  (decoded : list jsval * completion) : list CompletionResult * completion :=
  let '(evs, r) := for_await (mkLocals 1 None 0%Z []) (fst decoded) in
  match r with
  | Throw m => (evs, Threw m)
  | Ok st =>
      match snd decoded with
      | Threw m => (evs, Threw m)
      | Returned =>
          let finishTime := now env (clock st) in
          let total := finalTokenTotal env prompt (generatedText st) in
          let inputTokens := approxTokensFromText env prompt in
          let outputTokens := approxTokensFromText env (generatedText st) in
          (evs ++ [Metrics (mkMetrics startTime (l_firstTokenTime st)
                                      (Some finishTime) total
                                      (Some inputTokens) (Some outputTokens))],
           Returned)
      end
  end.

End Adapter.

(* ===================================================================== *)
(** ** utils/providers/cerebras.ts                                        *)
(* ===================================================================== *)

Module Cerebras.
Section WithEnv.
Variable env : Env.

(** [for (const part of parts)] of [streamSSE]: the objects yielded, and
    whether the terminator was met (the generator then returns). *)
Fixpoint for_parts (parts : list jstring) : list jsval * bool :=
  match parts with
  | [] => ([], false)
  | part :: rest =>
      if Js.startsWith part DATA_PREFIX then
        let data := Js.trim (Js.substring 6 part) in
        if Js.eqb data DONE then ([], true)
        else
          match JSON_parse env data with
          | Some v => let '(ys, stop) := for_parts rest in (v :: ys, stop)
          | None => for_parts rest
          end
      else for_parts rest
  end.

(** [while (true)] of [streamSSE], with the decoder and the buffer it keeps
    between reads. *)
Fixpoint read_loop (decoder : TextDecoder.t) (buffer : jstring)
  (values : list (list byte)) (ending : completion)
  : list jsval * completion :=
  match values with
  | [] => ([], ending)
  | value :: values' =>
      let '(decoder', text) := TextDecoder.decode decoder value in
      let buffer := buffer ++ text in
      let '(parts, buffer) := Js.pop (Js.split_blank buffer) in
      let '(ys, stop) := for_parts parts in
      if stop then (ys, Returned)
      else
        let '(ys', c) := read_loop decoder' buffer values' ending in
        (ys ++ ys', c)
  end.

Definition streamSSE (response : Response) : list jsval * completion :=
  match resp_body response with
  | None => ([], Threw (Js.lit "No response body"))
  | Some body => read_loop TextDecoder.create [] (reads body) (reads_end body)
  end.

(** [chunk.choices?.[0]?.delta?.content] *)
Definition content_of (chunk : jsval) : result jsval :=
  let* choices := JsVal.getProp chunk (Js.lit "choices") in
  let* choice := JsVal.optIndex0 choices in
  let* delta := JsVal.optProp choice (Js.lit "delta") in
  JsVal.optProp delta (Js.lit "content").

Definition request (prompt model apiKey : jstring)
  (signal : option AbortSignal) (settings : option ModelSettings) : Request :=
  mkRequest
    (Js.lit "https://api.cerebras.ai/v1/chat/completions")
    (Js.lit "POST")
    [ (Js.lit "Content-Type", Js.lit "application/json");
      (Js.lit "Authorization", Js.lit "Bearer " ++ apiKey);
      (Js.lit "Accept", Js.lit "text/event-stream") ]
    (mkBody model [(Js.lit "user", prompt)] true
            (setting settings temperature (7 # 10)%Q)
            (setting settings maxTokens 2048%Z)
            (setting settings topP 1%Q)
            [])
    signal.

Definition generate (prompt model apiKey : jstring)
  (signal : option AbortSignal) (settings : option ModelSettings) : Stream :=
  let startTime := now env 0 in
  let req := request prompt model apiKey signal settings in
  match fetch env req with
  | Throw m => mkRun [req] [] (Threw m)
  | Ok response =>
      if negb (resp_ok response) then
        match resp_text response with
        | Throw m => mkRun [req] [] (Threw m)
        | Ok errorBody =>
            mkRun [req] []
              (Threw (Js.lit "Cerebras API error: "
                      ++ Js.ofZ (resp_status response) ++ Js.lit " "
                      ++ errorBody))
        end
      else
        let '(evs, c) :=
          stream_events env content_of prompt startTime (streamSSE response) in
        mkRun [req] evs c
  end.

End WithEnv.
End Cerebras.

(* ===================================================================== *)
(** ** utils/providers/zhipu.ts                                           *)
(* ===================================================================== *)

Module Zhipu.
Section WithEnv.
Variable env : Env.

(** [for (const line of lines)] of [streamOpenAIResponse]. *)
Fixpoint for_lines (lines : list jstring) : list jsval * bool :=
  match lines with
  | [] => ([], false)
  | line :: rest =>
      if Js.startsWith line DATA_PREFIX then
        let data := Js.substring 6 line in
        if Js.eqb (Js.trim data) DONE then ([], true)
        else
          match JSON_parse env data with
          | Some v => let '(ys, stop) := for_lines rest in (v :: ys, stop)
          | None => for_lines rest
          end
      else for_lines rest
  end.

(** [while (true)] of [streamOpenAIResponse]: every read is split and
    handled on its own; only the decoder carries state between reads. *)
Fixpoint read_loop (decoder : TextDecoder.t)
  (values : list (list byte)) (ending : completion)
  : list jsval * completion :=
  match values with
  | [] => ([], ending)
  | value :: values' =>
      let '(decoder', chunk) := TextDecoder.decode decoder value in
      let lines := Js.split_blank chunk in
      let '(ys, stop) := for_lines lines in
      if stop then (ys, Returned)
      else
        let '(ys', c) := read_loop decoder' values' ending in
        (ys ++ ys', c)
  end.

Definition streamOpenAIResponse (response : Response)
  : list jsval * completion :=
  match resp_body response with
  | None => ([], Threw (Js.lit "No response body"))
  | Some body => read_loop TextDecoder.create (reads body) (reads_end body)
  end.

(** [chunk.choices[0]?.delta?.content] *)
Definition content_of (chunk : jsval) : result jsval :=
  let* choices := JsVal.getProp chunk (Js.lit "choices") in
  let* choice := JsVal.getIndex0 choices in
  let* delta := JsVal.optProp choice (Js.lit "delta") in
  JsVal.optProp delta (Js.lit "content").

(** [model.includes(sub)] *)
Fixpoint includes (s sub : jstring) : bool :=
  Js.startsWith s sub
  || match s with
     | [] => false
     | _ :: s' => includes s' sub
     end.

Definition request (prompt model apiKey : jstring)
  (signal : option AbortSignal) (settings : option ModelSettings) : Request :=
  mkRequest
    (Js.lit "https://open.bigmodel.cn/api/paas/v4/chat/completions")
    (Js.lit "POST")
    [ (Js.lit "Content-Type", Js.lit "application/json");
      (Js.lit "Authorization", Js.lit "Bearer " ++ apiKey) ]
    (mkBody model [(Js.lit "user", prompt)] true
            (setting settings temperature (7 # 10)%Q)
            (setting settings maxTokens 4096%Z)
            (setting settings topP 1%Q)
            (if includes model (Js.lit "thinking")
             then [(Js.lit "do_sample", JBool true)] else []))
    signal.

Definition generate (prompt model apiKey : jstring)
  (signal : option AbortSignal) (settings : option ModelSettings) : Stream :=
  let startTime := now env 0 in
  let req := request prompt model apiKey signal settings in
  match fetch env req with
  | Throw m => mkRun [req] [] (Threw m)
  | Ok response =>
      if negb (resp_ok response) then
        match resp_text response with
        | Throw m => mkRun [req] [] (Threw m)
        | Ok errorBody =>
            mkRun [req] []
              (Threw (Js.lit "Zhipu API error: "
                      ++ Js.ofZ (resp_status response) ++ Js.lit " "
                      ++ errorBody))
        end
      else
        let '(evs, c) :=
          stream_events env content_of prompt startTime
                        (streamOpenAIResponse response) in
        mkRun [req] evs c
  end.

End WithEnv.
End Zhipu.

(* ===================================================================== *)
(** ** utils/providers/moonshot.ts                                        *)
(* ===================================================================== *)

Module Moonshot.
Section WithEnv.
Variable env : Env.

(** [streamOpenAIResponse] of moonshot.ts is, line for line, the function of
    the same name in zhipu.ts; only the text logged for a rejected payload
    differs. *)
Definition streamOpenAIResponse (response : Response)
  : list jsval * completion :=
  Zhipu.streamOpenAIResponse env response.

(** [chunk.choices[0]?.delta?.content] *)
Definition content_of (chunk : jsval) : result jsval :=
  let* choices := JsVal.getProp chunk (Js.lit "choices") in
  let* choice := JsVal.getIndex0 choices in
  let* delta := JsVal.optProp choice (Js.lit "delta") in
  JsVal.optProp delta (Js.lit "content").

Definition effort_name (e : ReasoningEffort) : jstring :=
  match e with
  | low => Js.lit "low"
  | medium => Js.lit "medium"
  | high => Js.lit "high"
  end.

(** [settings?.reasoningEffort ?? 'medium'] *)
Definition effort (settings : option ModelSettings) : ReasoningEffort :=
  match settings with
  | Some s => default medium (reasoningEffort s)
  | None => medium
  end.

Definition request (prompt model apiKey : jstring)
  (signal : option AbortSignal) (settings : option ModelSettings) : Request :=
  mkRequest
    (Js.lit "https://api.moonshot.ai/v1/chat/completions")
    (Js.lit "POST")
    [ (Js.lit "Content-Type", Js.lit "application/json");
      (Js.lit "Authorization", Js.lit "Bearer " ++ apiKey) ]
    (mkBody model [(Js.lit "user", prompt)] true
            (setting settings temperature (3 # 10)%Q)
            (setting settings maxTokens 4096%Z)
            (setting settings topP 1%Q)
            (if Zhipu.includes model (Js.lit "k2")
                || Zhipu.includes model (Js.lit "thinking")
             then [(Js.lit "reasoning_effort",
                    JStr (effort_name (effort settings)))]
             else []))
    signal.

Definition generate (prompt model apiKey : jstring)
  (signal : option AbortSignal) (settings : option ModelSettings) : Stream :=
  let startTime := now env 0 in
  let req := request prompt model apiKey signal settings in
  match fetch env req with
  | Throw m => mkRun [req] [] (Threw m)
  | Ok response =>
      if negb (resp_ok response) then
        match resp_text response with
        | Throw m => mkRun [req] [] (Threw m)
        | Ok errorBody =>
            mkRun [req] []
              (Threw (Js.lit "Moonshot API error: "
                      ++ Js.ofZ (resp_status response) ++ Js.lit " "
                      ++ errorBody))
        end
      else
        let '(evs, c) :=
          stream_events env content_of prompt startTime
                        (streamOpenAIResponse response) in
        mkRun [req] evs c
  end.

End WithEnv.
End Moonshot.

(* ===================================================================== *)
(** ** pages/index.tsx: application state and reducer                     *)
(* ===================================================================== *)

Record Pair := mkPair {
  providerId : jstring;
  modelId : jstring
}.

(** [ResultState] (components/main/ResultsDisplay.tsx) *)
Record ResultState := mkResult {
  id : jstring;
  providerName : jstring;
  modelName : jstring;
  responseText : jstring;
  metrics : option CompletionMetrics;
  isLoading : bool;
  error : option jstring
}.

(** [RaceMode] and [RaceConfig] (components/sidebar/RaceSettings.tsx) *)
Inductive RaceMode : Type := drag | token_limit | time_limit | free_for_all.

Record RaceConfig := mkConfig {
  mode : RaceMode;
  tokenLimit : option Z;
  timeLimit : option Z;
  modelSettings : ModelSettings;
  excludedReasoningModels : option (list jstring)
}.

Inductive RaceState : Type := idle | countingDown | racing | finished_race.

(** [number | 'Go!' | null] *)
Inductive Countdown : Type := CountNull | CountNumber (n : Z) | CountGo.

Record AppState := mkState {
  prompt : jstring;
  app_isLoading : bool;
  apiKeys : gmap (list N) (list N);
  selectedPairs : list Pair;
  results : list ResultState;
  raceState : RaceState;
  countdownValue : Countdown;
  enabledProviders : gmap (list N) bool;
  raceConfig : RaceConfig
}.

Inductive AppAction : Type :=
| SET_PROMPT (payload : jstring)
| SET_API_KEY (providerId apiKey : jstring)
| TOGGLE_MODEL_SELECTION (providerId modelId : jstring)
| CLEAR_PROVIDER_SELECTIONS (providerId : jstring)
| START_COMPARISON (providersToTest : list Pair)
| RECEIVE_CHUNK (resultId chunk : jstring)
| FINISH_STREAM (resultId : jstring) (metrics : CompletionMetrics)
| SET_ERROR (resultId error : jstring)
| FINISH_COMPARISON
| SET_RACE_STATE (payload : RaceState)
| SET_COUNTDOWN (payload : Countdown)
| SET_PROVIDER_ENABLED (providerId : jstring) (enabled : bool)
| RESET_RACE
| SET_RACE_CONFIG (payload : RaceConfig).

Definition initialState : AppState :=
  mkState (Js.lit "Write a short story about a robot who discovers music.")
          false ∅ [] [] idle CountNull ∅
          (mkConfig drag (Some 500%Z) (Some 30%Z)
                    (mkSettings (7 # 10)%Q 2048%Z 1%Q None) None).

(** [`${p.providerId}-${p.modelId}`] *)
Definition resultId_of (p : Pair) : jstring :=
  providerId p ++ Js.lit "-" ++ modelId p.

Definition same_pair (providerId' modelId' : jstring) (p : Pair) : bool :=
  Js.eqb (providerId p) providerId' && Js.eqb (modelId p) modelId'.

Definition staged (p : Pair) : ResultState :=
  mkResult (resultId_of p) (providerId p) (modelId p) [] None true None.

(** [state.results.map(r => r.id === resultId ? f(r) : r)] *)
Definition map_result (resultId : jstring) (f : ResultState -> ResultState)
  (rs : list ResultState) : list ResultState :=
  List.map (fun r => if Js.eqb (id r) resultId then f r else r) rs.

(** [{ ...r, responseText: r.responseText + chunk }] *)
Definition append_chunk (chunk : jstring) (r : ResultState) : ResultState :=
  mkResult (id r) (providerName r) (modelName r) (responseText r ++ chunk)
           (metrics r) (isLoading r) (error r).

(** [{ ...r, isLoading: false, metrics }] *)
Definition set_metrics (m : CompletionMetrics) (r : ResultState) : ResultState :=
  mkResult (id r) (providerName r) (modelName r) (responseText r)
           (Some m) false (error r).

(** [{ ...r, isLoading: false, error }] *)
Definition set_error (e : jstring) (r : ResultState) : ResultState :=
  mkResult (id r) (providerName r) (modelName r) (responseText r)
           (metrics r) false (Some e).

Definition with_results (state : AppState) (rs : list ResultState) : AppState :=
  mkState (prompt state) (app_isLoading state) (apiKeys state)
          (selectedPairs state) rs (raceState state) (countdownValue state)
          (enabledProviders state) (raceConfig state).

Definition with_selectedPairs (state : AppState) (ps : list Pair) : AppState :=
  mkState (prompt state) (app_isLoading state) (apiKeys state)
          ps (results state) (raceState state) (countdownValue state)
          (enabledProviders state) (raceConfig state).

Definition appReducer (state : AppState) (action : AppAction) : AppState :=
  match action with
  | SET_PROMPT payload =>
      mkState payload (app_isLoading state) (apiKeys state)
              (selectedPairs state) (results state) (raceState state)
              (countdownValue state) (enabledProviders state) (raceConfig state)
  | SET_API_KEY providerId apiKey =>
      mkState (prompt state) (app_isLoading state)
              (<[providerId := apiKey]> (apiKeys state))
              (selectedPairs state) (results state) (raceState state)
              (countdownValue state) (enabledProviders state) (raceConfig state)
  | TOGGLE_MODEL_SELECTION providerId modelId =>
      let exists_ := List.existsb (same_pair providerId modelId) (selectedPairs state) in
      let next :=
        if exists_
        then List.filter (fun p => negb (same_pair providerId modelId p))
                         (selectedPairs state)
        else selectedPairs state ++ [mkPair providerId modelId] in
      with_selectedPairs state next
  | CLEAR_PROVIDER_SELECTIONS providerId' =>
      with_selectedPairs state
        (List.filter (fun p => negb (Js.eqb (providerId p) providerId'))
                     (selectedPairs state))
  | START_COMPARISON providersToTest =>
      mkState (prompt state) true (apiKeys state) (selectedPairs state)
              (List.map staged providersToTest)
              (raceState state) (countdownValue state)
              (enabledProviders state) (raceConfig state)
  | RECEIVE_CHUNK resultId chunk =>
      with_results state
        (map_result resultId (append_chunk chunk) (results state))
  | FINISH_STREAM resultId metrics' =>
      with_results state
        (map_result resultId (set_metrics metrics') (results state))
  | SET_ERROR resultId error' =>
      with_results state
        (map_result resultId (set_error error') (results state))
  | FINISH_COMPARISON =>
      mkState (prompt state) false (apiKeys state) (selectedPairs state)
              (results state) finished_race CountNull
              (enabledProviders state) (raceConfig state)
  | RESET_RACE =>
      mkState (prompt state) false (apiKeys state) (selectedPairs state)
              [] idle CountNull (enabledProviders state) (raceConfig state)
  | SET_RACE_STATE payload =>
      mkState (prompt state) (app_isLoading state) (apiKeys state)
              (selectedPairs state) (results state) payload
              (countdownValue state) (enabledProviders state) (raceConfig state)
  | SET_COUNTDOWN payload =>
      mkState (prompt state) (app_isLoading state) (apiKeys state)
              (selectedPairs state) (results state) (raceState state)
              payload (enabledProviders state) (raceConfig state)
  | SET_PROVIDER_ENABLED providerId enabled =>
      mkState (prompt state) (app_isLoading state) (apiKeys state)
              (selectedPairs state) (results state) (raceState state)
              (countdownValue state)
              (<[providerId := enabled]> (enabledProviders state))
              (raceConfig state)
  | SET_RACE_CONFIG payload =>
      mkState (prompt state) (app_isLoading state) (apiKeys state)
              (selectedPairs state) (results state) (raceState state)
              (countdownValue state) (enabledProviders state) payload
  end.

(** The state after a sequence of dispatches. *)
Definition dispatch_all (state : AppState) (actions : list AppAction) : AppState :=
  List.fold_left appReducer actions state.

(** [LaneStatus] and its derivation in components/main/RaceLane.tsx *)
Inductive LaneStatus : Type := staging | green | finish | error_status.

Definition option_truthy (s : option jstring) : bool :=
  match s with
  | Some s => Js.truthy s
  | None => false
  end.

Definition status (r : ResultState) : LaneStatus :=
  if option_truthy (error r) then error_status
  else if bool_decide (is_Some (metrics r)) then finish
  else if Js.truthy (responseText r) then green
  else staging.

(* ===================================================================== *)
(** ** pages/index.tsx: [handleRunComparison]                             *)
(* ===================================================================== *)

(** What a race takes from its surroundings.  [streamCompletion]
    (utils/apiClient.ts) is called with exactly these five arguments; the
    value it returns is the generator run to its end.  [lane_now p k] is the
    [k]-th [Date.now()] read by the lane of [p], and [schedule] fixes how the
    lanes, which run concurrently, take turns dispatching. *)
Record RaceEnv := mkRaceEnv {
  reduceMotion : bool;
  raceStartTime : Z;
  streamCompletion : jstring -> jstring -> jstring -> jstring -> ModelSettings -> Stream;
  lane_now : Pair -> nat -> Z;
  schedule : list nat
}.

(** [limit && ...]: the limit is set and not zero. *)
Definition limit_set (limit : option Z) : bool :=
  match limit with
  | Some l => negb (l =? 0)%Z
  | None => false
  end.

Definition limit_value (limit : option Z) : Z := default 0%Z limit.

Definition is_token_limit (m : RaceMode) : bool :=
  match m with token_limit => true | _ => false end.

Definition is_time_limit (m : RaceMode) : bool :=
  match m with time_limit => true | _ => false end.

(** The local variables of one lane; [lane_clock] counts its [Date.now()]
    calls. *)
Record LaneLocals := mkLane {
  sawMetrics : bool;
  lane_tokenCount : Z;
  lane_clock : nat
}.

(** How the [for await] loop of a lane is left. *)
Inductive LoopExit : Type :=
| Exhausted
| Broke
| Raised (message : jstring).

Section Lane.
Variable config : RaceConfig.
Variable start : Z.
Variable clock_now : nat -> Z.
Variable resultId : jstring.

(** [for await (const result of stream)].  The elapsed time is compared in
    milliseconds: [(Date.now() - raceStartTime) / 1000 >= timeLimit]. *)
Fixpoint lane_loop (st : LaneLocals) (evs : list CompletionResult)
  (fin : completion) : list AppAction * LaneLocals * LoopExit :=
  match evs with
  | [] =>
      ([], st, match fin with Returned => Exhausted | Threw m => Raised m end)
  | result :: rest =>
      if is_token_limit (mode config) && limit_set (tokenLimit config)
         && (limit_value (tokenLimit config) <=? lane_tokenCount st)%Z
      then ([], st, Broke)
      else
        let timed := is_time_limit (mode config) && limit_set (timeLimit config) in
        let st1 :=
          if timed
          then mkLane (sawMetrics st) (lane_tokenCount st) (S (lane_clock st))
          else st in
        if timed
           && (1000 * limit_value (timeLimit config)
               <=? clock_now (lane_clock st) - start)%Z
        then ([], st1, Broke)
        else
          match result with
          | Chunk content =>
              let st2 := mkLane (sawMetrics st1) (lane_tokenCount st1 + 1)%Z
                                (lane_clock st1) in
              let '(acts, st', exit) := lane_loop st2 rest fin in
              (RECEIVE_CHUNK resultId content :: acts, st', exit)
          | Metrics data =>
              let st2 := mkLane true (lane_tokenCount st1) (lane_clock st1) in
              let '(acts, st', exit) := lane_loop st2 rest fin in
              (FINISH_STREAM resultId data :: acts, st', exit)
          end
  end.

(** The metrics built when the loop ended without a metrics event in a
    limited race. *)
Definition synthetic_metrics (st : LaneLocals) : CompletionMetrics :=
  let finishTime := clock_now (lane_clock st) in
  mkMetrics start (Some (start + 100)%Z) (Some finishTime)
            (lane_tokenCount st) None (Some (lane_tokenCount st)).

(** What follows the loop, inside the same [try]. *)
Definition after_loop (st : LaneLocals) (exit : LoopExit) : list AppAction :=
  match exit with
  | Raised m => [SET_ERROR resultId m]
  | _ =>
      if sawMetrics st then []
      else
        match mode config with
        | token_limit | time_limit =>
            [FINISH_STREAM resultId (synthetic_metrics st)]
        | _ => [SET_ERROR resultId (Js.lit "Stream ended without metrics")]
        end
  end.

Definition consume (s : Stream) : list AppAction :=
  let '(acts, st, exit) := lane_loop (mkLane false 0%Z 0) (events s) (finished s) in
  acts ++ after_loop st exit.

End Lane.

(** [state.apiKeys[p.providerId]], and [!apiKey]: the key stored under the
    provider id, if one is.  [state.apiKeys] is a plain object, so where no
    key is stored and the id is the name of a member of [Object.prototype]
    the read answers with that member, which is no string and is truthy;
    statements that rest on a key being absent carry [own_key_lookup]. *)
Definition apiKey_of (state : AppState) (p : Pair) : option jstring :=
  apiKeys state !! providerId p.

(** The names a plain object answers for without holding them: the members
    of [Object.prototype]. *)
Definition Object_prototype_members : list jstring :=
  List.map Js.lit
    [ "constructor"; "__defineGetter__"; "__defineSetter__"; "hasOwnProperty";
      "__lookupGetter__"; "__lookupSetter__"; "isPrototypeOf";
      "propertyIsEnumerable"; "toString"; "valueOf"; "__proto__";
      "toLocaleString" ]%string.

(** [state.apiKeys[p.providerId]] is the stored key or undefined: a key is
    stored under the id, or the id names no member of [Object.prototype]. *)
Definition own_key_lookup (state : AppState) (p : Pair) : Prop :=
  is_Some (apiKeys state !! providerId p)
  \/ ~ In (providerId p) Object_prototype_members.

(** [state.enabledProviders[p.providerId] !== false] *)
Definition enabled (state : AppState) (p : Pair) : bool :=
  match enabledProviders state !! providerId p with
  | Some false => false
  | _ => true
  end.

(** The async callback mapped over [providersToTest]: the actions the lane
    dispatches, in order, and the requests made on its behalf. *)
Definition lane (state : AppState) (env : RaceEnv) (p : Pair)
  : list AppAction * list Request :=
  let resultId := resultId_of p in
  match apiKey_of state p with
  | Some apiKey =>
      if Js.truthy apiKey then
        let stream :=
          streamCompletion env (providerId p) (prompt state) (modelId p) apiKey
                           (modelSettings (raceConfig state)) in
        (consume (raceConfig state) (raceStartTime env) (lane_now env p)
                 resultId stream,
         sent stream)
      else ([SET_ERROR resultId (Js.lit "API Key not set")], [])
  | None => ([SET_ERROR resultId (Js.lit "API Key not set")], [])
  end.

(** Takes the next element of queue [i], if there is one. *)
Fixpoint take_from {A} (i : nat) (queues : list (list A)) {struct queues}
  : option (A * list (list A)) :=
  match queues with
  | [] => None
  | q :: qs =>
      match i with
      | O => match q with
             | [] => None
             | a :: q' => Some (a, q' :: qs)
             end
      | S i' => match take_from i' qs with
                | Some (a, qs') => Some (a, q :: qs')
                | None => None
                end
      end
  end.

(** The order in which concurrently running lanes dispatch: the schedule
    names the lane that goes next; lanes left over when it runs out finish
    one after the other. *)
Fixpoint interleave {A} (sched : list nat) (queues : list (list A)) : list A :=
  match sched with
  | [] => List.concat queues
  | i :: sched' =>
      match take_from i queues with
      | Some (a, queues') => a :: interleave sched' queues'
      | None => interleave sched' queues
      end
  end.

Definition countdown (reduceMotion : bool) : list AppAction :=
  if reduceMotion then [SET_RACE_STATE racing; SET_COUNTDOWN CountNull]
  else [ SET_RACE_STATE countingDown;
         SET_COUNTDOWN (CountNumber 3); SET_COUNTDOWN (CountNumber 2);
         SET_COUNTDOWN (CountNumber 1); SET_COUNTDOWN CountGo;
         SET_RACE_STATE racing; SET_COUNTDOWN CountNull ].

(** [state.selectedPairs.filter(p => state.enabledProviders[p.providerId] !== false)] *)
Definition selected (state : AppState) : list Pair :=
  List.filter (enabled state) (selectedPairs state).

(** [handleRunComparison]: every action dispatched, in order, and every
    request made. *)
Definition handleRunComparison (state : AppState) (env : RaceEnv)
  : list AppAction * list Request :=
  let providersToTest := selected state in
  match providersToTest with
  | [] => ([], [])
  | _ =>
      let lanes := List.map (lane state env) providersToTest in
      (START_COMPARISON providersToTest
         :: countdown (reduceMotion env)
         ++ interleave (schedule env) (List.map fst lanes)
         ++ [FINISH_COMPARISON],
       List.concat (List.map snd lanes))
  end.

(** The application state once the race started from [state] is over. *)
Definition after_race (state : AppState) (env : RaceEnv) : AppState :=
  dispatch_all state (fst (handleRunComparison state env)).

(** The lane a dispatched action names, if it names one. *)
Definition target (a : AppAction) : option jstring :=
  match a with
  | RECEIVE_CHUNK r _ | FINISH_STREAM r _ | SET_ERROR r _ => Some r
  | _ => None
  end.

(** What [appReducer] does to one lane result on a lane action. *)
Definition reduce_result (r : ResultState) (a : AppAction) : ResultState :=
  match a with
  | RECEIVE_CHUNK rid chunk => if Js.eqb (id r) rid then append_chunk chunk r else r
  | FINISH_STREAM rid m => if Js.eqb (id r) rid then set_metrics m r else r
  | SET_ERROR rid e => if Js.eqb (id r) rid then set_error e r else r
  | _ => r
  end.

(** The lane result carrying [resultId] (the first one, should several
    carry it). *)
Definition find_result (resultId : jstring) (state : AppState) : option ResultState :=
  List.find (fun r => Js.eqb (id r) resultId) (results state).

(* ===================================================================== *)
(** ** utils/apiClient.ts and the registry of utils/providerService.ts    *)
(* ===================================================================== *)

(** [ProviderService]: the provider id and [generate]; [getModels] plays no
    part in a race. *)
Record ProviderService := mkService {
  service_id : jstring;
  service_generate :
    Env -> jstring -> jstring -> jstring -> option AbortSignal ->
    option ModelSettings -> Stream
}.

Definition cerebrasService : ProviderService :=
  mkService (Js.lit "cerebras") Cerebras.generate.

Definition zhipuService : ProviderService :=
  mkService (Js.lit "zhipu") Zhipu.generate.

Definition moonshotService : ProviderService :=
  mkService (Js.lit "moonshot") Moonshot.generate.

(** The adapters among the sources. *)
Definition adapters : list ProviderService :=
  [cerebrasService; zhipuService; moonshotService].

(** Modelled from the spec: [registerProviderService] and the lookup live in
    utils/providerService.ts, which is not among the sources.  The registry
    is a map keyed by provider id; registering adds the adapter under its id
    and a lookup of an absent id finds nothing. *)
Definition registerProviderService (service : ProviderService)
  (registry : gmap (list N) ProviderService) : gmap (list N) ProviderService :=
  <[service_id service := service]> registry.

Definition getProviderService (registry : gmap (list N) ProviderService)
  (providerId : jstring) : option ProviderService :=
  registry !! providerId.

Definition registry : gmap (list N) ProviderService :=
  List.fold_right registerProviderService ∅ adapters.

(** Modelled from the spec: [streamCompletion] of utils/apiClient.ts, which
    is not among the sources.  It looks the adapter up by provider id, fails
    with UnknownProvider when there is none, and otherwise delegates to the
    adapter's [generate] and yields its events unchanged.  Its call in
    pages/index.tsx passes the provider id, the prompt, the model, the key and
    the settings and nothing else, so it has no cancellation signal to hand
    on.  [env_of] gives each call its network and clock. *)
Definition streamCompletion_client (env_of : jstring -> jstring -> Env)
  (providerId prompt model apiKey : jstring) (settings : ModelSettings) : Stream :=
  match getProviderService registry providerId with
  | None => mkRun [] [] (Threw (Js.lit "UnknownProvider"))
  | Some service =>
      service_generate service (env_of providerId model)
                       prompt model apiKey None (Some settings)
  end.

(* ===================================================================== *)
(** ** The specification's words, for comparison with the code           *)
(* ===================================================================== *)

(** The first-token time stamp the specification gives synthesized metrics:
    the real one when one was captured during streaming, the approximation
    [start + 100] only when none was. *)
Definition firstTokenTime_spec (start : Z) (captured : option Z) : option Z :=
  match captured with
  | Some first => Some first
  | None => Some (start + 100)%Z
  end.

(** The pairs the specification says a race starts lanes for: selected, with
    a non-empty API key, and not disabled. *)
Definition eligible_spec (state : AppState) : list Pair :=
  List.filter (fun p => option_truthy (apiKey_of state p) && enabled state p)
              (selectedPairs state).

(** A segment of the 'data: ' kind whose payload is not the terminator and
    is rejected by [JSON.parse], as each decoder reads it. *)
Definition cerebras_malformed (env : Env) (part : jstring) : Prop :=
  Js.startsWith part DATA_PREFIX = true
  /\ Js.trim (Js.substring 6 part) <> DONE
  /\ JSON_parse env (Js.trim (Js.substring 6 part)) = None.

Definition zhipu_malformed (env : Env) (line : jstring) : Prop :=
  Js.startsWith line DATA_PREFIX = true
  /\ Js.trim (Js.substring 6 line) <> DONE
  /\ JSON_parse env (Js.substring 6 line) = None.

(** A segment whose payload parses to [v]. *)
Definition cerebras_well_formed (env : Env) (part : jstring) (v : jsval) : Prop :=
  Js.startsWith part DATA_PREFIX = true
  /\ Js.trim (Js.substring 6 part) <> DONE
  /\ JSON_parse env (Js.trim (Js.substring 6 part)) = Some v.

Definition zhipu_well_formed (env : Env) (line : jstring) (v : jsval) : Prop :=
  Js.startsWith line DATA_PREFIX = true
  /\ Js.trim (Js.substring 6 line) <> DONE
  /\ JSON_parse env (Js.substring 6 line) = Some v.

(** The outcome of a decoder whose segments yielded [fst r]: it returned if
    the terminator was met, and otherwise ends as the body does. *)
Definition ended (r : list jsval * bool) (ending : completion)
  : list jsval * completion :=
  (fst r, if snd r then Returned else ending).

(** The outcome of a decoder after one read whose segments yielded
    [fst r], given the outcome [rest] of the reads that follow. *)
Definition continued (r : list jsval * bool) (rest : list jsval * completion)
  : list jsval * completion :=
  if snd r then (fst r, Returned) else (fst r ++ fst rest, snd rest).

(** Two states that agree on every field but [results]. *)
Definition same_but_results (s s' : AppState) : Prop :=
  prompt s' = prompt s /\ app_isLoading s' = app_isLoading s
  /\ apiKeys s' = apiKeys s /\ selectedPairs s' = selectedPairs s
  /\ raceState s' = raceState s /\ countdownValue s' = countdownValue s
  /\ enabledProviders s' = enabledProviders s /\ raceConfig s' = raceConfig s.

(** [state'] is [state] with [f] applied to the lane results whose id is
    [resultId] and nothing else touched. *)
Definition only_lane_updated (resultId : jstring)
  (f : ResultState -> ResultState) (state state' : AppState) : Prop :=
  same_but_results state state'
  /\ length (results state') = length (results state)
  /\ (forall i r, results state !! i = Some r ->
        results state' !! i = Some (if Js.eqb (id r) resultId then f r else r))
  /\ ((forall r, In r (results state) -> id r <> resultId) -> state' = state)
  /\ (NoDup (List.map id (results state)) ->
      forall i j,
        results state' !! i <> results state !! i ->
        results state' !! j <> results state !! j -> i = j).

(** How the run [s] of a [generate] follows from the answer to its one
    request [req]: nothing is yielded when the request is rejected or
    answered with an error status; otherwise the events are those of the
    loop over the objects [decode] finds in the body. *)
Definition generate_outcome (env : Env) (prompt : jstring) (req : Request)
  (content_of : jsval -> result jsval)
  (decode : Response -> list jsval * completion) (s : Stream) : Prop :=
  sent s = [req]
  /\ (forall msg, fetch env req = Throw msg ->
                  events s = [] /\ finished s = Threw msg)
  /\ (forall response, fetch env req = Ok response ->
                       resp_ok response = false ->
                       events s = [] /\ exists msg, finished s = Threw msg)
  /\ (forall response, fetch env req = Ok response ->
                       resp_ok response = true ->
                       (events s, finished s)
                       = stream_events env content_of prompt (now env 0)
                                       (decode response)).

(** Every timestamp held by the loop of [generate] was read from the clock
    earlier. *)
Definition stamped (env : Env) (st : locals) : Prop :=
  (1 <= clock st)%nat
  /\ forall t, l_firstTokenTime st = Some t ->
               exists k, (k < clock st)%nat /\ t = now env k.

(** [sole mine queues q]: [q] is one of the queues, and no other queue
    holds an action that is [mine]. *)
Inductive sole {A} (mine : A -> Prop) : list (list A) -> list A -> Prop :=
| sole_here q qs :
    Forall (Forall (fun a => ~ mine a)) qs -> sole mine (q :: qs) q
| sole_later q0 qs q :
    Forall (fun a => ~ mine a) q0 -> sole mine qs q -> sole mine (q0 :: qs) q.

(** A run of [generate]: chunks only, then one metrics event at the very end
    exactly when the generator returned; a generator that threw yielded no
    metrics event. *)
Definition metrics_last (s : Stream) : Prop :=
  exists chunks,
    (events s = List.map Chunk chunks /\ exists msg, finished s = Threw msg)
    \/ (exists m, events s = List.map Chunk chunks ++ [Metrics m]
                  /\ finished s = Returned).

Definition is_metrics (e : CompletionResult) : bool :=
  match e with Metrics _ => true | Chunk _ => false end.

(** [startTime ≤ firstTokenTime ≤ finishTime] whenever all three are
    present. *)
Definition timestamps_ordered (m : CompletionMetrics) : Prop :=
  forall first finish,
    firstTokenTime m = Some first -> finishTime m = Some finish ->
    (startTime m <= first <= finish)%Z.

(** A clock that never runs backwards. *)
Definition monotone (clock_now : nat -> Z) : Prop :=
  forall i j, (i <= j)%nat -> (clock_now i <= clock_now j)%Z.

(* ===================================================================== *)
(** ** Concrete inputs used in the examples                               *)
(* ===================================================================== *)

Module Sample.

Definition bytes (s : string) : list byte := list_byte_of_string s.

(** A blank line: the SSE event separator. *)
Definition sep : string := String "010" (String "010" EmptyString).

Definition quote : string := String "034" EmptyString.

(** The text of an OpenAI-style delta carrying the content [Hi]. *)
Definition delta_text : string :=
  "{" ++ quote ++ "choices" ++ quote ++ ":[{" ++ quote ++ "delta" ++ quote
  ++ ":{" ++ quote ++ "content" ++ quote ++ ":" ++ quote ++ "Hi" ++ quote
  ++ "}}]}".

Definition delta_value : jsval :=
  JObj [(Js.lit "choices",
         JArr [JObj [(Js.lit "delta",
                      JObj [(Js.lit "content", JStr (Js.lit "Hi"))])]])].

(** A [JSON.parse] that knows the three texts used below and rejects every
    other text. *)
Definition parse (s : jstring) : option jsval :=
  if Js.eqb s (Js.lit "{}") then Some (JObj [])
  else if Js.eqb s (Js.lit "[]") then Some (JArr [])
  else if Js.eqb s (Js.lit delta_text) then Some delta_value
  else None.

Definition network_down (_ : Request) : result Response :=
  Throw (Js.lit "Failed to fetch").

Definition env : Env :=
  mkEnv parse (fun _ => Js.lit "0") network_down (fun k => Z.of_nat k)
        (fun s => Z.of_nat (length s)) (fun _ g => Z.of_nat (length g)).

Definition response (values : list (list byte)) : Response :=
  mkResponse true 200 (Ok []) (Some (mkStream values Returned)).

(** A provider that answers every request with two deltas, the second one
    split across two reads, and the terminator. *)
Definition two_deltas : list (list byte) :=
  [ bytes ("data: " ++ delta_text ++ sep ++ "data: " ++ delta_text);
    bytes (sep ++ "data: [DONE]" ++ sep) ].

Definition online : Env :=
  mkEnv parse (fun _ => Js.lit "0") (fun _ => Ok (response two_deltas))
        (fun k => Z.of_nat k)
        (fun s => Z.of_nat (length s)) (fun _ g => Z.of_nat (length g)).

Definition settings : ModelSettings := mkSettings (7 # 10)%Q 2048%Z 1%Q None.

Definition cerebras_a : Pair := mkPair (Js.lit "cerebras") (Js.lit "llama3.1-8b").
Definition zhipu_a : Pair := mkPair (Js.lit "zhipu") (Js.lit "glm-4").

Definition config (m : RaceMode) (tokens : Z) : RaceConfig :=
  mkConfig m (Some tokens) (Some 30%Z) settings None.

(** Two lanes selected, a key for zhipu only. *)
Definition state (m : RaceMode) (tokens : Z) : AppState :=
  mkState (Js.lit "hi") false {[ Js.lit "zhipu" := Js.lit "sk-1" ]}
          [cerebras_a; zhipu_a] [] idle CountNull ∅ (config m tokens).

Definition metrics0 : CompletionMetrics :=
  mkMetrics 5%Z (Some 7%Z) (Some 9%Z) 2%Z (Some 1%Z) (Some 2%Z).

(** A client whose every stream is three chunks followed by metrics. *)
Definition three_chunks : Stream :=
  mkRun [] [Chunk (Js.lit "a"); Chunk (Js.lit "b"); Chunk (Js.lit "c");
            Metrics metrics0] Returned.

(** Keys for both providers. *)
Definition state_keys : AppState :=
  mkState (Js.lit "hi") false
          {[ Js.lit "zhipu" := Js.lit "sk-1"; Js.lit "cerebras" := Js.lit "sk-2" ]}
          [cerebras_a; zhipu_a] [] idle CountNull ∅ (config drag 500).

(** One pair selected, no key stored, nothing disabled. *)
Definition state_keyless : AppState :=
  mkState (Js.lit "hi") false ∅ [cerebras_a] [] idle CountNull ∅ (config drag 500).

(** A race run through the completion client of the specification. *)
Definition client_env (sched : list nat) : RaceEnv :=
  mkRaceEnv true 1000%Z (streamCompletion_client (fun _ _ => online))
            (fun _ k => (1050 + Z.of_nat k)%Z) sched.

Definition race_env (sched : list nat) : RaceEnv :=
  mkRaceEnv true 1000%Z (fun _ _ _ _ _ => three_chunks)
            (fun _ k => (1050 + Z.of_nat k)%Z) sched.

End Sample.

(* ===================================================================== *)
(** ** pages/index.tsx: the start button                                  *)
(* ===================================================================== *)

(** [startDisabled]: no selected pair is enabled, keyed and has a model, or
    the countdown is running. *)
Definition startDisabled (state : AppState) : bool :=
  negb (List.existsb
          (fun p => enabled state p && option_truthy (apiKey_of state p)
                    && Js.truthy (modelId p))
          (selectedPairs state))
  || match raceState state with countingDown => true | _ => false end.

(** The action a lane dispatches for one event it processes. *)
Definition action_of (resultId : jstring) (e : CompletionResult) : AppAction :=
  match e with
  | Chunk content => RECEIVE_CHUNK resultId content
  | Metrics data => FINISH_STREAM resultId data
  end.

Definition is_chunk (e : CompletionResult) : bool :=
  match e with Chunk _ => true | Metrics _ => false end.

(** One of the two [break] tests of the lane loop can fire: the mode is
    token_limit or time_limit and its limit is set and not zero. *)
Definition limit_in_force (config : RaceConfig) : bool :=
  is_token_limit (mode config) && limit_set (tokenLimit config)
  || is_time_limit (mode config) && limit_set (timeLimit config).

(** The number of chunk events among [evs]. *)
Definition chunk_count (evs : list CompletionResult) : Z :=
  Z.of_nat (length (List.filter is_chunk evs)).

(** The actions a race dispatches: staging, countdown, lane updates and the
    closing FINISH_COMPARISON. *)
Definition race_action (a : AppAction) : bool :=
  match a with
  | START_COMPARISON _ | RECEIVE_CHUNK _ _ | FINISH_STREAM _ _ | SET_ERROR _ _
  | FINISH_COMPARISON | SET_RACE_STATE _ | SET_COUNTDOWN _ => true
  | _ => false
  end.

(** Two states with the same prompt, keys, selection, enabled providers and
    race configuration: what the user edits. *)
Definition same_inputs (s s' : AppState) : Prop :=
  prompt s' = prompt s /\ apiKeys s' = apiKeys s
  /\ selectedPairs s' = selectedPairs s
  /\ enabledProviders s' = enabledProviders s /\ raceConfig s' = raceConfig s.

(** [{ ...config, excludedReasoningModels: newExcluded }], the configuration
    RaceSettings.tsx hands to [onChange] when a model is opted in or out of
    reasoning effort. *)
Definition with_excluded (config : RaceConfig) (newExcluded : option (list jstring))
  : RaceConfig :=
  mkConfig (mode config) (tokenLimit config) (timeLimit config)
           (modelSettings config) newExcluded.

(** A lane result that is no longer loading and holds metrics or an
    error. *)
Definition settled (r : ResultState) : Prop :=
  isLoading r = false /\ (is_Some (metrics r) \/ is_Some (error r)).

(** An action that ends the lane [resultId]. *)
Definition settles (resultId : jstring) (a : AppAction) : Prop :=
  (exists m, a = FINISH_STREAM resultId m) \/ (exists e, a = SET_ERROR resultId e).

(* ===================================================================== *)
(** ** components/main/ResultsDisplay.tsx                                 *)
(* ===================================================================== *)

Module ResultsDisplay.

(** [hideFailed ? results.filter(r => !r.error) : results] *)
Definition displayed (hideFailed : bool) (results : list ResultState)
  : list ResultState :=
  if hideFailed
  then List.filter (fun r => negb (option_truthy (error r))) results
  else results.

End ResultsDisplay.

(* ===================================================================== *)
(** ** components/main/Leaderboard.tsx                                    *)
(* ===================================================================== *)

Module Leaderboard.

(** [!t] for a time stamp that may be absent: absent or zero. *)
Definition missing (t : option Z) : bool :=
  match t with
  | Some v => (v =? 0)%Z
  | None => true
  end.

Definition calcTotal (ms : ResultState) : option Z :=
  match metrics ms with
  | None => None
  | Some m =>
      if missing (finishTime m) || (startTime m =? 0)%Z then None
      else Some (default 0%Z (finishTime m) - startTime m)%Z
  end.

Definition calcTtft (r : ResultState) : option Z :=
  match metrics r with
  | None => None
  | Some m =>
      if missing (firstTokenTime m) || (startTime m =? 0)%Z then None
      else Some (default 0%Z (firstTokenTime m) - startTime m)%Z
  end.

(** [calcTps].  The two quotients are taken exactly, where the code rounds
    them to doubles: the exact value stands for the figure shown, and only
    whether there is a figure is reasoned about ([seconds <= 0] is decided
    alike by both). *)
Definition calcTps (r : ResultState) : option Q :=
  match metrics r with
  | None => None
  | Some m =>
      if missing (finishTime m) || missing (firstTokenTime m) then None
      else
        let seconds :=
          (inject_Z (default 0%Z (finishTime m) - default 0%Z (firstTokenTime m))
           / inject_Z 1000)%Q in
        if Qle_bool seconds 0 then None
        else
          let out := default (tokenCount m) (outputTokens m) in
          Some (inject_Z out / seconds)%Q
  end.

(** [results.filter(r => r.metrics && !r.error)] *)
Definition finished (results : list ResultState) : list ResultState :=
  List.filter
    (fun r => bool_decide (is_Some (metrics r)) && negb (option_truthy (error r)))
    results.

(** [sort((a, b) => a.ttft - b.ttft)]: the sort of an array is stable, so
    its result is the one an insertion from the right produces. *)
Fixpoint insert (x : ResultState * Z) (l : list (ResultState * Z))
  : list (ResultState * Z) :=
  match l with
  | [] => [x]
  | y :: l' => if (snd x <=? snd y)%Z then x :: l else y :: insert x l'
  end.

Fixpoint sort (l : list (ResultState * Z)) : list (ResultState * Z) :=
  match l with
  | [] => []
  | x :: l' => insert x (sort l')
  end.

(** [.map(r => ({ r, ttft: calcTtft(r) })).filter(x => x.ttft !== null)] *)
Fixpoint with_ttft (rs : list ResultState) : list (ResultState * Z) :=
  match rs with
  | [] => []
  | r :: rs' =>
      match calcTtft r with
      | Some t => (r, t) :: with_ttft rs'
      | None => with_ttft rs'
      end
  end.

Definition topByTtft (results : list ResultState) : list (ResultState * Z) :=
  firstn 3 (sort (with_ttft (finished results))).

End Leaderboard.

(* ===================================================================== *)
(** ** components/main/RaceLane.tsx: the times a lane shows               *)
(* ===================================================================== *)

Module RaceLane.

(** [metrics?.firstTokenTime ? metrics.firstTokenTime - metrics.startTime
    : undefined] *)
Definition ttft (metrics : option CompletionMetrics) : option Z :=
  match metrics with
  | None => None
  | Some m =>
      if Leaderboard.missing (firstTokenTime m) then None
      else Some (default 0%Z (firstTokenTime m) - startTime m)%Z
  end.

(** [metrics?.finishTime ? metrics.finishTime - metrics.startTime
    : undefined] *)
Definition total (metrics : option CompletionMetrics) : option Z :=
  match metrics with
  | None => None
  | Some m =>
      if Leaderboard.missing (finishTime m) then None
      else Some (default 0%Z (finishTime m) - startTime m)%Z
  end.

End RaceLane.

(* ===================================================================== *)
(** ** utils/providers/moonshot.ts: [getModels]                           *)
(* ===================================================================== *)

Module MoonshotModels.

Definition MOONSHOT_MODELS : list jstring :=
  List.map Js.lit
    [ "kimi-k2-0905-preview"; "kimi-k2-thinking"; "kimi-k2-turbo-preview";
      "kimi-k2-instruct"; "kimi-latest"; "moonshot-v1-8k"; "moonshot-v1-32k";
      "moonshot-v1-128k"; "moonshot-v1-auto" ]%string.

(** Equality of the members of a [Set] (SameValueZero): primitives by
    value; two objects or arrays that [JSON.parse] built are never the same
    object. *)
Definition sameValueZero (a b : jsval) : bool :=
  match a, b with
  | JUndefined, JUndefined => true
  | JNull, JNull => true
  | JBool x, JBool y => Bool.eqb x y
  | JNum x, JNum y => Qeq_bool x y
  | JStr x, JStr y => Js.eqb x y
  | _, _ => false
  end.

(** [Array.from(new Set(items))]: the first occurrence of every member, in
    order. *)
Fixpoint from_set (seen items : list jsval) : list jsval :=
  match items with
  | [] => []
  | x :: items' =>
      if List.existsb (sameValueZero x) seen then from_set seen items'
      else x :: from_set (x :: seen) items'
  end.

(** [data.map(model => model.id)] *)
Fixpoint ids_of (data : list jsval) : result (list jsval) :=
  match data with
  | [] => Ok []
  | model :: data' =>
      match JsVal.getProp model (Js.lit "id") with
      | Throw m => Throw m
      | Ok v =>
          match ids_of data' with
          | Throw m => Throw m
          | Ok vs => Ok (v :: vs)
          end
      end
  end.

(** [await response.json()]: the text of the body, parsed. *)
Definition json (env : Env) (response : Response) : result jsval :=
  match resp_text response with
  | Throw m => Throw m
  | Ok text =>
      match JSON_parse env text with
      | Some v => Ok v
      | None => Throw (Js.lit "Unexpected token in JSON")
      end
  end.

(** The [try] block of [getModels]; [answer] is what the request for the
    model list came back with. *)
Definition fetched (env : Env) (answer : result Response) : result (list jsval) :=
  match answer with
  | Throw m => Throw m
  | Ok response =>
      if negb (resp_ok response)
      then Throw (Js.lit "Failed to fetch Moonshot models")
      else
        match json env response with
        | Throw m => Throw m
        | Ok v =>
            match JsVal.getProp v (Js.lit "data") with
            | Throw m => Throw m
            | Ok (JArr data) =>
                match ids_of data with
                | Throw m => Throw m
                | Ok fetchedModels =>
                    Ok (from_set [] (fetchedModels
                                     ++ List.map JStr MOONSHOT_MODELS))
                end
            | Ok _ => Throw (Js.lit "data.map is not a function")
            end
        end
  end.

(** [getModels]: whatever is thrown is caught and answered with the static
    list. *)
Definition getModels (env : Env) (answer : result Response) : list jsval :=
  match fetched env answer with
  | Ok models => models
  | Throw _ => List.map JStr MOONSHOT_MODELS
  end.

End MoonshotModels.

(** More concrete inputs for the examples. *)
Module Sample2.

(** A provider that sends a delta, then an object without [choices], then
    another delta. *)
Definition with_keepalive : list (list byte) :=
  [ Sample.bytes ("data: " ++ Sample.delta_text ++ Sample.sep
                  ++ "data: {}" ++ Sample.sep
                  ++ "data: " ++ Sample.delta_text ++ Sample.sep) ].

Definition keepalive_env : Env :=
  mkEnv Sample.parse (fun _ => Js.lit "0")
        (fun _ => Ok (Sample.response with_keepalive))
        (fun k => Z.of_nat k)
        (fun s => Z.of_nat (length s)) (fun _ g => Z.of_nat (length g)).

(** A provider that answers 401. *)
Definition denied : Response :=
  mkResponse false 401%Z (Ok (Js.lit "denied")) None.

Definition denied_env : Env :=
  mkEnv Sample.parse (fun _ => Js.lit "0") (fun _ => Ok denied)
        (fun k => Z.of_nat k)
        (fun s => Z.of_nat (length s)) (fun _ g => Z.of_nat (length g)).

(** A race whose every stream is what Zhipu's [generate] makes of the 401
    answer. *)
Definition denied_race (sched : list nat) : RaceEnv :=
  mkRaceEnv true 1000%Z
            (fun _ prompt model apiKey settings =>
               Zhipu.generate denied_env prompt model apiKey None (Some settings))
            (fun _ k => (1050 + Z.of_nat k)%Z) sched.

(** A provider that answers with the two deltas, on a clock that reads
    1010, 1020, 1030, ... *)
Definition ticking : Env :=
  mkEnv Sample.parse (fun _ => Js.lit "0")
        (fun _ => Ok (Sample.response Sample.two_deltas))
        (fun k => (1010 + 10 * Z.of_nat k)%Z)
        (fun s => Z.of_nat (length s)) (fun _ g => Z.of_nat (length g)).

(** What cerebras's [generate] streams from it: two chunks and the metrics
    holding the first-token time stamp it captured, 1020. *)
Definition captured : Stream :=
  Cerebras.generate ticking (Js.lit "hi") (Js.lit "llama3.1-8b") (Js.lit "sk-2")
                    None (Some Sample.settings).

(** A lane result holding both metrics and an error, and one that finished. *)
Definition failed_late : ResultState :=
  mkResult (Js.lit "zhipu-glm-4") (Js.lit "zhipu") (Js.lit "glm-4")
           (Js.lit "ab") (Some Sample.metrics0) false
           (Some (Js.lit "network error")).

Definition finished_ok : ResultState :=
  mkResult (Js.lit "cerebras-llama3.1-8b") (Js.lit "cerebras")
           (Js.lit "llama3.1-8b") (Js.lit "ab") (Some Sample.metrics0) false None.

(** A stream of two chunks closed by metrics. *)
Definition two_chunks : Stream :=
  mkRun [] [Chunk (Js.lit "a"); Chunk (Js.lit "b"); Metrics Sample.metrics0]
        Returned.

(** A stream of two chunks that ends without metrics. *)
Definition no_metrics : Stream :=
  mkRun [] [Chunk (Js.lit "a"); Chunk (Js.lit "b")] Returned.

(** A time-limited race of 5 seconds. *)
Definition timed : RaceConfig :=
  mkConfig time_limit (Some 500%Z) (Some 5%Z) Sample.settings None.

(** A clock that reads 2 s, 4 s, 6 s, ... after a start at 1000. *)
Definition slow_clock (k : nat) : Z := (3000 + 2000 * Z.of_nat k)%Z.

End Sample2.

(** The adapters with the name their error messages start with. *)
Definition adapter_names : list (ProviderService * string) :=
  [ (cerebrasService, "Cerebras"%string); (zhipuService, "Zhipu"%string);
    (moonshotService, "Moonshot"%string) ].

(* ===================================================================== *)
(** * Properties                                                          *)
(* ===================================================================== *)

(** ** Strings *)

#[local] Arguments Js.lit : simpl never.
#[local] Arguments Js.ofZ : simpl never.
#[local] Arguments Cerebras.request : simpl never.
#[local] Arguments Zhipu.request : simpl never.
#[local] Arguments Cerebras.streamSSE : simpl never.
#[local] Arguments Zhipu.streamOpenAIResponse : simpl never.
#[local] Arguments stream_events : simpl never.
#[local] Arguments Js.pop : simpl never.

Lemma eqb_true (a b : jstring) : Js.eqb a b = true <-> a = b.
Proof. unfold Js.eqb. apply bool_decide_eq_true. Qed.

Lemma eqb_false (a b : jstring) : Js.eqb a b = false <-> a <> b.
Proof. unfold Js.eqb. apply bool_decide_eq_false. Qed.

Lemma eqb_refl (a : jstring) : Js.eqb a a = true.
Proof. by apply eqb_true. Qed.

Lemma map_lookup {A B} (f : A -> B) (l : list A) (i : nat) :
  List.map f l !! i = f <$> (l !! i).
Proof.
  revert i. induction l as [|x l IH]; intros [|i]; simpl; auto.
Qed.

(** ** The reducer touches one lane *)

Lemma map_result_id rid f rs :
  (forall r, id (f r) = id r) ->
  List.map id (map_result rid f rs) = List.map id rs.
Proof.
  intros Hf. unfold map_result. rewrite List.map_map.
  apply List.map_ext. intros r. destruct (Js.eqb (id r) rid); auto.
Qed.

Lemma map_result_absent rid f rs :
  (forall r, In r rs -> id r <> rid) -> map_result rid f rs = rs.
Proof.
  intros H. unfold map_result.
  rewrite <- (List.map_id rs) at 2. apply List.map_ext_in.
  intros r Hr. apply H in Hr. apply eqb_false in Hr. by rewrite Hr.
Qed.

Lemma with_results_same state : with_results state (results state) = state.
Proof. by destruct state. Qed.

Lemma NoDup_lookup_inj {A} (l : list A) i j x :
  NoDup l -> l !! i = Some x -> l !! j = Some x -> i = j.
Proof.
  intros Hnd Hi Hj. eapply NoDup_lookup; eauto.
Qed.

Lemma only_lane_updated_map rid f state :
  only_lane_updated rid f state
    (with_results state (map_result rid f (results state))).
Proof.
  unfold only_lane_updated, same_but_results. simpl.
  split; [by repeat split|].
  split; [unfold map_result; by rewrite length_map|].
  split.
  { intros i r Hi. unfold map_result. rewrite map_lookup, Hi. done. }
  split.
  { intros H. rewrite map_result_absent by done. apply with_results_same. }
  intros Hnd i j Hi Hj.
  assert (Hchg : forall k, map_result rid f (results state) !! k
                           <> results state !! k ->
                 List.map id (results state) !! k = Some rid).
  { intros k Hk. unfold map_result in Hk. rewrite map_lookup in Hk.
    rewrite map_lookup.
    destruct (results state !! k) as [r|] eqn:Hr; simpl in *; [|done].
    destruct (Js.eqb (id r) rid) eqn:E; [|done].
    apply eqb_true in E. by rewrite E. }
  eapply NoDup_lookup_inj; eauto.
Qed.

(** C10.  A RECEIVE_CHUNK, FINISH_STREAM or SET_ERROR action changes the
    state only at the lane results whose id is the action's resultId:
    there the chunk is appended to responseText, or the metrics are set and
    isLoading cleared, or the error is set and isLoading cleared.  Every
    other lane result keeps its place and value, every field other than
    results is unchanged, the whole state is unchanged when no lane has that
    id, and when ids are unique at most one lane result changes. *)
Theorem appReducer_lane_frame (state : AppState) (resultId chunk err : jstring)
  (m : CompletionMetrics) :
  only_lane_updated resultId
    (fun r => mkResult (id r) (providerName r) (modelName r)
                       (responseText r ++ chunk) (metrics r) (isLoading r)
                       (error r))
    state (appReducer state (RECEIVE_CHUNK resultId chunk))
  /\ only_lane_updated resultId
       (fun r => mkResult (id r) (providerName r) (modelName r)
                          (responseText r) (Some m) false (error r))
       state (appReducer state (FINISH_STREAM resultId m))
  /\ only_lane_updated resultId
       (fun r => mkResult (id r) (providerName r) (modelName r)
                          (responseText r) (metrics r) false (Some err))
       state (appReducer state (SET_ERROR resultId err)).
Proof.
  split; [|split].
  - exact (only_lane_updated_map resultId (append_chunk chunk) state).
  - exact (only_lane_updated_map resultId (set_metrics m) state).
  - exact (only_lane_updated_map resultId (set_error err) state).
Qed.

Lemma appReducer_lane_frame_witness :
  results (appReducer (after_race (Sample.state drag 500) (Sample.race_env []))
                      (RECEIVE_CHUNK (resultId_of Sample.zhipu_a) (Js.lit "!")))
  !! 1%nat
  = Some (mkResult (resultId_of Sample.zhipu_a) (providerId Sample.zhipu_a)
                   (modelId Sample.zhipu_a) (Js.lit "abc!")
                   (Some Sample.metrics0) false None)
  /\ results (appReducer (after_race (Sample.state drag 500) (Sample.race_env []))
                         (SET_ERROR (resultId_of Sample.zhipu_a) (Js.lit "boom")))
     !! 1%nat
     = Some (mkResult (resultId_of Sample.zhipu_a) (providerId Sample.zhipu_a)
                      (modelId Sample.zhipu_a) (Js.lit "abc")
                      (Some Sample.metrics0) false (Some (Js.lit "boom")))
  /\ appReducer (after_race (Sample.state drag 500) (Sample.race_env []))
                (SET_ERROR (Js.lit "no-such-lane") (Js.lit "boom"))
     = after_race (Sample.state drag 500) (Sample.race_env []).
Proof.
  destruct (appReducer_lane_frame
              (after_race (Sample.state drag 500) (Sample.race_env []))
              (resultId_of Sample.zhipu_a) (Js.lit "!") (Js.lit "boom")
              Sample.metrics0)
    as [[_ [_ [Hchunk _]]] [_ [_ [_ [Herror _]]]]].
  destruct (appReducer_lane_frame
              (after_race (Sample.state drag 500) (Sample.race_env []))
              (Js.lit "no-such-lane") [] (Js.lit "boom") Sample.metrics0)
    as [_ [_ [_ [_ [_ [Habsent _]]]]]].
  split; [|split].
  - exact (Hchunk 1%nat
             (mkResult (resultId_of Sample.zhipu_a) (providerId Sample.zhipu_a)
                       (modelId Sample.zhipu_a) (Js.lit "abc")
                       (Some Sample.metrics0) false None)
             eq_refl).
  - exact (Herror 1%nat
             (mkResult (resultId_of Sample.zhipu_a) (providerId Sample.zhipu_a)
                       (modelId Sample.zhipu_a) (Js.lit "abc")
                       (Some Sample.metrics0) false None)
             eq_refl).
  - apply Habsent. intros r Hr. vm_compute in Hr.
    destruct Hr as [<- | [<- | []]]; vm_compute; discriminate.
Defined.

(** ** One lane of the orchestrator *)

Section LaneFacts.
Variable config : RaceConfig.
Variable start : Z.
Variable clock_now : nat -> Z.
Variable resultId : jstring.

Local Abbreviation loop := (lane_loop config start clock_now resultId).

(** The loop is left by [break] only in the two limited modes. *)
Lemma lane_loop_broke st evs fin acts st' :
  loop st evs fin = (acts, st', Broke) ->
  mode config = token_limit \/ mode config = time_limit.
Proof.
  revert st acts st'. induction evs as [|ev evs IH]; intros st acts st' H.
  - simpl in H. destruct fin; inversion H.
  - simpl in H.
    destruct (is_token_limit (mode config)) eqn:Etok.
    { left. by destruct (mode config). }
    simpl in H.
    destruct (is_time_limit (mode config)) eqn:Etime.
    { right. by destruct (mode config). }
    simpl in H.
    destruct ev.
    + destruct (loop _ evs fin) as [[acts0 st0] exit0] eqn:E.
      inversion H; subst. eapply IH; eauto.
    + destruct (loop _ evs fin) as [[acts0 st0] exit0] eqn:E.
      inversion H; subst. eapply IH; eauto.
Qed.

(** As long as no metrics event was seen, the loop has dispatched nothing
    but chunks, and the local counter counts them. *)
Lemma lane_loop_chunks_only st evs fin acts st' exit :
  loop st evs fin = (acts, st', exit) ->
  sawMetrics st' = false ->
  sawMetrics st = false
  /\ exists chunks,
       acts = List.map (RECEIVE_CHUNK resultId) chunks
       /\ lane_tokenCount st' = (lane_tokenCount st + Z.of_nat (length chunks))%Z.
Proof.
  revert st acts st' exit.
  induction evs as [|ev evs IH]; intros st acts st' exit H Hsaw.
  - simpl in H. inversion H; subst. split; [done|].
    exists []. simpl. split; [done|lia].
  - simpl in H.
    destruct (is_token_limit (mode config) && limit_set (tokenLimit config)
              && (limit_value (tokenLimit config) <=? lane_tokenCount st)%Z).
    { inversion H; subst. split; [done|]. exists []. simpl. split; [done|lia]. }
    set (timed := is_time_limit (mode config) && limit_set (timeLimit config)) in *.
    set (st1 := if timed
                then mkLane (sawMetrics st) (lane_tokenCount st) (S (lane_clock st))
                else st) in *.
    assert (Hst1 : sawMetrics st1 = sawMetrics st
                   /\ lane_tokenCount st1 = lane_tokenCount st).
    { unfold st1. by destruct timed. }
    destruct Hst1 as [Hs1 Ht1].
    destruct (timed && _).
    { inversion H; subst. rewrite Hs1 in Hsaw. split; [done|].
      exists []. simpl. split; [done|lia]. }
    destruct ev.
    + destruct (loop _ evs fin) as [[acts0 st0] exit0] eqn:E.
      inversion H; subst.
      destruct (IH _ _ _ _ E Hsaw) as [Hs [chunks [Ha Hc]]]. simpl in *.
      split; [congruence|].
      exists (content :: chunks). simpl. split; [by rewrite Ha|]. lia.
    + destruct (loop _ evs fin) as [[acts0 st0] exit0] eqn:E.
      inversion H; subst.
      destruct (IH _ _ _ _ E Hsaw) as [Hs _]. simpl in Hs. discriminate.
Qed.

(** Every action of the loop names this lane, and a FINISH_STREAM it
    dispatches carries metrics that came as an event. *)
Lemma lane_loop_actions st evs fin acts st' exit :
  loop st evs fin = (acts, st', exit) ->
  Forall (fun a =>
            (exists c, a = RECEIVE_CHUNK resultId c)
            \/ (exists m, a = FINISH_STREAM resultId m /\ In (Metrics m) evs))
         acts.
Proof.
  revert st acts st' exit.
  induction evs as [|ev evs IH]; intros st acts st' exit H.
  - simpl in H. inversion H. constructor.
  - simpl in H.
    destruct (is_token_limit (mode config) && limit_set (tokenLimit config)
              && (limit_value (tokenLimit config) <=? lane_tokenCount st)%Z).
    { inversion H. constructor. }
    destruct (is_time_limit (mode config) && limit_set (timeLimit config) && _).
    { inversion H. constructor. }
    destruct ev.
    + destruct (loop _ evs fin) as [[acts0 st0] exit0] eqn:E.
      inversion H; subst. constructor; [left; eauto|].
      eapply List.Forall_impl; [|eapply IH; eauto].
      intros a [Ha|[m [Ha Hin]]]; [by left|right]. exists m. split; [done|by right].
    + destruct (loop _ evs fin) as [[acts0 st0] exit0] eqn:E.
      inversion H; subst. constructor.
      { right. exists data. split; [done|by left]. }
      eapply List.Forall_impl; [|eapply IH; eauto].
      intros a [Ha|[m [Ha Hin]]]; [by left|right]. exists m. split; [done|by right].
Qed.

(** In a token-limited race the loop stops at the limit. *)
Lemma lane_loop_token_limit L st chunks rest fin :
  mode config = token_limit ->
  tokenLimit config = Some L ->
  (0 < L)%Z ->
  (lane_tokenCount st <= L)%Z ->
  (L - lane_tokenCount st < Z.of_nat (length chunks))%Z ->
  loop st (List.map Chunk chunks ++ rest) fin
  = (List.map (RECEIVE_CHUNK resultId)
              (firstn (Z.to_nat (L - lane_tokenCount st)) chunks),
     mkLane (sawMetrics st) L (lane_clock st), Broke).
Proof.
  intros Hmode Hlim HL. revert st.
  induction chunks as [|c chunks IH]; intros st Hle Hlen.
  - simpl in Hlen. lia.
  - simpl. rewrite Hmode, Hlim. simpl.
    destruct (Z.eqb_spec L 0); [lia|]. simpl.
    destruct (Z.leb_spec L (lane_tokenCount st)).
    + assert (lane_tokenCount st = L) as Heq by lia.
      rewrite Heq, Z.sub_diag. simpl. destruct st; simpl in *. by subst.
    + simpl.
      rewrite IH; simpl; [|lia|simpl in Hlen; lia].
      replace (Z.to_nat (L - lane_tokenCount st))
        with (S (Z.to_nat (L - (lane_tokenCount st + 1)))) by lia.
      done.
Qed.

End LaneFacts.

(** C5.  In token_limit mode with limit L > 0, a lane whose stream begins
    with more than L chunks takes exactly the first L of them, stops, and
    gets synthesized metrics whose tokenCount and outputTokens are both L. *)
Theorem token_limit_truncates (config : RaceConfig) (start : Z)
  (clock_now : nat -> Z) (resultId : jstring) (s : Stream) (L : Z)
  (chunks : list jstring) (rest : list CompletionResult) :
  mode config = token_limit ->
  tokenLimit config = Some L ->
  (0 < L)%Z ->
  events s = List.map Chunk chunks ++ rest ->
  (L < Z.of_nat (length chunks))%Z ->
  exists m,
    consume config start clock_now resultId s
    = List.map (RECEIVE_CHUNK resultId) (firstn (Z.to_nat L) chunks)
      ++ [FINISH_STREAM resultId m]
    /\ tokenCount m = L /\ outputTokens m = Some L.
Proof.
  intros Hmode Hlim HL Hev Hlen. unfold consume. rewrite Hev.
  rewrite (lane_loop_token_limit config start clock_now resultId L);
    simpl; try done; try lia.
  rewrite Z.sub_0_r. unfold after_loop. simpl. rewrite Hmode.
  eexists. split; [reflexivity|]. by simpl.
Qed.

Lemma token_limit_truncates_witness :
  exists m,
    consume (Sample.config token_limit 2) 1000%Z (fun k => (1050 + Z.of_nat k)%Z)
            (Js.lit "zhipu-glm-4") Sample.three_chunks
    = List.map (RECEIVE_CHUNK (Js.lit "zhipu-glm-4"))
               (firstn (Z.to_nat 2) [Js.lit "a"; Js.lit "b"; Js.lit "c"])
      ++ [FINISH_STREAM (Js.lit "zhipu-glm-4") m]
    /\ tokenCount m = 2%Z /\ outputTokens m = Some 2%Z.
Proof.
  apply (token_limit_truncates (Sample.config token_limit 2) 1000%Z _ _
           Sample.three_chunks 2%Z [Js.lit "a"; Js.lit "b"; Js.lit "c"]
           [Metrics Sample.metrics0]);
    [reflexivity | reflexivity | lia | reflexivity | simpl; lia].
Defined.

(** C6, as the code has it.  When the loop of a lane is left by [break]
    before any metrics event was seen, the lane dispatches, after its chunks,
    one FINISH_STREAM with synthesized metrics: startTime is the race start,
    firstTokenTime is the race start plus 100 in every case, whatever the
    stream carried and whenever its first chunk came (the lane keeps no
    first-token time stamp), finishTime is the clock read on leaving the
    loop, and tokenCount and outputTokens are the number of chunks the lane
    took. *)
Theorem cut_short_synthesizes (config : RaceConfig) (start : Z)
  (clock_now : nat -> Z) (resultId : jstring) (s : Stream)
  (acts : list AppAction) (st : LaneLocals) :
  lane_loop config start clock_now resultId (mkLane false 0%Z 0)
            (events s) (finished s) = (acts, st, Broke) ->
  sawMetrics st = false ->
  exists chunks,
    acts = List.map (RECEIVE_CHUNK resultId) chunks
    /\ lane_tokenCount st = Z.of_nat (length chunks)
    /\ consume config start clock_now resultId s
       = acts ++ [FINISH_STREAM resultId
                    (mkMetrics start (Some (start + 100)%Z)
                               (Some (clock_now (lane_clock st)))
                               (Z.of_nat (length chunks)) None
                               (Some (Z.of_nat (length chunks))))].
Proof.
  intros Hloop Hsaw.
  destruct (lane_loop_chunks_only _ _ _ _ _ _ _ _ _ _ Hloop Hsaw)
    as [_ [chunks [Hacts Hcount]]].
  simpl in Hcount.
  exists chunks. split; [done|]. split; [done|].
  unfold consume. rewrite Hloop. unfold after_loop. rewrite Hsaw.
  unfold synthetic_metrics. rewrite Hcount.
  by destruct (lane_loop_broke _ _ _ _ _ _ _ _ _ Hloop) as [-> | ->].
Qed.

Lemma cut_short_synthesizes_witness :
  exists chunks,
    List.map (RECEIVE_CHUNK (Js.lit "zhipu-glm-4")) [Js.lit "a"; Js.lit "b"]
    = List.map (RECEIVE_CHUNK (Js.lit "zhipu-glm-4")) chunks
    /\ 2%Z = Z.of_nat (length chunks)
    /\ consume (Sample.config token_limit 2) 1000%Z
               (fun k => (1050 + Z.of_nat k)%Z)
               (Js.lit "zhipu-glm-4") Sample.three_chunks
       = List.map (RECEIVE_CHUNK (Js.lit "zhipu-glm-4")) [Js.lit "a"; Js.lit "b"]
         ++ [FINISH_STREAM (Js.lit "zhipu-glm-4")
               (mkMetrics 1000%Z (Some (1000 + 100)%Z) (Some 1050%Z)
                          (Z.of_nat (length chunks)) None
                          (Some (Z.of_nat (length chunks))))].
Proof.
  apply (cut_short_synthesizes (Sample.config token_limit 2) 1000%Z
           (fun k => (1050 + Z.of_nat k)%Z) (Js.lit "zhipu-glm-4")
           Sample.three_chunks
           (List.map (RECEIVE_CHUNK (Js.lit "zhipu-glm-4")) [Js.lit "a"; Js.lit "b"])
           (mkLane false 2%Z 0));
    reflexivity.
Defined.

(** C6, the claim as stated fails: the approximation is not kept for the
    case that no first-token time stamp was captured.  The adapter below
    captured one, 1020, when it yielded its first chunk, and would have
    reported it in its metrics; the lane took that chunk, was cut at the
    token limit, and recorded 1100 all the same. *)
Lemma synthesized_first_token_ignores_capture :
  events Sample2.captured
  = [ Chunk (Js.lit "Hi"); Chunk (Js.lit "Hi");
      Metrics (mkMetrics 1010%Z (Some 1020%Z) (Some 1030%Z) 4%Z (Some 2%Z)
                         (Some 4%Z)) ]
  /\ consume (Sample.config token_limit 1) 1000%Z
             (fun k => (1050 + Z.of_nat k)%Z)
             (resultId_of Sample.cerebras_a) Sample2.captured
     = [ RECEIVE_CHUNK (resultId_of Sample.cerebras_a) (Js.lit "Hi");
         FINISH_STREAM (resultId_of Sample.cerebras_a)
           (mkMetrics 1000%Z (Some 1100%Z) (Some 1050%Z) 1%Z None (Some 1%Z)) ]
  /\ Some 1100%Z <> firstTokenTime_spec 1000%Z (Some 1020%Z).
Proof.
  split; [by vm_compute|]. split; [by vm_compute|]. discriminate.
Qed.

(** ** The adapters' [generate] *)

Section AdapterFacts.
Variable env : Env.
Variable content_of : jsval -> result jsval.

Lemma for_await_spec st chunks evs r :
  for_await env content_of st chunks = (evs, r) ->
  (exists cs, evs = List.map Chunk cs)
  /\ (stamped env st -> forall st', r = Ok st' -> stamped env st').
Proof.
  revert st evs r. induction chunks as [|chunk rest IH]; intros st evs r H.
  - simpl in H. inversion H; subst. split; [by exists []|].
    intros Hst st' [= <-]. done.
  - simpl in H. destruct (content_of chunk) as [content|m].
    2:{ inversion H; subst. split; [by exists []|]. intros _ st' [=]. }
    destruct (JsVal.truthy content).
    2:{ by apply IH. }
    match type of H with
    | (let '(_, _) := for_await _ _ ?st2 _ in _) = _ =>
        destruct (for_await env content_of st2 rest) as [evs0 r0] eqn:E
    end.
    inversion H; subst. destruct (IH _ _ _ E) as [[cs ->] Hst].
    split; [by eexists (_ :: cs)|].
    intros [Hclock Hfirst] st' ->. apply Hst; [|done].
    destruct (unset (l_firstTokenTime st)) eqn:Eu; unfold stamped; simpl.
    + split; [lia|]. intros t [= <-]. exists (clock st). split; [lia|done].
    + split; [done|]. intros t Ht. by apply Hfirst.
Qed.

Lemma stream_events_spec prompt decoded evs c :
  stream_events env content_of prompt (now env 0) decoded = (evs, c) ->
  exists cs,
    (evs = List.map Chunk cs /\ exists msg, c = Threw msg)
    \/ (exists m, evs = List.map Chunk cs ++ [Metrics m] /\ c = Returned
                  /\ (monotone (now env) -> timestamps_ordered m)).
Proof.
  unfold stream_events.
  destruct (for_await env content_of _ (fst decoded)) as [evs0 r] eqn:E.
  destruct (for_await_spec _ _ _ _ E) as [[cs ->] Hst].
  destruct r as [st|m].
  2:{ intros [= <- <-]. exists cs. left. eauto. }
  destruct (snd decoded) as [|m].
  2:{ intros [= <- <-]. exists cs. left. eauto. }
  intros [= <- <-]. exists cs. right. eexists. split; [done|]. split; [done|].
  intros Hmono first finish. simpl. intros Hfirst [= <-].
  assert (Hinit : stamped env (mkLocals 1 None 0%Z [])).
  { split; simpl; [lia|]. intros t Ht. discriminate. }
  destruct (Hst Hinit st eq_refl) as [Hclock Hk].
  destruct (Hk _ Hfirst) as [k [Hlt ->]].
  split; apply Hmono; lia.
Qed.

Lemma stream_events_threw prompt start ys msg :
  exists msg',
    snd (stream_events env content_of prompt start (ys, Threw msg)) = Threw msg'.
Proof.
  unfold stream_events.
  destruct (for_await env content_of _ _) as [evs0 [st|m]]; simpl; eauto.
Qed.

End AdapterFacts.

Lemma metrics_last_no_metrics (s : Stream) :
  metrics_last s ->
  (forall msg, finished s = Threw msg ->
               forall m, ~ In (Metrics m) (events s))
  /\ (length (List.filter is_metrics (events s)) <= 1)%nat
  /\ (forall pre m post, events s = pre ++ Metrics m :: post -> post = []).
Proof.
  assert (Hnone : forall cs m, ~ In (Metrics m) (List.map Chunk cs)).
  { intros cs m Hin. apply List.in_map_iff in Hin. by destruct Hin as [c [? _]]. }
  assert (Hfilt : forall cs, List.filter is_metrics (List.map Chunk cs) = []).
  { induction cs; simpl; auto. }
  intros [cs [[Hev [msg Hfin]] | [m [Hev Hfin]]]]; rewrite Hev.
  - split; [intros; apply Hnone|]. split; [rewrite Hfilt; simpl; lia|].
    intros pre m post Heq. exfalso. apply (Hnone cs m). rewrite Heq.
    apply List.in_or_app. right. by left.
  - split; [intros msg Hthrew; congruence|].
    split; [rewrite List.filter_app, Hfilt; simpl; lia|].
    intros pre m' post Heq. destruct post as [|e post]; [done|exfalso].
    assert (Hlast : pre ++ Metrics m' :: e :: post
                    = (pre ++ Metrics m' :: removelast (e :: post))
                      ++ [List.last (e :: post) e]).
    { rewrite <- List.app_assoc. simpl. f_equal. f_equal.
      apply (@List.app_removelast_last _ (e :: post) e). done. }
    rewrite Hlast in Heq. apply List.app_inj_tail in Heq as [Heq _].
    apply (Hnone cs m'). rewrite Heq. apply List.in_or_app. right. by left.
Qed.

(** The three [generate] have the same shape; one script proves the outcome
    of each. *)
Ltac outcome_cases :=
  unfold generate_outcome; simpl;
  match goal with
  | |- context [fetch ?env ?req] =>
      let response := fresh "response" in
      let m := fresh "m" in
      destruct (fetch env req) as [response | m];
      [ let Eok := fresh "Eok" in
        destruct (resp_ok response) eqn:Eok; simpl;
        [ let Eev := fresh "Eev" in
          destruct (stream_events _ _ _ _ _) eqn:Eev; simpl;
          (split; [done|]); (split; [intros ? [=]|]);
          (split; [intros ? [= <-]; congruence|]);
          intros ? [= <-] _; by rewrite Eev
        | destruct (resp_text response); simpl;
          (split; [done|]); (split; [intros ? [=]|]);
          (split; [intros ? [= <-] _; eauto|]);
          intros ? [= <-]; congruence ]
      | (split; [done|]); (split; [by intros ? [= <-]|]);
        (split; [intros ? [=]|]); intros ? [=] ]
  end.

Lemma cerebras_outcome env prompt model apiKey signal settings :
  generate_outcome env prompt
    (Cerebras.request prompt model apiKey signal settings)
    Cerebras.content_of (Cerebras.streamSSE env)
    (Cerebras.generate env prompt model apiKey signal settings).
Proof. unfold Cerebras.generate. outcome_cases. Qed.

Lemma zhipu_outcome env prompt model apiKey signal settings :
  generate_outcome env prompt
    (Zhipu.request prompt model apiKey signal settings)
    Zhipu.content_of (Zhipu.streamOpenAIResponse env)
    (Zhipu.generate env prompt model apiKey signal settings).
Proof. unfold Zhipu.generate. outcome_cases. Qed.

Lemma moonshot_outcome env prompt model apiKey signal settings :
  generate_outcome env prompt
    (Moonshot.request prompt model apiKey signal settings)
    Moonshot.content_of (Moonshot.streamOpenAIResponse env)
    (Moonshot.generate env prompt model apiKey signal settings).
Proof. unfold Moonshot.generate. outcome_cases. Qed.

Lemma adapters_outcome service env prompt model apiKey signal settings :
  In service adapters ->
  exists req content_of decode,
    generate_outcome env prompt req content_of decode
      (service_generate service env prompt model apiKey signal settings)
    /\ req_signal req = signal.
Proof.
  intros [<- | [<- | [<- | []]]]; do 3 eexists; (split; [|shelve]).
  - apply cerebras_outcome.
  - apply zhipu_outcome.
  - apply moonshot_outcome.
  Unshelve. all: reflexivity.
Qed.

Lemma outcome_shape env prompt req content_of decode (s : Stream) :
  generate_outcome env prompt req content_of decode s ->
  metrics_last s
  /\ (monotone (now env) ->
      forall m, In (Metrics m) (events s) -> timestamps_ordered m).
Proof.
  intros [_ [Hrej [Hbad Hok]]].
  assert (Hnone : forall cs m, ~ In (Metrics m) (List.map Chunk cs)).
  { intros cs m Hin. apply List.in_map_iff in Hin. by destruct Hin as [c [? _]]. }
  destruct (fetch env req) as [response | msg] eqn:Efetch.
  2:{ destruct (Hrej msg eq_refl) as [Hev Hfin].
      split; [exists []; left; rewrite Hev; eauto|].
      intros _ m. by rewrite Hev. }
  destruct (resp_ok response) eqn:Eok.
  2:{ destruct (Hbad response eq_refl Eok) as [Hev Hfin].
      split; [exists []; left; rewrite Hev; eauto|].
      intros _ m. by rewrite Hev. }
  pose proof (Hok response eq_refl Eok) as Hse. symmetry in Hse.
  destruct (stream_events_spec _ _ _ _ _ _ Hse)
    as [cs [[Hev Hfin] | [m [Hev [Hfin Hord]]]]].
  - split; [exists cs; by left|].
    intros _ m Hin. rewrite Hev in Hin. by apply Hnone in Hin.
  - split; [exists cs; right; eauto|].
    intros Hmono m' Hin. rewrite Hev in Hin.
    apply List.in_app_or in Hin as [Hin | [Heq | []]].
    + by apply Hnone in Hin.
    + inversion Heq; subst. by apply Hord.
Qed.

Lemma outcome_read_rejected env prompt req content_of decode (s : Stream)
  response ys msg :
  generate_outcome env prompt req content_of decode s ->
  fetch env req = Ok response -> resp_ok response = true ->
  decode response = (ys, Threw msg) ->
  exists msg', finished s = Threw msg'.
Proof.
  intros [_ [_ [_ Hok]]] Hfetch Hrok Hdec.
  pose proof (Hok response Hfetch Hrok) as H. rewrite Hdec in H.
  destruct (stream_events_threw env content_of prompt (now env 0) ys msg)
    as [msg' Hthrew].
  rewrite <- H in Hthrew. simpl in Hthrew. eauto.
Qed.

(** C3.  Every adapter's [generate] yields chunks only, followed by one
    metrics event at the very end exactly when the generator returns: there
    is at most one metrics event, nothing follows it, and a run that ends by
    throwing (the request rejected, or a read of the body rejected, as an
    abort does) has yielded no metrics event. *)
Theorem generate_metrics_last (service : ProviderService) (env : Env)
  (prompt model apiKey : jstring) (signal : option AbortSignal)
  (settings : option ModelSettings) :
  In service adapters ->
  let s := service_generate service env prompt model apiKey signal settings in
  metrics_last s
  /\ (length (List.filter is_metrics (events s)) <= 1)%nat
  /\ (forall pre m post, events s = pre ++ Metrics m :: post -> post = [])
  /\ (forall msg m, finished s = Threw msg -> ~ In (Metrics m) (events s))
  /\ (forall req msg,
        In req (sent s) -> fetch env req = Throw msg ->
        events s = [] /\ finished s = Threw msg)
  /\ (forall req response ys msg,
        In req (sent s) -> fetch env req = Ok response ->
        resp_ok response = true ->
        (service = cerebrasService
         /\ Cerebras.streamSSE env response = (ys, Threw msg))
        \/ (service = zhipuService
            /\ Zhipu.streamOpenAIResponse env response = (ys, Threw msg))
        \/ (service = moonshotService
            /\ Moonshot.streamOpenAIResponse env response = (ys, Threw msg)) ->
        exists msg', finished s = Threw msg').
Proof.
  intros Hin s.
  destruct (adapters_outcome service env prompt model apiKey signal settings Hin)
    as [req0 [content_of [decode [Hout _]]]].
  fold s in Hout.
  destruct (outcome_shape _ _ _ _ _ _ Hout) as [Hlast _].
  destruct (metrics_last_no_metrics s Hlast) as [H1 [H2 H3]].
  split; [done|]. split; [done|]. split; [done|].
  split; [intros msg m Hf; by eapply H1|].
  split.
  - intros req msg Hreq Hfetch. destruct Hout as [Hsent [Hrej _]].
    rewrite Hsent in Hreq. destruct Hreq as [<- | []]. by apply Hrej.
  - intros req response ys msg Hreq Hfetch Hok Hdec.
    assert (Hid : forall a b : ProviderService,
               a = b -> service_id a = service_id b) by (by intros a b ->).
    destruct Hin as [<- | [<- | [<- | []]]].
    + pose proof (cerebras_outcome env prompt model apiKey signal settings) as Ho.
      destruct Hdec as [[_ Hd] | [[He _] | [He _]]];
        try (apply Hid in He; vm_compute in He; discriminate).
      assert (Hr : req = Cerebras.request prompt model apiKey signal settings).
      { destruct Ho as [Hsent _]. unfold s in Hreq. simpl in Hreq.
        rewrite Hsent in Hreq. by destruct Hreq as [<- | []]. }
      subst req. eapply outcome_read_rejected; eauto.
    + pose proof (zhipu_outcome env prompt model apiKey signal settings) as Ho.
      destruct Hdec as [[He _] | [[_ Hd] | [He _]]];
        try (apply Hid in He; vm_compute in He; discriminate).
      assert (Hr : req = Zhipu.request prompt model apiKey signal settings).
      { destruct Ho as [Hsent _]. unfold s in Hreq. simpl in Hreq.
        rewrite Hsent in Hreq. by destruct Hreq as [<- | []]. }
      subst req. eapply outcome_read_rejected; eauto.
    + pose proof (moonshot_outcome env prompt model apiKey signal settings) as Ho.
      destruct Hdec as [[He _] | [[He _] | [_ Hd]]];
        try (apply Hid in He; vm_compute in He; discriminate).
      assert (Hr : req = Moonshot.request prompt model apiKey signal settings).
      { destruct Ho as [Hsent _]. unfold s in Hreq. simpl in Hreq.
        rewrite Hsent in Hreq. by destruct Hreq as [<- | []]. }
      subst req. eapply outcome_read_rejected; eauto.
Qed.

Lemma generate_metrics_last_witness :
  metrics_last (Cerebras.generate Sample.online (Js.lit "hi")
                                  (Js.lit "llama3.1-8b") (Js.lit "sk-1")
                                  None None)
  /\ (length (List.filter is_metrics
                 (events (Cerebras.generate Sample.online (Js.lit "hi")
                            (Js.lit "llama3.1-8b") (Js.lit "sk-1")
                            None None))) <= 1)%nat.
Proof.
  destruct (generate_metrics_last cerebrasService Sample.online (Js.lit "hi")
              (Js.lit "llama3.1-8b") (Js.lit "sk-1") None None)
    as [H1 [H2 _]].
  - left. reflexivity.
  - split; [exact H1 | exact H2].
Defined.

(** ** Timestamps of recorded metrics *)

Lemma consume_finish_stream config start clock_now rid s rid' m :
  In (FINISH_STREAM rid' m) (consume config start clock_now rid s) ->
  In (Metrics m) (events s)
  \/ exists st, m = synthetic_metrics start clock_now st.
Proof.
  unfold consume.
  destruct (lane_loop _ _ _ _ _ _ _) as [[acts st] exit] eqn:E.
  intros Hin. apply List.in_app_or in Hin as [Hin | Hin].
  - left. pose proof (lane_loop_actions _ _ _ _ _ _ _ _ _ _ E) as Hall.
    rewrite List.Forall_forall in Hall.
    destruct (Hall _ Hin) as [[c Hc] | [m' [Hm' Hev]]]; [discriminate|].
    by inversion Hm'; subst.
  - right. unfold after_loop in Hin.
    destruct exit; try (destruct Hin as [Hin | []]; discriminate);
      destruct (sawMetrics st); try done;
      destruct (mode config);
      destruct Hin as [Hin | []]; try discriminate;
      inversion Hin; subst; by exists st.
Qed.

(** C2, as the code has it.  Metrics yielded by an adapter's [generate]
    satisfy startTime ≤ firstTokenTime ≤ finishTime whenever the clock does not
    run backwards.  Metrics recorded on a lane are either those of the
    stream or the synthesized ones; the synthesized ones have firstTokenTime
    fixed at the race start plus 100, so startTime ≤ firstTokenTime always
    holds for them, while firstTokenTime ≤ finishTime holds exactly when the
    lane left its loop at least 100 ms after the race start. *)
Theorem metrics_timestamps :
  (forall service env prompt model apiKey signal settings m,
      In service adapters ->
      monotone (now env) ->
      In (Metrics m)
         (events (service_generate service env prompt model apiKey signal settings)) ->
      timestamps_ordered m)
  /\ (forall config start clock_now rid s rid' m,
        In (FINISH_STREAM rid' m) (consume config start clock_now rid s) ->
        In (Metrics m) (events s)
        \/ exists st, m = synthetic_metrics start clock_now st)
  /\ (forall start clock_now st,
        let m := synthetic_metrics start clock_now st in
        startTime m = start
        /\ firstTokenTime m = Some (start + 100)%Z
        /\ finishTime m = Some (clock_now (lane_clock st))
        /\ (startTime m <= start + 100)%Z
        /\ (timestamps_ordered m
            <-> (start + 100 <= clock_now (lane_clock st))%Z)).
Proof.
  split; [|split].
  - intros service env prompt model apiKey signal settings m Hin Hmono Hm.
    destruct (adapters_outcome service env prompt model apiKey signal settings Hin)
      as [req [content_of [decode [Hout _]]]].
    by apply (proj2 (outcome_shape _ _ _ _ _ _ Hout) Hmono).
  - intros. eapply consume_finish_stream; eauto.
  - intros start clock_now st m. unfold m, synthetic_metrics. simpl.
    split; [done|]. split; [done|]. split; [done|]. split; [lia|].
    unfold timestamps_ordered. simpl. split.
    + intros H. destruct (H _ _ eq_refl eq_refl). lia.
    + intros H first finish [= <-] [= <-]. lia.
Qed.

Lemma metrics_timestamps_witness :
  timestamps_ordered
    (mkMetrics 0%Z (Some 1%Z) (Some 2%Z) 4%Z (Some 2%Z) (Some 4%Z)).
Proof.
  apply (proj1 metrics_timestamps cerebrasService Sample.online
               (Js.lit "hi") (Js.lit "m") (Js.lit "k") None None).
  - left. reflexivity.
  - intros i j Hij. simpl. lia.
  - vm_compute. right. right. left. reflexivity.
Defined.

(** C2, the claim as stated fails: a token-limited lane that reaches its
    limit 50 ms after the race start gets synthesized metrics with
    firstTokenTime 1100 and finishTime 1050, although the lane's clock is
    monotone and never earlier than the race start. *)
Lemma synthetic_metrics_unordered :
  monotone (lane_now (Sample.race_env []) Sample.zhipu_a)
  /\ (forall k, (raceStartTime (Sample.race_env [])
                 <= lane_now (Sample.race_env []) Sample.zhipu_a k)%Z)
  /\ exists r m,
       find_result (resultId_of Sample.zhipu_a)
                   (after_race (Sample.state token_limit 2) (Sample.race_env []))
       = Some r
       /\ metrics r = Some m
       /\ startTime m = 1000%Z
       /\ firstTokenTime m = Some 1100%Z
       /\ finishTime m = Some 1050%Z
       /\ ~ timestamps_ordered m.
Proof.
  split; [intros i j Hij; simpl; lia|].
  split; [intros k; simpl; lia|].
  eexists. eexists. split; [vm_compute; reflexivity|].
  split; [reflexivity|]. split; [reflexivity|].
  split; [reflexivity|]. split; [reflexivity|].
  intros H. destruct (H 1100%Z 1050%Z eq_refl eq_refl). lia.
Qed.

(** ** Lanes running side by side *)

Section Interleaving.
Context {A S : Type}.
Variable f : S -> A -> S.
Variable mine : A -> Prop.
Variable Inv : S -> Prop.
Hypothesis skip : forall s a, Inv s -> ~ mine a -> f s a = s.
Hypothesis keep : forall s a, Inv s -> Inv (f s a).

Lemma fold_keep l s : Inv s -> Inv (List.fold_left f l s).
Proof using keep.
  revert s. induction l as [|a l IH]; simpl; intros s Hs; auto.
Qed.

Lemma fold_skip l s :
  Inv s -> Forall (fun a => ~ mine a) l -> List.fold_left f l s = s.
Proof using skip.
  intros Hs Hl. induction Hl as [|a l Ha Hl IH]; simpl; [done|].
  by rewrite skip.
Qed.

Lemma fold_skip_all qs s :
  Inv s -> Forall (Forall (fun a => ~ mine a)) qs ->
  List.fold_left f (List.concat qs) s = s.
Proof using skip.
  intros Hs Hqs. induction Hqs as [|q qs Hq Hqs IH]; simpl; [done|].
  rewrite List.fold_left_app. rewrite (fold_skip q s Hs Hq). exact IH.
Qed.

Lemma sole_concat qs q s :
  sole mine qs q -> Inv s ->
  List.fold_left f (List.concat qs) s = List.fold_left f q s.
Proof using skip keep.
  intros Hsole. revert s.
  induction Hsole as [q qs Hqs | q0 qs q Hq0 Hsole IH]; intros s Hs; simpl;
    rewrite List.fold_left_app.
  - apply fold_skip_all; [by apply fold_keep | done].
  - rewrite (fold_skip q0 s Hs Hq0). by apply IH.
Qed.

Lemma take_from_others i (qs : list (list A)) a qs' (P : A -> Prop) :
  Forall (Forall P) qs -> take_from i qs = Some (a, qs') ->
  P a /\ Forall (Forall P) qs'.
Proof.
  intros Hqs. revert i qs' a.
  induction Hqs as [|q qs Hq Hqs IH]; intros i qs' a H; [done|].
  destruct i as [|i]; simpl in H.
  - destruct q as [|b q]; [done|]. inversion H; subst.
    inversion Hq; subst. split; [done|]. by constructor.
  - destruct (take_from i qs) as [[b qs0]|] eqn:E; [|done].
    inversion H; subst. destruct (IH _ _ _ E) as [Hb Hqs0].
    split; [done|]. by constructor.
Qed.

Lemma sole_take i qs q a qs' :
  sole mine qs q -> take_from i qs = Some (a, qs') ->
  (exists q', q = a :: q' /\ sole mine qs' q') \/ (~ mine a /\ sole mine qs' q).
Proof.
  intros Hsole. revert i qs' a.
  induction Hsole as [q qs Hqs | q0 qs q Hq0 Hsole IH]; intros i qs' a H.
  - destruct i as [|i]; simpl in H.
    + destruct q as [|b q]; [done|]. inversion H; subst.
      left. exists q. split; [done|]. by constructor.
    + destruct (take_from i qs) as [[b qs0]|] eqn:E; [|done].
      inversion H; subst.
      destruct (take_from_others _ _ _ _ _ Hqs E) as [Hb Hqs0].
      right. split; [done|]. by constructor.
  - destruct i as [|i]; simpl in H.
    + destruct q0 as [|b q0]; [done|]. inversion H; subst.
      inversion Hq0; subst. right. split; [done|]. by constructor.
    + destruct (take_from i qs) as [[b qs0]|] eqn:E; [|done].
      inversion H; subst.
      destruct (IH _ _ _ E) as [[q' [-> Hs]] | [Hb Hs]].
      * left. exists q'. split; [done|]. by constructor.
      * right. split; [done|]. by constructor.
Qed.

(** Whatever the schedule, a lane sees its own actions in their order and
    nothing else. *)
Lemma sole_interleave sched qs q s :
  sole mine qs q -> Inv s ->
  List.fold_left f (interleave sched qs) s = List.fold_left f q s.
Proof using skip keep.
  revert qs q s. induction sched as [|i sched IH]; intros qs q s Hsole Hs.
  - simpl. by apply sole_concat.
  - simpl. destruct (take_from i qs) as [[a qs']|] eqn:E; [|by apply IH].
    destruct (sole_take _ _ _ _ _ Hsole E) as [[q' [-> Hs']] | [Ha Hs']]; simpl.
    + apply IH; auto.
    + rewrite skip by done. by apply IH.
Qed.

Lemma interleave_Forall (P : A -> Prop) sched (qs : list (list A)) :
  Forall (Forall P) qs -> Forall P (interleave sched qs).
Proof.
  revert qs. induction sched as [|i sched IH]; intros qs Hqs; simpl.
  - induction Hqs; simpl; [constructor|]. apply Forall_app. by split.
  - destruct (take_from i qs) as [[a qs']|] eqn:E; [|by apply IH].
    destruct (take_from_others _ _ _ _ _ Hqs E). constructor; auto.
Qed.

End Interleaving.

(** ** The race as a whole *)

Lemma reduce_result_id r a : id (reduce_result r a) = id r.
Proof.
  destruct a; simpl; try done; by destruct (Js.eqb (id r) _).
Qed.

Lemma fold_reduce_id acts r : id (List.fold_left reduce_result acts r) = id r.
Proof.
  revert r. induction acts as [|a acts IH]; intros r; simpl; [done|].
  by rewrite IH, reduce_result_id.
Qed.

Lemma reduce_result_skip rid r a :
  id r = rid -> target a <> Some rid -> reduce_result r a = r.
Proof.
  intros Hid Ht.
  destruct a; simpl in *; try done;
    (destruct (Js.eqb (id r) resultId) eqn:E; [|done]);
    apply eqb_true in E; congruence.
Qed.

Lemma appReducer_results state a :
  is_Some (target a) ->
  appReducer state a
  = with_results state (List.map (fun r => reduce_result r a) (results state)).
Proof.
  intros [rid Ht]. destruct a; try discriminate; reflexivity.
Qed.

Lemma dispatch_lane_actions acts state :
  Forall (fun a => is_Some (target a)) acts ->
  dispatch_all state acts
  = with_results state
      (List.map (fun r => List.fold_left reduce_result acts r) (results state)).
Proof.
  unfold dispatch_all. intros Hacts. revert state.
  induction Hacts as [|a acts Ha Hacts IH]; intros state; simpl.
  - by rewrite List.map_id, with_results_same.
  - rewrite IH, appReducer_results by done. simpl.
    rewrite List.map_map. by destruct state.
Qed.

Lemma countdown_results reduce state :
  results (dispatch_all state (countdown reduce)) = results state.
Proof. by destruct reduce. Qed.

Lemma lane_targets state env p :
  Forall (fun a => target a = Some (resultId_of p)) (fst (lane state env p)).
Proof.
  unfold lane.
  assert (Hkey : Forall (fun a => target a = Some (resultId_of p))
                        [SET_ERROR (resultId_of p) (Js.lit "API Key not set")]).
  { by repeat constructor. }
  destruct (apiKey_of state p) as [apiKey|]; [|done].
  destruct (Js.truthy apiKey); [|done]. simpl.
  unfold consume.
  destruct (lane_loop _ _ _ _ _ _ _) as [[acts st] exit] eqn:E.
  apply Forall_app. split.
  - pose proof (lane_loop_actions _ _ _ _ _ _ _ _ _ _ E) as H.
    eapply List.Forall_impl; [|exact H].
    intros a [[c ->] | [m [-> _]]]; done.
  - unfold after_loop.
    destruct exit; [| |by repeat constructor];
      (destruct (sawMetrics st); [constructor|]);
      destruct (mode (raceConfig state)); by repeat constructor.
Qed.

Lemma resultId_of_staged p : id (staged p) = resultId_of p.
Proof. done. Qed.

(** Among lanes with distinct ids, only the lane of [p] holds actions
    naming the result of [p]. *)
Lemma sole_lane state env p ps :
  In p ps -> NoDup (List.map resultId_of ps) ->
  sole (fun a => target a = Some (resultId_of p))
       (List.map fst (List.map (lane state env) ps))
       (fst (lane state env p)).
Proof.
  intros Hin Hnd.
  assert (Hother : forall q, resultId_of q <> resultId_of p ->
            Forall (fun a => target a <> Some (resultId_of p))
                   (fst (lane state env q))).
  { intros q Hq. eapply List.Forall_impl; [|apply lane_targets].
    simpl. intros a Ha. congruence. }
  induction ps as [|q ps IH]; [done|].
  simpl in Hnd. apply NoDup_cons in Hnd as [Hq Hnd].
  destruct Hin as [-> | Hin]; simpl.
  - apply sole_here. apply Forall_forall. intros l Hl.
    apply list_elem_of_In in Hl.
    apply List.in_map_iff in Hl as [x [<- Hx]].
    apply List.in_map_iff in Hx as [q [<- Hqin]].
    apply Hother. intros Heq. apply Hq. rewrite <- Heq.
    apply list_elem_of_In. by apply List.in_map.
  - apply sole_later; [|by apply IH].
    apply Hother. intros Heq. apply Hq. rewrite Heq.
    apply list_elem_of_In. by apply List.in_map.
Qed.

Lemma find_staged (g : ResultState -> ResultState) p ps :
  (forall r, id (g r) = id r) ->
  In p ps -> NoDup (List.map resultId_of ps) ->
  List.find (fun r => Js.eqb (id r) (resultId_of p))
            (List.map g (List.map staged ps))
  = Some (g (staged p)).
Proof.
  intros Hg Hin Hnd. induction ps as [|q ps IH]; [done|].
  simpl in Hnd. apply NoDup_cons in Hnd as [Hq Hnd]. simpl.
  rewrite Hg. simpl.
  destruct (Js.eqb (resultId_of q) (resultId_of p)) eqn:E.
  - apply eqb_true in E. destruct Hin as [-> | Hin]; [done|].
    exfalso. apply Hq. rewrite E. apply list_elem_of_In. by apply List.in_map.
  - destruct Hin as [-> | Hin]; [by rewrite eqb_refl in E|]. by apply IH.
Qed.

Lemma dispatch_all_app state l1 l2 :
  dispatch_all state (l1 ++ l2) = dispatch_all (dispatch_all state l1) l2.
Proof. unfold dispatch_all. apply List.fold_left_app. Qed.

Lemma dispatch_all_cons state a l :
  dispatch_all state (a :: l) = dispatch_all (appReducer state a) l.
Proof. done. Qed.

Lemma lanes_target state env ps :
  Forall (Forall (fun a => is_Some (target a)))
         (List.map fst (List.map (lane state env) ps)).
Proof.
  induction ps as [|q ps IH]; simpl; constructor; [|done].
  eapply List.Forall_impl; [|apply lane_targets].
  simpl. intros a ->. by eexists.
Qed.

(** The results held by the state when the race is over. *)
Lemma after_race_results state env :
  selected state <> [] ->
  results (after_race state env)
  = List.map
      (fun r =>
         List.fold_left reduce_result
           (interleave (schedule env)
                       (List.map fst (List.map (lane state env) (selected state))))
           r)
      (List.map staged (selected state)).
Proof.
  intros Hsel. unfold after_race, handleRunComparison.
  destruct (selected state) as [|p0 ps] eqn:Esel; [done|].
  set (sel := p0 :: ps) in *. simpl fst.
  rewrite dispatch_all_cons, !dispatch_all_app.
  set (st1 := dispatch_all (appReducer state (START_COMPARISON sel))
                           (countdown (reduceMotion env))).
  assert (H1 : results st1 = List.map staged sel).
  { unfold st1. by rewrite countdown_results. }
  rewrite (dispatch_lane_actions (interleave _ _)).
  - simpl. by rewrite H1.
  - apply interleave_Forall. apply (lanes_target state env (p0 :: ps)).
Qed.

(** Each lane ends with what its own actions make of its staged result,
    whatever the other lanes do and however the lanes are scheduled. *)
Lemma lane_result_own state env p :
  In p (selected state) ->
  NoDup (List.map resultId_of (selected state)) ->
  find_result (resultId_of p) (after_race state env)
  = Some (List.fold_left reduce_result (fst (lane state env p)) (staged p)).
Proof.
  intros Hin Hnd. unfold find_result.
  rewrite after_race_results by (intros H; by rewrite H in Hin).
  rewrite find_staged; [|intros r; apply fold_reduce_id|done|done].
  f_equal.
  apply (sole_interleave reduce_result
           (fun a => target a = Some (resultId_of p))
           (fun r => id r = resultId_of p)).
  - intros s a Hs Ha. by apply (reduce_result_skip (resultId_of p)).
  - intros s a Hs. by rewrite reduce_result_id.
  - by apply sole_lane.
  - done.
Qed.

Lemma selected_spec state p :
  In p (selected state)
  <-> In p (selectedPairs state)
      /\ enabledProviders state !! providerId p <> Some false.
Proof.
  unfold selected. rewrite List.filter_In. unfold enabled.
  destruct (enabledProviders state !! providerId p) as [[|]|];
    split; intros [H1 H2]; split; done.
Qed.

Lemma keyless_lane state env p :
  option_truthy (apiKey_of state p) = false ->
  lane state env p = ([SET_ERROR (resultId_of p) (Js.lit "API Key not set")], []).
Proof.
  unfold lane, option_truthy.
  destruct (apiKey_of state p) as [k|]; [|done]. by intros ->.
Qed.

(** What a lane without a key leaves of its staged result. *)
Lemma keyless_result state env p :
  In p (selected state) ->
  NoDup (List.map resultId_of (selected state)) ->
  option_truthy (apiKey_of state p) = false ->
  find_result (resultId_of p) (after_race state env)
  = Some (mkResult (resultId_of p) (providerId p) (modelId p) [] None false
                   (Some (Js.lit "API Key not set"))).
Proof.
  intros Hin Hnd Hkey.
  rewrite lane_result_own, (keyless_lane state env p Hkey) by done.
  simpl. by rewrite eqb_refl.
Qed.

(** The provider ids of the examples name no member of [Object.prototype]. *)
Ltac plain_id :=
  vm_compute;
  let H := fresh "H" in
  intros H; repeat (destruct H as [H | H]; [discriminate H|]); exact H.

(** C8, as the code has it.  A race starts one lane for every selected pair
    whose provider is not switched off, whether or not a key is stored for
    it, in selection order; a lane for whose provider [state.apiKeys] holds
    no key, or an empty one, makes no request and is set to the error
    "API Key not set"; when there is no selected pair whose provider is not
    switched off nothing is dispatched, no request is made and the state
    stays as it was. *)
Theorem lanes_created (state : AppState) (env : RaceEnv) :
  (forall p,
      In p (selected state)
      <-> In p (selectedPairs state)
          /\ enabledProviders state !! providerId p <> Some false)
  /\ (selected state <> [] ->
      (exists rest,
          fst (handleRunComparison state env)
          = START_COMPARISON (selected state) :: rest)
      /\ List.map id (results (after_race state env))
         = List.map resultId_of (selected state))
  /\ (forall p,
        In p (selected state) ->
        NoDup (List.map resultId_of (selected state)) ->
        own_key_lookup state p ->
        option_truthy (apiKey_of state p) = false ->
        lane state env p
        = ([SET_ERROR (resultId_of p) (Js.lit "API Key not set")], [])
        /\ find_result (resultId_of p) (after_race state env)
           = Some (mkResult (resultId_of p) (providerId p) (modelId p) [] None
                            false (Some (Js.lit "API Key not set"))))
  /\ (selected state = [] ->
      handleRunComparison state env = ([], [])
      /\ after_race state env = state).
Proof.
  split; [apply selected_spec|]. split; [|split].
  - intros Hsel. split.
    + unfold handleRunComparison.
      destruct (selected state) as [|p0 ps]; [done|]. simpl. eauto.
    + rewrite after_race_results by done.
      rewrite !List.map_map. apply List.map_ext.
      intros p. by rewrite fold_reduce_id.
  - intros p Hin Hnd _ Hkey. split.
    + by apply keyless_lane.
    + by apply keyless_result.
  - intros Hsel. unfold after_race, handleRunComparison. by rewrite Hsel.
Qed.

Lemma lanes_created_witness :
  List.map id (results (after_race (Sample.state drag 500) (Sample.race_env [])))
  = List.map resultId_of (selected (Sample.state drag 500))
  /\ find_result (resultId_of Sample.cerebras_a)
                 (after_race (Sample.state drag 500) (Sample.race_env []))
     = Some (mkResult (resultId_of Sample.cerebras_a)
                      (providerId Sample.cerebras_a) (modelId Sample.cerebras_a)
                      [] None false (Some (Js.lit "API Key not set"))).
Proof.
  destruct (lanes_created (Sample.state drag 500) (Sample.race_env []))
    as [_ [Hlanes [Hkeyless _]]].
  split.
  - apply Hlanes. vm_compute. discriminate.
  - apply (Hkeyless Sample.cerebras_a).
    + left. reflexivity.
    + apply (bool_decide_unpack _ (dec := NoDup_dec _)). vm_compute. exact I.
    + right. plain_id.
    + reflexivity.
Defined.

(** C8, the claim as stated fails.  With the start button enabled, a
    selected pair without an API key is not in the set the specification
    describes and still gets a lane; and where that set is empty a race is
    no no-op: the keyless pair is staged and set to its error. *)
Lemma keyless_pair_gets_lane :
  startDisabled (Sample.state drag 500) = false
  /\ eligible_spec (Sample.state drag 500) = [Sample.zhipu_a]
  /\ List.map id (results (after_race (Sample.state drag 500) (Sample.race_env [])))
     = [resultId_of Sample.cerebras_a; resultId_of Sample.zhipu_a]
  /\ eligible_spec Sample.state_keyless = []
  /\ List.map id (results (after_race Sample.state_keyless (Sample.race_env [])))
     = [resultId_of Sample.cerebras_a]
  /\ after_race Sample.state_keyless (Sample.race_env []) <> Sample.state_keyless.
Proof.
  split; [by vm_compute|]. split; [by vm_compute|]. split; [by vm_compute|].
  split; [by vm_compute|]. split; [by vm_compute|].
  intros H. apply (f_equal results) in H. vm_compute in H. discriminate.
Qed.

(** ** A lane without a key, and its siblings *)

(** Lane ids are [providerId-modelId]: they tell pairs apart as long as
    provider ids hold no hyphen, as is the case of every provider id in the
    sources. *)
Lemma resultId_of_inj p q :
  ~ In 45 (providerId p) -> ~ In 45 (providerId q) ->
  resultId_of p = resultId_of q -> p = q.
Proof.
  destruct p as [p1 m1], q as [p2 m2]. unfold resultId_of. simpl.
  change (Js.lit "-") with [45].
  revert p2. induction p1 as [|c p1 IH]; intros [|d p2] H1 H2 Heq; simpl in *.
  - by inversion Heq.
  - inversion Heq; subst. exfalso. apply H2. by left.
  - inversion Heq; subst. exfalso. apply H1. by left.
  - inversion Heq; subst.
    assert (H : mkPair p1 m1 = mkPair p2 m2).
    { apply IH; [intros H; apply H1; by right
                |intros H; apply H2; by right|done]. }
    by inversion H.
Qed.





(** ** Cancellation *)

Lemma registry_services providerId service :
  getProviderService registry providerId = Some service ->
  In service adapters.
Proof.
  unfold getProviderService, registry, registerProviderService, adapters.
  simpl. intros H.
  apply lookup_insert_Some in H as [[_ <-] | [_ H]]; [by left|].
  apply lookup_insert_Some in H as [[_ <-] | [_ H]]; [right; by left|].
  apply lookup_insert_Some in H as [[_ <-] | [_ H]]; [right; right; by left|].
  by rewrite lookup_empty in H.
Qed.

Lemma client_sends_no_signal env_of providerId prompt model apiKey settings :
  Forall (fun req => req_signal req = None)
         (sent (streamCompletion_client env_of providerId prompt model apiKey
                                        settings)).
Proof.
  unfold streamCompletion_client.
  destruct (getProviderService registry providerId) as [service|] eqn:E;
    [|constructor].
  apply registry_services in E.
  destruct (adapters_outcome service (env_of providerId model) prompt model
              apiKey None (Some settings) E)
    as [req [content_of [decode [[-> _] Hsig]]]].
  by repeat constructor.
Qed.

(** C9, as the code has it.  An adapter's [generate] makes one request and
    attaches to it the signal it was given.  A race calls [streamCompletion]
    with provider, prompt, model, key and settings only, so no request made
    for a lane carries a signal, and nothing outside the race can abort
    them. *)
Theorem signal_attached_only_if_given :
  (forall service env prompt model apiKey signal settings,
      In service adapters ->
      exists req,
        sent (service_generate service env prompt model apiKey signal settings)
        = [req]
        /\ req_signal req = signal)
  /\ (forall state env env_of,
        streamCompletion env = streamCompletion_client env_of ->
        Forall (fun req => req_signal req = None)
               (snd (handleRunComparison state env))).
Proof.
  split.
  - intros service env prompt model apiKey signal settings Hin.
    destruct (adapters_outcome service env prompt model apiKey signal settings Hin)
      as [req [content_of [decode [[Hsent _] Hsig]]]].
    by exists req.
  - intros state env env_of Hclient.
    assert (Hlanes : forall l,
               Forall (fun req => req_signal req = None)
                      (List.concat (List.map snd (List.map (lane state env) l)))).
    { induction l as [|p l IH]; simpl; [constructor|].
      apply Forall_app. split; [|exact IH].
      unfold lane.
      destruct (apiKey_of state p) as [apiKey|]; [|constructor].
      destruct (Js.truthy apiKey); [|constructor]. simpl.
      rewrite Hclient. apply client_sends_no_signal. }
    unfold handleRunComparison.
    destruct (selected state) as [|p0 ps] eqn:Esel; simpl snd.
    + constructor.
    + apply (Hlanes (p0 :: ps)).
Qed.

Lemma signal_attached_only_if_given_witness :
  Forall (fun req => req_signal req = None)
         (snd (handleRunComparison Sample.state_keys (Sample.client_env []))).
Proof.
  apply (proj2 signal_attached_only_if_given Sample.state_keys
               (Sample.client_env []) (fun _ _ => Sample.online)).
  reflexivity.
Defined.

(** C9, the claim as stated fails: in a race of two lanes that both reach
    their provider, two requests are made and neither carries a signal, so
    there is no signal, external or other, that all of them carry. *)
Lemma race_requests_without_signal :
  length (snd (handleRunComparison Sample.state_keys (Sample.client_env []))) = 2%nat
  /\ Forall (fun req => req_signal req = None)
            (snd (handleRunComparison Sample.state_keys (Sample.client_env [])))
  /\ ~ exists signal,
         Forall (fun req => req_signal req = Some signal)
                (snd (handleRunComparison Sample.state_keys (Sample.client_env []))).
Proof.
  split; [by vm_compute|]. split.
  - vm_compute. by repeat constructor.
  - intros [signal H]. vm_compute in H. inversion H as [|req l Hreq _]; subst.
    discriminate.
Qed.

(** ** Decoding: text and segments *)

Lemma decode_app d v1 v2 :
  TextDecoder.decode d (v1 ++ v2)
  = (fst (TextDecoder.decode (fst (TextDecoder.decode d v1)) v2),
     snd (TextDecoder.decode d v1)
     ++ snd (TextDecoder.decode (fst (TextDecoder.decode d v1)) v2)).
Proof.
  revert d. induction v1 as [|b v1 IH]; intros d; simpl.
  - by destruct (TextDecoder.decode d v2).
  - destruct (TextDecoder.step d b) as [d1 out1]. rewrite IH.
    destruct (TextDecoder.decode d1 v1) as [d2 out2]. simpl.
    destruct (TextDecoder.decode d2 v2) as [d3 out3]. simpl.
    by rewrite List.app_assoc.
Qed.

Lemma split_blank_cons2 c d s :
  Js.split_blank (c :: d :: s)
  = if (c =? Js.LF) && (d =? Js.LF) then [] :: Js.split_blank s
    else Js.consHead c (Js.split_blank (d :: s)).
Proof. reflexivity. Qed.

Lemma split_blank_nonempty s : Js.split_blank s <> [].
Proof.
  destruct s as [|c [|d s]]; [done|done|].
  rewrite split_blank_cons2.
  destruct ((c =? Js.LF) && (d =? Js.LF)); [done|].
  by destruct (Js.split_blank (d :: s)).
Qed.

(** Lists are handled two elements at a time, as [split_blank] does. *)
Lemma list_ind2 {A} (P : list A -> Prop) :
  P [] -> (forall a, P [a]) ->
  (forall a b l, P l -> P (b :: l) -> P (a :: b :: l)) ->
  forall l, P l.
Proof.
  intros H0 H1 H2 l.
  assert (H : P l /\ forall a, P (a :: l)); [|by destruct H].
  induction l as [|b l [IH1 IH2]]; [by split|].
  split; [apply IH2|]. intros a. by apply H2.
Qed.

Lemma split_blank_single s x : Js.split_blank s = [x] -> x = s.
Proof.
  revert x. induction s as [| a | a b s IH1 IH2] using list_ind2; intros x.
  - by intros [= <-].
  - by intros [= <-].
  - rewrite split_blank_cons2.
    destruct ((a =? Js.LF) && (b =? Js.LF)).
    + intros H. inversion H as [[H1 H2]].
      by destruct (split_blank_nonempty s).
    + destruct (Js.split_blank (b :: s)) as [|y [|z l]] eqn:E; simpl.
      * by destruct (split_blank_nonempty (b :: s)).
      * intros [= <-]. f_equal. by apply IH2.
      * intros [=].
Qed.

Lemma last_app_nonempty {A} (l l' : list A) d :
  l' <> [] -> List.last (l ++ l') d = List.last l' d.
Proof.
  intros Hl'. induction l as [|a l IH]; [done|].
  simpl. destruct (l ++ l') eqn:E; [|done].
  by destruct l, l'.
Qed.

(** Reading on: splitting a text that grew by [s2] gives the parts that
    were complete already, followed by the split of what was left over
    with [s2] appended. *)
Lemma split_blank_app s1 s2 :
  Js.split_blank (s1 ++ s2)
  = List.removelast (Js.split_blank s1)
    ++ Js.split_blank (List.last (Js.split_blank s1) [] ++ s2).
Proof.
  induction s1 as [| a | a b s IH1 IH2] using list_ind2.
  - done.
  - done.
  - change ((a :: b :: s) ++ s2) with (a :: b :: (s ++ s2)).
    rewrite !split_blank_cons2.
    destruct ((a =? Js.LF) && (b =? Js.LF)) eqn:Esep.
    + rewrite IH1.
      pose proof (split_blank_nonempty s) as Hne.
      destruct (Js.split_blank s) as [|x l] eqn:E; [done|]. done.
    + change (b :: s ++ s2) with ((b :: s) ++ s2). rewrite IH2.
      destruct (Js.split_blank (b :: s)) as [|x [|y l]] eqn:E.
      * by destruct (split_blank_nonempty (b :: s)).
      * apply split_blank_single in E. subst x.
        change (List.removelast (Js.consHead a [b :: s])) with (@nil jstring).
        change (List.last (Js.consHead a [b :: s]) []) with (a :: b :: s).
        change (List.removelast [b :: s]) with (@nil jstring).
        change (List.last [b :: s] []) with (b :: s).
        rewrite !List.app_nil_l.
        change ((a :: b :: s) ++ s2) with (a :: b :: (s ++ s2)).
        by rewrite split_blank_cons2, Esep.
      * done.
Qed.

Lemma pop_split_app s1 s2 :
  Js.pop (Js.split_blank (s1 ++ s2))
  = (fst (Js.pop (Js.split_blank s1))
     ++ fst (Js.pop (Js.split_blank (snd (Js.pop (Js.split_blank s1)) ++ s2))),
     snd (Js.pop (Js.split_blank (snd (Js.pop (Js.split_blank s1)) ++ s2)))).
Proof.
  unfold Js.pop. simpl. rewrite split_blank_app.
  rewrite List.removelast_app by apply split_blank_nonempty.
  by rewrite last_app_nonempty by apply split_blank_nonempty.
Qed.

(** ** The buffered decoder does not depend on how the body is cut *)

Section BufferedDecoder.
Variable env : Env.

Lemma for_parts_app parts1 parts2 :
  Cerebras.for_parts env (parts1 ++ parts2)
  = if snd (Cerebras.for_parts env parts1)
    then (fst (Cerebras.for_parts env parts1), true)
    else (fst (Cerebras.for_parts env parts1)
          ++ fst (Cerebras.for_parts env parts2),
          snd (Cerebras.for_parts env parts2)).
Proof.
  induction parts1 as [|part parts1 IH]; simpl.
  - by destruct (Cerebras.for_parts env parts2).
  - destruct (Js.startsWith part DATA_PREFIX); [|done].
    destruct (Js.eqb _ DONE); [done|].
    destruct (JSON_parse env _); [|done].
    rewrite IH.
    destruct (Cerebras.for_parts env parts1) as [ys1 [|]]; simpl; [done|].
    by destruct (Cerebras.for_parts env parts2).
Qed.

(** One read, unfolded. *)
Lemma read_loop_cons decoder buffer value values ending :
  Cerebras.read_loop env decoder buffer (value :: values) ending
  = let split :=
      Js.split_blank (buffer ++ snd (TextDecoder.decode decoder value)) in
    if snd (Cerebras.for_parts env (List.removelast split))
    then (fst (Cerebras.for_parts env (List.removelast split)), Returned)
    else
      (fst (Cerebras.for_parts env (List.removelast split))
       ++ fst (Cerebras.read_loop env (fst (TextDecoder.decode decoder value))
                                  (List.last split []) values ending),
       snd (Cerebras.read_loop env (fst (TextDecoder.decode decoder value))
                               (List.last split []) values ending)).
Proof.
  cbv zeta. simpl. destruct (TextDecoder.decode decoder value) as [d text].
  unfold Js.pop. simpl.
  destruct (Cerebras.for_parts env _) as [ys [|]]; simpl; [done|].
  by destruct (Cerebras.read_loop env d _ values ending).
Qed.

(** Two reads give what the two values give when read as one. *)
Lemma read_loop_merge decoder buffer v1 v2 values ending :
  Cerebras.read_loop env decoder buffer (v1 :: v2 :: values) ending
  = Cerebras.read_loop env decoder buffer ((v1 ++ v2) :: values) ending.
Proof.
  rewrite (read_loop_cons decoder buffer v1). cbv zeta.
  rewrite (read_loop_cons _ _ v2). cbv zeta.
  rewrite (read_loop_cons decoder buffer (v1 ++ v2)). cbv zeta.
  rewrite decode_app.
  set (d1 := fst (TextDecoder.decode decoder v1)).
  set (t1 := snd (TextDecoder.decode decoder v1)).
  set (d2 := fst (TextDecoder.decode d1 v2)).
  set (t2 := snd (TextDecoder.decode d1 v2)).
  change (fst (d2, t1 ++ t2)) with d2.
  change (snd (d2, t1 ++ t2)) with (t1 ++ t2).
  rewrite (List.app_assoc buffer t1 t2), (split_blank_app (buffer ++ t1) t2).
  set (s1 := Js.split_blank (buffer ++ t1)).
  set (s2 := Js.split_blank (List.last s1 [] ++ t2)).
  assert (Hs2 : s2 <> []) by apply split_blank_nonempty.
  rewrite (List.removelast_app _ Hs2), (last_app_nonempty _ _ _ Hs2).
  rewrite for_parts_app.
  destruct (Cerebras.for_parts env (List.removelast s1)) as [ys1 [|]];
    simpl; [done|].
  destruct (Cerebras.for_parts env (List.removelast s2)) as [ys2 [|]];
    simpl; [done|].
  by rewrite List.app_assoc.
Qed.

Lemma read_loop_concat decoder buffer value values ending :
  Cerebras.read_loop env decoder buffer (value :: values) ending
  = Cerebras.read_loop env decoder buffer [List.concat (value :: values)] ending.
Proof.
  revert value. induction values as [|v2 values IH]; intros value.
  - simpl List.concat. by rewrite List.app_nil_r.
  - rewrite read_loop_merge, IH. simpl List.concat.
    by rewrite List.app_assoc.
Qed.

(** What the buffered decoder yields, in one formula: the objects of the
    complete segments of the whole decoded text. *)
Lemma read_loop_whole values ending :
  Cerebras.read_loop env TextDecoder.create [] values ending
  = ended (Cerebras.for_parts env
             (List.removelast
                (Js.split_blank
                   (snd (TextDecoder.decode TextDecoder.create
                                            (List.concat values))))))
          ending.
Proof.
  destruct values as [|value values].
  - done.
  - rewrite read_loop_concat, read_loop_cons. cbv zeta.
    unfold ended. rewrite List.app_nil_l.
    destruct (Cerebras.for_parts env _) as [ys [|]]; simpl; [done|].
    by rewrite List.app_nil_r.
Qed.

(** [streamSSE] yields the same objects, and ends the same way, however the
    body is cut into reads. *)
Lemma streamSSE_chunking ok status text values ending :
  Cerebras.streamSSE env
    (mkResponse ok status text (Some (mkStream values ending)))
  = Cerebras.streamSSE env
      (mkResponse ok status text
                  (Some (mkStream [List.concat values] ending))).
Proof.
  unfold Cerebras.streamSSE. cbn [resp_body reads reads_end].
  rewrite !read_loop_whole.
  replace (List.concat [List.concat values]) with (List.concat values);
    [reflexivity|].
  simpl. by rewrite List.app_nil_r.
Qed.

Lemma for_parts_skip pre bad post :
  cerebras_malformed env bad ->
  Cerebras.for_parts env (pre ++ bad :: post)
  = Cerebras.for_parts env (pre ++ post).
Proof.
  intros [Hdata [Hdone Hparse]].
  rewrite !for_parts_app. cbn [Cerebras.for_parts].
  apply eqb_false in Hdone. by rewrite Hdata, Hdone, Hparse.
Qed.

Lemma for_lines_app lines1 lines2 :
  Zhipu.for_lines env (lines1 ++ lines2)
  = if snd (Zhipu.for_lines env lines1)
    then (fst (Zhipu.for_lines env lines1), true)
    else (fst (Zhipu.for_lines env lines1)
          ++ fst (Zhipu.for_lines env lines2),
          snd (Zhipu.for_lines env lines2)).
Proof.
  induction lines1 as [|line lines1 IH]; simpl.
  - by destruct (Zhipu.for_lines env lines2).
  - destruct (Js.startsWith line DATA_PREFIX); [|done].
    destruct (Js.eqb _ DONE); [done|].
    destruct (JSON_parse env _); [|done].
    rewrite IH.
    destruct (Zhipu.for_lines env lines1) as [ys1 [|]]; simpl; [done|].
    by destruct (Zhipu.for_lines env lines2).
Qed.

Lemma for_lines_skip pre bad post :
  zhipu_malformed env bad ->
  Zhipu.for_lines env (pre ++ bad :: post)
  = Zhipu.for_lines env (pre ++ post).
Proof.
  intros [Hdata [Hdone Hparse]].
  rewrite !for_lines_app. cbn [Zhipu.for_lines].
  apply eqb_false in Hdone. by rewrite Hdata, Hdone, Hparse.
Qed.

Lemma zhipu_read_cons decoder value values ending :
  Zhipu.read_loop env decoder (value :: values) ending
  = continued
      (Zhipu.for_lines env
         (Js.split_blank (snd (TextDecoder.decode decoder value))))
      (Zhipu.read_loop env (fst (TextDecoder.decode decoder value))
                       values ending).
Proof.
  simpl. destruct (TextDecoder.decode decoder value) as [d chunk]. simpl.
  unfold continued.
  destruct (Zhipu.for_lines env _) as [ys [|]]; simpl; [done|].
  by destruct (Zhipu.read_loop env d values ending).
Qed.

Lemma zhipu_single_read value ending :
  Zhipu.read_loop env TextDecoder.create [value] ending
  = ended (Zhipu.for_lines env
             (Js.split_blank
                (snd (TextDecoder.decode TextDecoder.create value))))
          ending.
Proof.
  simpl. destruct (TextDecoder.decode TextDecoder.create value) as [d chunk].
  simpl. unfold ended.
  destruct (Zhipu.for_lines env _) as [ys [|]]; simpl; [done|].
  by rewrite List.app_nil_r.
Qed.

End BufferedDecoder.

(** C4.  A 'data: ' segment whose payload is rejected by [JSON.parse] is
    skipped and the segments after it are still decoded, in the loop over
    segments of both decoders and so in the streams they produce: for
    [streamSSE] however the body is cut into reads, for
    [streamOpenAIResponse] for the segments of each read, the reads that
    follow being decoded as before.  In particular, with a malformed payload between two well-formed ones, both
    objects are yielded. *)
Theorem malformed_segment_skipped (env : Env) :
  (forall pre bad post,
      cerebras_malformed env bad ->
      Cerebras.for_parts env (pre ++ bad :: post)
      = Cerebras.for_parts env (pre ++ post))
  /\ (forall pre bad post,
        zhipu_malformed env bad ->
        Zhipu.for_lines env (pre ++ bad :: post)
        = Zhipu.for_lines env (pre ++ post))
  /\ (forall ok status text values ending pre bad post rest,
        Js.split_blank
          (snd (TextDecoder.decode TextDecoder.create (List.concat values)))
        = pre ++ bad :: post ++ [rest] ->
        cerebras_malformed env bad ->
        Cerebras.streamSSE env
          (mkResponse ok status text (Some (mkStream values ending)))
        = ended (Cerebras.for_parts env (pre ++ post)) ending)
  /\ (forall ok status text value ending pre bad post,
        Js.split_blank (snd (TextDecoder.decode TextDecoder.create value))
        = pre ++ bad :: post ->
        zhipu_malformed env bad ->
        Zhipu.streamOpenAIResponse env
          (mkResponse ok status text (Some (mkStream [value] ending)))
        = ended (Zhipu.for_lines env (pre ++ post)) ending)
  /\ (forall decoder value values ending pre bad post,
        Js.split_blank (snd (TextDecoder.decode decoder value))
        = pre ++ bad :: post ->
        zhipu_malformed env bad ->
        Zhipu.read_loop env decoder (value :: values) ending
        = continued (Zhipu.for_lines env (pre ++ post))
                    (Zhipu.read_loop env (fst (TextDecoder.decode decoder value))
                                     values ending))
  /\ (forall ok status text values ending a bad b rest va vb,
        Js.split_blank
          (snd (TextDecoder.decode TextDecoder.create (List.concat values)))
        = [a; bad; b; rest] ->
        cerebras_well_formed env a va ->
        cerebras_malformed env bad ->
        cerebras_well_formed env b vb ->
        Cerebras.streamSSE env
          (mkResponse ok status text (Some (mkStream values ending)))
        = ([va; vb], ending))
  /\ (forall ok status text value ending a bad b rest va vb,
        Js.split_blank (snd (TextDecoder.decode TextDecoder.create value))
        = [a; bad; b; rest] ->
        zhipu_well_formed env a va ->
        zhipu_malformed env bad ->
        zhipu_well_formed env b vb ->
        Js.startsWith rest DATA_PREFIX = false ->
        Zhipu.streamOpenAIResponse env
          (mkResponse ok status text (Some (mkStream [value] ending)))
        = ([va; vb], ending)).
Proof.
  assert (H3 : forall ok status text values ending pre bad post rest,
        Js.split_blank
          (snd (TextDecoder.decode TextDecoder.create (List.concat values)))
        = pre ++ bad :: post ++ [rest] ->
        cerebras_malformed env bad ->
        Cerebras.streamSSE env
          (mkResponse ok status text (Some (mkStream values ending)))
        = ended (Cerebras.for_parts env (pre ++ post)) ending).
  { intros ok status text values ending pre bad post rest Hsplit Hbad.
    unfold Cerebras.streamSSE. cbn [resp_body reads reads_end].
    rewrite read_loop_whole, Hsplit.
    replace (pre ++ bad :: post ++ [rest]) with ((pre ++ bad :: post) ++ [rest])
      by (by rewrite <- List.app_assoc).
    rewrite List.removelast_last. by rewrite for_parts_skip. }
  assert (H4 : forall ok status text value ending pre bad post,
        Js.split_blank (snd (TextDecoder.decode TextDecoder.create value))
        = pre ++ bad :: post ->
        zhipu_malformed env bad ->
        Zhipu.streamOpenAIResponse env
          (mkResponse ok status text (Some (mkStream [value] ending)))
        = ended (Zhipu.for_lines env (pre ++ post)) ending).
  { intros ok status text value ending pre bad post Hsplit Hbad.
    unfold Zhipu.streamOpenAIResponse. cbn [resp_body reads reads_end].
    rewrite zhipu_single_read, Hsplit. by rewrite for_lines_skip. }
  split; [intros; by apply for_parts_skip|].
  split; [intros; by apply for_lines_skip|].
  split; [exact H3|]. split; [exact H4|]. split.
  { intros decoder value values ending pre bad post Hsplit Hbad.
    rewrite zhipu_read_cons, Hsplit. by rewrite for_lines_skip. }
  split.
  - intros ok status text values ending a bad b rest va vb Hsplit
           [Ha1 [Ha2 Ha3]] Hbad [Hb1 [Hb2 Hb3]].
    rewrite (H3 ok status text values ending [a] bad [b] rest Hsplit Hbad).
    unfold ended. cbn [Cerebras.for_parts app].
    apply eqb_false in Ha2, Hb2.
    by rewrite Ha1, Ha2, Ha3, Hb1, Hb2, Hb3.
  - intros ok status text value ending a bad b rest va vb Hsplit
           [Ha1 [Ha2 Ha3]] Hbad [Hb1 [Hb2 Hb3]] Hrest.
    rewrite (H4 ok status text value ending [a] bad [b; rest] Hsplit Hbad).
    unfold ended. cbn [Zhipu.for_lines app].
    apply eqb_false in Ha2, Hb2.
    by rewrite Ha1, Ha2, Ha3, Hb1, Hb2, Hb3, Hrest.
Qed.

Lemma malformed_segment_skipped_witness :
  Cerebras.streamSSE Sample.env
    (Sample.response
       [ Sample.bytes ("data: {}" ++ Sample.sep ++ "data: {oo");
         Sample.bytes ("ps" ++ Sample.sep ++ "data: []" ++ Sample.sep) ])
  = ([JObj []; JArr []], Returned)
  /\ Zhipu.streamOpenAIResponse Sample.env
       (Sample.response
          [ Sample.bytes ("data: {}" ++ Sample.sep ++ "data: {oops"
                          ++ Sample.sep ++ "data: []" ++ Sample.sep) ])
     = ([JObj []; JArr []], Returned).
Proof.
  destruct (malformed_segment_skipped Sample.env)
    as [_ [_ [_ [_ [_ [Hc Hz]]]]]].
  split.
  - apply (Hc true 200%Z (Ok []) _ Returned
              (Js.lit "data: {}") (Js.lit "data: {oops") (Js.lit "data: []") []).
    + reflexivity.
    + split; [reflexivity|]. split; [vm_compute; discriminate|reflexivity].
    + split; [reflexivity|]. split; [vm_compute; discriminate|reflexivity].
    + split; [reflexivity|]. split; [vm_compute; discriminate|reflexivity].
  - apply (Hz true 200%Z (Ok []) _ Returned
              (Js.lit "data: {}") (Js.lit "data: {oops") (Js.lit "data: []") []).
    + reflexivity.
    + split; [reflexivity|]. split; [vm_compute; discriminate|reflexivity].
    + split; [reflexivity|]. split; [vm_compute; discriminate|reflexivity].
    + split; [reflexivity|]. split; [vm_compute; discriminate|reflexivity].
    + reflexivity.
Defined.

(** C1, where the code falls short of it.  [streamOpenAIResponse] keeps
    nothing between reads: when the event 'data: {}' followed by a blank
    line arrives as the two reads 'da' and 'ta: {}' plus the blank line,
    it yields nothing, although it yields the parsed object when the same
    bytes arrive in one read, as the buffered [streamSSE] does for both
    ways of cutting the body. *)
Theorem unbuffered_decoder_loses_split_event (env : Env) (v : jsval) :
  JSON_parse env (Js.lit "{}") = Some v ->
  Zhipu.streamOpenAIResponse env
    (Sample.response [Sample.bytes "da";
                      Sample.bytes ("ta: {}" ++ Sample.sep)])
  = ([], Returned)
  /\ Zhipu.streamOpenAIResponse env
       (Sample.response [Sample.bytes "da" ++ Sample.bytes ("ta: {}" ++ Sample.sep)])
     = ([v], Returned)
  /\ Cerebras.streamSSE env
       (Sample.response [Sample.bytes "da";
                         Sample.bytes ("ta: {}" ++ Sample.sep)])
     = ([v], Returned)
  /\ Cerebras.streamSSE env
       (Sample.response [Sample.bytes "da" ++ Sample.bytes ("ta: {}" ++ Sample.sep)])
     = ([v], Returned).
Proof.
  intros Hparse. vm_compute in Hparse.
  repeat split; vm_compute; rewrite ?Hparse; reflexivity.
Qed.

Lemma unbuffered_decoder_loses_split_event_witness :
  Zhipu.streamOpenAIResponse Sample.env
    (Sample.response [Sample.bytes "da";
                      Sample.bytes ("ta: {}" ++ Sample.sep)])
  = ([], Returned)
  /\ Zhipu.streamOpenAIResponse Sample.env
       (Sample.response [Sample.bytes "da" ++ Sample.bytes ("ta: {}" ++ Sample.sep)])
     = ([JObj []], Returned)
  /\ Cerebras.streamSSE Sample.env
       (Sample.response [Sample.bytes "da";
                         Sample.bytes ("ta: {}" ++ Sample.sep)])
     = ([JObj []], Returned)
  /\ Cerebras.streamSSE Sample.env
       (Sample.response [Sample.bytes "da" ++ Sample.bytes ("ta: {}" ++ Sample.sep)])
     = ([JObj []], Returned).
Proof.
  apply (unbuffered_decoder_loses_split_event Sample.env (JObj [])).
  reflexivity.
Defined.

(* ===================================================================== *)
(** * Further properties of the code                                      *)
(* ===================================================================== *)

(** ** The decoders *)

(** X1.  [streamSSE] yields the same objects and ends the same way for any
    two ways of cutting the same bytes into reads. *)
Theorem streamSSE_same_for_partitions (env : Env) (ok : bool) (status : Z)
  (text : result jstring) (values1 values2 : list (list byte))
  (ending : completion) :
  List.concat values1 = List.concat values2 ->
  Cerebras.streamSSE env
    (mkResponse ok status text (Some (mkStream values1 ending)))
  = Cerebras.streamSSE env
      (mkResponse ok status text (Some (mkStream values2 ending))).
Proof.
  intros Hsame. unfold Cerebras.streamSSE. cbn [resp_body reads reads_end].
  by rewrite !read_loop_whole, Hsame.
Qed.

Lemma streamSSE_same_for_partitions_witness :
  Cerebras.streamSSE Sample.online (Sample.response Sample.two_deltas)
  = Cerebras.streamSSE Sample.online
      (Sample.response
         [ Sample.bytes "data: ";
           Sample.bytes (Sample.delta_text ++ Sample.sep ++ "data: "
                         ++ Sample.delta_text ++ Sample.sep ++ "data: [DONE]"
                         ++ Sample.sep) ]).
Proof.
  apply (streamSSE_same_for_partitions Sample.online true 200%Z (Ok [])).
  vm_compute. reflexivity.
Defined.

(** X2.  [streamSSE] parses only the segments that a blank line closes:
    whatever follows the last blank line of the body is never parsed, be it a
    complete event.  [streamOpenAIResponse] does parse the last segment of a
    read. *)
Theorem streamSSE_drops_open_segment (env : Env) (ok : bool) (status : Z)
  (text : result jstring) (values : list (list byte)) (value : list byte)
  (ending : completion) (parts : list jstring) (rest : jstring) :
  Js.split_blank (snd (TextDecoder.decode TextDecoder.create (List.concat values)))
  = parts ++ [rest] ->
  Js.split_blank (snd (TextDecoder.decode TextDecoder.create value))
  = parts ++ [rest] ->
  Cerebras.streamSSE env
    (mkResponse ok status text (Some (mkStream values ending)))
  = ended (Cerebras.for_parts env parts) ending
  /\ Zhipu.streamOpenAIResponse env
       (mkResponse ok status text (Some (mkStream [value] ending)))
     = ended (Zhipu.for_lines env (parts ++ [rest])) ending.
Proof.
  intros Hvalues Hvalue. split.
  - unfold Cerebras.streamSSE. cbn [resp_body reads reads_end].
    by rewrite read_loop_whole, Hvalues, List.removelast_last.
  - unfold Zhipu.streamOpenAIResponse. cbn [resp_body reads reads_end].
    by rewrite zhipu_single_read, Hvalue.
Qed.

Lemma streamSSE_drops_open_segment_witness :
  Cerebras.streamSSE Sample.env
    (Sample.response [Sample.bytes "data: "; Sample.bytes "{}"])
  = ([], Returned)
  /\ Zhipu.streamOpenAIResponse Sample.env
       (Sample.response [Sample.bytes "data: {}"])
     = ([JObj []], Returned).
Proof.
  apply (streamSSE_drops_open_segment Sample.env true 200%Z (Ok [])
           [Sample.bytes "data: "; Sample.bytes "{}"] (Sample.bytes "data: {}")
           Returned [] (Js.lit "data: {}")); reflexivity.
Defined.

(** A segment that carries the terminator, as each decoder reads it. *)
Lemma for_parts_done env pre part post :
  Js.startsWith part DATA_PREFIX = true ->
  Js.trim (Js.substring 6 part) = DONE ->
  Cerebras.for_parts env (pre ++ part :: post)
  = (fst (Cerebras.for_parts env pre), true).
Proof.
  intros Hdata Hdone. rewrite for_parts_app. cbn [Cerebras.for_parts].
  rewrite Hdata, Hdone, eqb_refl.
  destruct (Cerebras.for_parts env pre) as [ys [|]]; simpl; [done|].
  by rewrite List.app_nil_r.
Qed.

Lemma for_lines_done env pre line post :
  Js.startsWith line DATA_PREFIX = true ->
  Js.trim (Js.substring 6 line) = DONE ->
  Zhipu.for_lines env (pre ++ line :: post)
  = (fst (Zhipu.for_lines env pre), true).
Proof.
  intros Hdata Hdone. rewrite for_lines_app. cbn [Zhipu.for_lines].
  rewrite Hdata, Hdone, eqb_refl.
  destruct (Zhipu.for_lines env pre) as [ys [|]]; simpl; [done|].
  by rewrite List.app_nil_r.
Qed.

(** X3.  A segment 'data: [DONE]' ends the decoded sequence: both decoders
    yield what the segments before it yield and return, whatever follows the
    terminator in the body and even when a later read is rejected. *)
Theorem done_ends_the_sequence (env : Env) (ok : bool) (status : Z)
  (text : result jstring) :
  (forall values ending pre part post rest,
      Js.split_blank
        (snd (TextDecoder.decode TextDecoder.create (List.concat values)))
      = pre ++ part :: post ++ [rest] ->
      Js.startsWith part DATA_PREFIX = true ->
      Js.trim (Js.substring 6 part) = DONE ->
      Cerebras.streamSSE env
        (mkResponse ok status text (Some (mkStream values ending)))
      = (fst (Cerebras.for_parts env pre), Returned))
  /\ (forall decoder value values ending pre line post,
        Js.split_blank (snd (TextDecoder.decode decoder value))
        = pre ++ line :: post ->
        Js.startsWith line DATA_PREFIX = true ->
        Js.trim (Js.substring 6 line) = DONE ->
        Zhipu.read_loop env decoder (value :: values) ending
        = (fst (Zhipu.for_lines env pre), Returned)).
Proof.
  split.
  - intros values ending pre part post rest Hsplit Hdata Hdone.
    unfold Cerebras.streamSSE. cbn [resp_body reads reads_end].
    rewrite read_loop_whole, Hsplit.
    replace (pre ++ part :: post ++ [rest])
      with ((pre ++ part :: post) ++ [rest])
      by (by rewrite <- List.app_assoc).
    rewrite List.removelast_last, for_parts_done by done. done.
  - intros decoder value values ending pre line post Hsplit Hdata Hdone.
    rewrite zhipu_read_cons, Hsplit, for_lines_done by done. done.
Qed.

Lemma done_ends_the_sequence_witness :
  Cerebras.streamSSE Sample.env
    (mkResponse true 200%Z (Ok [])
       (Some (mkStream
                [ Sample.bytes ("data: {}" ++ Sample.sep ++ "data: [DONE]"
                                ++ Sample.sep ++ "data: []" ++ Sample.sep) ]
                (Threw (Js.lit "network error")))))
  = ([JObj []], Returned).
Proof.
  apply (proj1 (done_ends_the_sequence Sample.env true 200%Z (Ok []))
           _ _ [Js.lit "data: {}"] (Js.lit "data: [DONE]") [Js.lit "data: []"] []);
    reflexivity.
Defined.

(** ** The adapters' [generate], continued *)

Section MoreAdapterFacts.
Variable env : Env.
Variable content_of : jsval -> result jsval.

Lemma for_await_text st chunks evs st' :
  for_await env content_of st chunks = (evs, Ok st') ->
  exists cs,
    evs = List.map Chunk cs
    /\ generatedText st' = generatedText st ++ List.concat cs
    /\ (l_firstTokenTime st' = None
        <-> l_firstTokenTime st = None /\ cs = []).
Proof.
  revert st evs st'. induction chunks as [|chunk rest IH]; intros st evs st' H.
  - simpl in H. inversion H; subst. exists []. simpl.
    rewrite List.app_nil_r. by intuition.
  - simpl in H. destruct (content_of chunk) as [content|m]; [|done].
    destruct (JsVal.truthy content); [|by apply IH].
    match type of H with
    | (let '(_, _) := for_await _ _ ?st2 _ in _) = _ =>
        destruct (for_await env content_of st2 rest) as [evs0 r0] eqn:E
    end.
    inversion H; subst.
    destruct (IH _ _ _ E) as [cs [-> [Htext Hfirst]]].
    eexists (_ :: cs). split; [reflexivity|]. split.
    + rewrite Htext. simpl.
      destruct (unset (l_firstTokenTime st)); simpl;
        by rewrite <- List.app_assoc.
    + split; [|by intros [_ [=]]].
      intros Hnone. apply Hfirst in Hnone as [Hnone _]. simpl in Hnone.
      destruct (unset (l_firstTokenTime st)) eqn:Eu; simpl in Hnone; [done|].
      by rewrite Hnone in Eu.
Qed.

Lemma for_await_app st chunks1 chunks2 :
  for_await env content_of st (chunks1 ++ chunks2)
  = match for_await env content_of st chunks1 with
    | (evs1, Throw m) => (evs1, Throw m)
    | (evs1, Ok st1) =>
        (evs1 ++ fst (for_await env content_of st1 chunks2),
         snd (for_await env content_of st1 chunks2))
    end.
Proof.
  revert st. induction chunks1 as [|chunk rest IH]; intros st; simpl.
  - by destruct (for_await env content_of st chunks2).
  - destruct (content_of chunk) as [content|m]; [|done].
    destruct (JsVal.truthy content); [|by apply IH].
    rewrite IH.
    by destruct (for_await env content_of _ rest) as [evs1 [st1|m]].
Qed.

Lemma stream_events_returned prompt start decoded evs :
  stream_events env content_of prompt start decoded = (evs, Returned) ->
  exists cs m,
    evs = List.map Chunk cs ++ [Metrics m]
    /\ startTime m = start
    /\ (exists k, finishTime m = Some (now env k))
    /\ inputTokens m = Some (approxTokensFromText env prompt)
    /\ outputTokens m = Some (approxTokensFromText env (List.concat cs))
    /\ tokenCount m = finalTokenTotal env prompt (List.concat cs)
    /\ (firstTokenTime m = None <-> cs = []).
Proof.
  unfold stream_events.
  destruct (for_await env content_of _ (fst decoded)) as [evs0 [st|m]] eqn:E;
    [|done].
  destruct (snd decoded); [|done]. intros [= <-].
  destruct (for_await_text _ _ _ _ E) as [cs [-> [Htext Hfirst]]].
  simpl in Htext. exists cs. eexists. split; [reflexivity|]. simpl.
  rewrite Htext. repeat split; eauto.
  - intros H. by apply Hfirst in H as [_ H].
  - intros H. by apply Hfirst.
Qed.

End MoreAdapterFacts.

(** X4.  When an adapter's [generate] returns, its metrics are computed
    from exactly what it yielded: outputTokens and tokenCount are the
    estimates for the concatenation of the chunks, inputTokens the estimate
    for the prompt, startTime the first clock reading, and firstTokenTime is
    absent exactly when no chunk was yielded. *)
Theorem metrics_describe_the_chunks (service : ProviderService) (env : Env)
  (prompt model apiKey : jstring) (signal : option AbortSignal)
  (settings : option ModelSettings) :
  In service adapters ->
  let s := service_generate service env prompt model apiKey signal settings in
  finished s = Returned ->
  exists cs m,
    events s = List.map Chunk cs ++ [Metrics m]
    /\ startTime m = now env 0
    /\ (exists k, finishTime m = Some (now env k))
    /\ inputTokens m = Some (approxTokensFromText env prompt)
    /\ outputTokens m = Some (approxTokensFromText env (List.concat cs))
    /\ tokenCount m = finalTokenTotal env prompt (List.concat cs)
    /\ (firstTokenTime m = None <-> cs = []).
Proof.
  intros Hin s Hret.
  destruct (adapters_outcome service env prompt model apiKey signal settings Hin)
    as [req [content_of [decode [[_ [Hrej [Hbad Hok]]] _]]]].
  fold s in Hrej, Hbad, Hok.
  destruct (fetch env req) as [response|msg] eqn:Efetch.
  2:{ destruct (Hrej msg eq_refl) as [_ H]. congruence. }
  destruct (resp_ok response) eqn:Eok.
  2:{ destruct (Hbad response eq_refl Eok) as [_ [msg H]]. congruence. }
  pose proof (Hok response eq_refl Eok) as H. rewrite Hret in H.
  symmetry in H. by apply stream_events_returned in H.
Qed.

Lemma metrics_describe_the_chunks_witness :
  exists cs m,
    events (Zhipu.generate Sample.online (Js.lit "hi") (Js.lit "glm-4")
                           (Js.lit "sk-1") None None)
    = List.map Chunk cs ++ [Metrics m]
    /\ startTime m = 0%Z
    /\ (exists k, finishTime m = Some (now Sample.online k))
    /\ inputTokens m = Some 2%Z
    /\ outputTokens m = Some (approxTokensFromText Sample.online (List.concat cs))
    /\ tokenCount m = finalTokenTotal Sample.online (Js.lit "hi") (List.concat cs)
    /\ (firstTokenTime m = None <-> cs = []).
Proof.
  apply (metrics_describe_the_chunks zhipuService Sample.online (Js.lit "hi")
           (Js.lit "glm-4") (Js.lit "sk-1") None None).
  - right. left. reflexivity.
  - reflexivity.
Defined.

Lemma missing_choices_contents fields :
  JsVal.nullish (JsVal.assoc (Js.lit "choices") fields) = true ->
  Cerebras.content_of (JObj fields) = Ok JUndefined
  /\ (exists msg, Zhipu.content_of (JObj fields) = Throw msg)
  /\ (exists msg, Moonshot.content_of (JObj fields) = Throw msg).
Proof.
  intros Hnull.
  unfold Cerebras.content_of, Zhipu.content_of, Moonshot.content_of.
  cbn [JsVal.getProp JsVal.bind].
  unfold JsVal.optIndex0. rewrite Hnull. cbn.
  destruct (JsVal.assoc (Js.lit "choices") fields); try discriminate;
    cbn; eauto.
Qed.

(** X5.  An event object without [choices] (or with a null one) is passed
    over by cerebras's [generate], which goes on as if it had not been sent;
    zhipu's and moonshot's [generate] read [choices[0]] unguarded and end
    there with a TypeError, keeping the chunks yielded before it and
    yielding no metrics. *)
Theorem event_without_choices (env : Env) (prompt model apiKey : jstring)
  (signal : option AbortSignal) (settings : option ModelSettings)
  (response : Response) (fields : list (jstring * jsval))
  (pre post : list jsval) (ending : completion) :
  JsVal.nullish (JsVal.assoc (Js.lit "choices") fields) = true ->
  resp_ok response = true ->
  (fetch env (Cerebras.request prompt model apiKey signal settings) = Ok response ->
   Cerebras.streamSSE env response = (pre ++ JObj fields :: post, ending) ->
   let s := Cerebras.generate env prompt model apiKey signal settings in
   (events s, finished s)
   = stream_events env Cerebras.content_of prompt (now env 0)
                   (pre ++ post, ending))
  /\ (fetch env (Zhipu.request prompt model apiKey signal settings) = Ok response ->
      Zhipu.streamOpenAIResponse env response = (pre ++ JObj fields :: post, ending) ->
      let s := Zhipu.generate env prompt model apiKey signal settings in
      events s = fst (for_await env Zhipu.content_of (mkLocals 1 None 0%Z []) pre)
      /\ (exists msg, finished s = Threw msg)
      /\ forall m, ~ In (Metrics m) (events s))
  /\ (fetch env (Moonshot.request prompt model apiKey signal settings) = Ok response ->
      Moonshot.streamOpenAIResponse env response = (pre ++ JObj fields :: post, ending) ->
      let s := Moonshot.generate env prompt model apiKey signal settings in
      events s = fst (for_await env Moonshot.content_of (mkLocals 1 None 0%Z []) pre)
      /\ (exists msg, finished s = Threw msg)
      /\ forall m, ~ In (Metrics m) (events s)).
Proof.
  intros Hnull Hok.
  destruct (missing_choices_contents fields Hnull) as [Hc [[mz Hz] [mm Hm]]].
  assert (Hthrows : forall content_of msg,
             content_of (JObj fields) = Throw msg ->
             forall s : Stream,
               (events s, finished s)
               = stream_events env content_of prompt (now env 0)
                               (pre ++ JObj fields :: post, ending) ->
               events s = fst (for_await env content_of (mkLocals 1 None 0%Z []) pre)
               /\ (exists msg', finished s = Threw msg')
               /\ forall m, ~ In (Metrics m) (events s)).
  { intros content_of msg Hthrow s Hs.
    unfold stream_events in Hs. cbn [fst snd] in Hs.
    rewrite for_await_app in Hs.
    destruct (for_await env content_of _ pre) as [evs1 [st1|m1]] eqn:E.
    - cbn [for_await] in Hs. rewrite Hthrow in Hs. cbn in Hs.
      rewrite List.app_nil_r in Hs. inversion Hs as [[Hev Hfin]].
      split; [done|]. split; [eauto|].
      destruct (for_await_spec _ _ _ _ _ _ E) as [[cs Hcs] _].
      intros m Hin. rewrite Hev, Hcs in Hin.
      apply List.in_map_iff in Hin. by destruct Hin as [c [? _]].
    - inversion Hs as [[Hev Hfin]].
      split; [done|]. split; [eauto|].
      destruct (for_await_spec _ _ _ _ _ _ E) as [[cs Hcs] _].
      intros m Hin. rewrite Hev, Hcs in Hin.
      apply List.in_map_iff in Hin. by destruct Hin as [c [? _]]. }
  split; [|split].
  - intros Hfetch Hdec s.
    destruct (cerebras_outcome env prompt model apiKey signal settings)
      as [_ [_ [_ H]]].
    unfold s. rewrite (H response Hfetch Hok), Hdec.
    unfold stream_events. cbn [fst snd].
    rewrite !for_await_app.
    destruct (for_await env Cerebras.content_of _ pre) as [evs1 [st1|m1]];
      [|done].
    cbn [for_await]. rewrite Hc. cbn.
    by destruct (for_await env Cerebras.content_of st1 post).
  - intros Hfetch Hdec s.
    destruct (zhipu_outcome env prompt model apiKey signal settings)
      as [_ [_ [_ H]]].
    apply (Hthrows Zhipu.content_of mz Hz). unfold s.
    by rewrite (H response Hfetch Hok), Hdec.
  - intros Hfetch Hdec s.
    destruct (moonshot_outcome env prompt model apiKey signal settings)
      as [_ [_ [_ H]]].
    apply (Hthrows Moonshot.content_of mm Hm). unfold s.
    by rewrite (H response Hfetch Hok), Hdec.
Qed.

Lemma event_without_choices_witness :
  events (Cerebras.generate Sample2.keepalive_env (Js.lit "hi") (Js.lit "m")
                            (Js.lit "k") None None)
  = [Chunk (Js.lit "Hi"); Chunk (Js.lit "Hi");
     Metrics (mkMetrics 0%Z (Some 1%Z) (Some 2%Z) 4%Z (Some 2%Z) (Some 4%Z))]
  /\ events (Zhipu.generate Sample2.keepalive_env (Js.lit "hi") (Js.lit "m")
                            (Js.lit "k") None None)
     = [Chunk (Js.lit "Hi")]
  /\ exists msg,
       finished (Zhipu.generate Sample2.keepalive_env (Js.lit "hi") (Js.lit "m")
                                (Js.lit "k") None None) = Threw msg.
Proof.
  destruct (event_without_choices Sample2.keepalive_env (Js.lit "hi")
              (Js.lit "m") (Js.lit "k") None None
              (Sample.response Sample2.with_keepalive) []
              [Sample.delta_value] [Sample.delta_value] Returned)
    as [Hc [Hz _]]; [reflexivity | reflexivity |].
  split.
  - specialize (Hc eq_refl eq_refl). cbv zeta in Hc.
    apply (f_equal fst) in Hc. exact Hc.
  - destruct (Hz eq_refl eq_refl) as [Hev [Hfin _]]. split; [exact Hev|exact Hfin].
Defined.

(** The branches of a [generate] that end before the body is read; what is
    left is the ok response, whose body is missing by [Hbody]. *)
Ltac before_streaming_cases :=
  cbv zeta;
  match goal with
  | |- context [fetch ?env ?req] =>
      let response := fresh "response" in
      let m := fresh "m" in
      let Eok := fresh "Eok" in
      destruct (fetch env req) as [response | m];
      [ destruct (resp_ok response) eqn:Eok; cbn [negb];
        [ split; [by destruct (stream_events _ _ _ _ _)|];
          split; [by intros ? [=]|];
          split; [intros ? [= <-] ?; congruence|];
          intros ? [= <-] _ Hbody;
          match goal with
          | |- context [stream_events ?e ?c ?p ?t ?d] =>
              replace (stream_events e c p t d)
                with (@nil CompletionResult, Threw (Js.lit "No response body"));
              [split; reflexivity|]
          end
        | let Etext := fresh "Etext" in
          destruct (resp_text response) eqn:Etext;
          (split; [done|]); (split; [by intros ? [=]|]);
          (split; [intros ? [= <-] _; rewrite Etext; split; reflexivity
                  | intros ? [= <-] ?; congruence]) ]
      | split; [done|]; split; [by intros ? [= <-]|]; split; intros ? [=] ]
  end.

(** X6.  An adapter's [generate] that fails before streaming yields
    nothing, having made its one request: a rejected request throws the
    rejection; an error status throws '<Name> API error: <status> <body>'
    (or the rejection of reading the body text); an ok response without a
    body throws 'No response body'. *)
Theorem generate_fails_before_streaming (service : ProviderService)
  (name : string) (env : Env) (prompt model apiKey : jstring)
  (signal : option AbortSignal) (settings : option ModelSettings) :
  In (service, name) adapter_names ->
  let s := service_generate service env prompt model apiKey signal settings in
  exists req,
    sent s = [req]
    /\ (forall msg, fetch env req = Throw msg ->
                    events s = [] /\ finished s = Threw msg)
    /\ (forall response,
          fetch env req = Ok response -> resp_ok response = false ->
          events s = []
          /\ finished s
             = Threw (match resp_text response with
                      | Ok errorBody =>
                          Js.lit (name ++ " API error: ")
                          ++ Js.ofZ (resp_status response) ++ Js.lit " "
                          ++ errorBody
                      | Throw msg => msg
                      end))
    /\ (forall response,
          fetch env req = Ok response -> resp_ok response = true ->
          resp_body response = None ->
          events s = [] /\ finished s = Threw (Js.lit "No response body")).
Proof.
  intros [[= <- <-] | [[= <- <-] | [[= <- <-] | []]]] s; unfold s;
    cbn [service_generate cerebrasService zhipuService moonshotService].
  - exists (Cerebras.request prompt model apiKey signal settings).
    unfold Cerebras.generate. before_streaming_cases.
    unfold Cerebras.streamSSE. by rewrite Hbody.
  - exists (Zhipu.request prompt model apiKey signal settings).
    unfold Zhipu.generate. before_streaming_cases.
    unfold Zhipu.streamOpenAIResponse. by rewrite Hbody.
  - exists (Moonshot.request prompt model apiKey signal settings).
    unfold Moonshot.generate. before_streaming_cases.
    unfold Moonshot.streamOpenAIResponse, Zhipu.streamOpenAIResponse.
    by rewrite Hbody.
Qed.

Lemma generate_fails_before_streaming_witness :
  let s := Zhipu.generate Sample2.denied_env (Js.lit "hi") (Js.lit "glm-4")
                          (Js.lit "bad") None None in
  events s = [] /\ finished s = Threw (Js.lit "Zhipu API error: 401 denied").
Proof.
  destruct (generate_fails_before_streaming zhipuService "Zhipu"
              Sample2.denied_env (Js.lit "hi") (Js.lit "glm-4") (Js.lit "bad")
              None None)
    as [req [_ [_ [Hbad _]]]]; [right; left; reflexivity|].
  exact (Hbad Sample2.denied eq_refl eq_refl).
Defined.

(** ** The lanes of a race, continued *)

Lemma lane_loop_no_limit config start clock_now rid st evs fin :
  limit_in_force config = false ->
  lane_loop config start clock_now rid st evs fin
  = (List.map (action_of rid) evs,
     mkLane (sawMetrics st || List.existsb is_metrics evs)
            (lane_tokenCount st + chunk_count evs)%Z (lane_clock st),
     match fin with Returned => Exhausted | Threw m => Raised m end).
Proof.
  unfold limit_in_force, chunk_count. intros Hno.
  apply orb_false_iff in Hno as [Htok Htime].
  revert st. induction evs as [|e evs IH]; intros st.
  - cbn. destruct st as [saw tc clk]. cbn.
    by rewrite orb_false_r, Z.add_0_r.
  - cbn [lane_loop]. rewrite Htok, Htime. cbn [andb].
    destruct e as [content|data]; rewrite IH; cbn.
    + do 2 f_equal. f_equal. lia.
    + do 2 f_equal. f_equal. by rewrite orb_true_r.
Qed.

(** X7.  With no limit in force a lane dispatches one action for every
    event of its stream, in order, metrics or not, and then settles the
    lane: a stream that throws gives SET_ERROR with the message thrown, even
    after a metrics event; a stream that returns without a metrics event
    gives SET_ERROR 'Stream ended without metrics' in the drag and
    free_for_all modes, and synthetic metrics in a limited mode whose limit
    is unset or zero. *)
Theorem lane_without_limit (config : RaceConfig) (start : Z)
  (clock_now : nat -> Z) (rid : jstring) (s : Stream) :
  limit_in_force config = false ->
  consume config start clock_now rid s
  = List.map (action_of rid) (events s)
    ++ match finished s with
       | Threw msg => [SET_ERROR rid msg]
       | Returned =>
           if List.existsb is_metrics (events s) then []
           else
             match mode config with
             | token_limit | time_limit =>
                 [FINISH_STREAM rid
                    (mkMetrics start (Some (start + 100)%Z) (Some (clock_now 0%nat))
                               (chunk_count (events s)) None
                               (Some (chunk_count (events s))))]
             | _ => [SET_ERROR rid (Js.lit "Stream ended without metrics")]
             end
       end.
Proof.
  intros Hno. unfold consume. rewrite lane_loop_no_limit by done.
  f_equal. destruct (finished s); [|done].
  cbn. destruct (List.existsb is_metrics (events s)); [done|].
  by destruct (mode config).
Qed.

Lemma lane_without_limit_witness :
  consume (Sample.config drag 500) 1000%Z (fun k => (1050 + Z.of_nat k)%Z)
          (Js.lit "zhipu-glm-4") Sample2.no_metrics
  = [ RECEIVE_CHUNK (Js.lit "zhipu-glm-4") (Js.lit "a");
      RECEIVE_CHUNK (Js.lit "zhipu-glm-4") (Js.lit "b");
      SET_ERROR (Js.lit "zhipu-glm-4") (Js.lit "Stream ended without metrics") ].
Proof.
  apply (lane_without_limit (Sample.config drag 500) 1000%Z
           (fun k => (1050 + Z.of_nat k)%Z) (Js.lit "zhipu-glm-4")
           Sample2.no_metrics).
  reflexivity.
Defined.

Lemma lane_with_key state env p apiKey :
  apiKey_of state p = Some apiKey -> Js.truthy apiKey = true ->
  lane state env p
  = (consume (raceConfig state) (raceStartTime env) (lane_now env p)
             (resultId_of p)
             (streamCompletion env (providerId p) (prompt state) (modelId p)
                               apiKey (modelSettings (raceConfig state))),
     sent (streamCompletion env (providerId p) (prompt state) (modelId p)
                            apiKey (modelSettings (raceConfig state)))).
Proof. intros Hkey Htruthy. unfold lane. by rewrite Hkey, Htruthy. Qed.

(** X8.  A lane whose stream throws before yielding anything (a rejected
    request, an error status, a missing body) ends, in every race mode, with
    that message as its error, no text and no metrics; it shows as failed
    whenever the message is not empty, and is hidden by 'hide failed'. *)
Theorem failed_stream_ends_lane_in_error (state : AppState) (env : RaceEnv)
  (p : Pair) (apiKey msg : jstring) :
  In p (selected state) ->
  NoDup (List.map resultId_of (selected state)) ->
  apiKey_of state p = Some apiKey -> Js.truthy apiKey = true ->
  let s := streamCompletion env (providerId p) (prompt state) (modelId p)
                            apiKey (modelSettings (raceConfig state)) in
  events s = [] -> finished s = Threw msg ->
  let r := mkResult (resultId_of p) (providerId p) (modelId p) [] None false
                    (Some msg) in
  find_result (resultId_of p) (after_race state env) = Some r
  /\ (Js.truthy msg = true ->
      status r = error_status /\ ResultsDisplay.displayed true [r] = []).
Proof.
  intros Hin Hnd Hkey Htruthy s Hev Hfin r. split.
  - rewrite lane_result_own by done.
    rewrite (lane_with_key state env p apiKey Hkey Htruthy). cbn [fst].
    unfold consume. fold s. rewrite Hev, Hfin. cbn.
    by rewrite eqb_refl.
  - intros Hmsg. unfold status, ResultsDisplay.displayed. cbn.
    by rewrite Hmsg.
Qed.

Lemma failed_stream_ends_lane_in_error_witness :
  find_result (resultId_of Sample.zhipu_a)
              (after_race (Sample.state time_limit 500) (Sample2.denied_race []))
  = Some (mkResult (resultId_of Sample.zhipu_a) (providerId Sample.zhipu_a)
                   (modelId Sample.zhipu_a) [] None false
                   (Some (Js.lit "Zhipu API error: 401 denied"))).
Proof.
  apply (failed_stream_ends_lane_in_error (Sample.state time_limit 500)
           (Sample2.denied_race []) Sample.zhipu_a (Js.lit "sk-1")
           (Js.lit "Zhipu API error: 401 denied")).
  - right. left. reflexivity.
  - apply (bool_decide_unpack _ (dec := NoDup_dec _)). vm_compute. exact I.
  - reflexivity.
  - reflexivity.
  - reflexivity.
  - reflexivity.
Defined.

Lemma lane_loop_time_limit config start clock_now rid T n evs fin st :
  mode config = time_limit -> timeLimit config = Some T -> T <> 0%Z ->
  (n < length evs)%nat ->
  (forall k, (k < n)%nat ->
             (clock_now (lane_clock st + k)%nat - start < 1000 * T)%Z) ->
  (1000 * T <= clock_now (lane_clock st + n)%nat - start)%Z ->
  lane_loop config start clock_now rid st evs fin
  = (List.map (action_of rid) (firstn n evs),
     mkLane (sawMetrics st || List.existsb is_metrics (firstn n evs))
            (lane_tokenCount st + chunk_count (firstn n evs))%Z
            (S (lane_clock st + n)),
     Broke).
Proof.
  intros Hmode HT HT0. unfold chunk_count.
  assert (Hset : limit_set (timeLimit config) = true).
  { rewrite HT. cbn. by apply negb_true_iff, Z.eqb_neq. }
  revert evs st. induction n as [|n IH]; intros evs st Hlen Hbefore Hat;
    destruct evs as [|e evs]; cbn [length] in Hlen; try lia;
    cbn [lane_loop]; rewrite Hmode, Hset, HT; cbn [is_token_limit is_time_limit
      andb limit_value default from_option]; unfold Datatypes.id.
  - rewrite Nat.add_0_r in Hat. apply Z.leb_le in Hat. rewrite Hat.
    destruct st as [saw tc clk]. cbn.
    by rewrite orb_false_r, Z.add_0_r, Nat.add_0_r.
  - pose proof (Hbefore 0%nat ltac:(lia)) as H0. rewrite Nat.add_0_r in H0.
    apply Z.leb_gt in H0. rewrite H0.
    destruct e as [content|data].
    + rewrite (IH evs); cbn [lane_clock sawMetrics lane_tokenCount].
      * cbn. do 2 f_equal. f_equal; [lia | f_equal; lia].
      * lia.
      * intros k Hk. replace (S (lane_clock st) + k)%nat
          with (lane_clock st + S k)%nat by lia. apply Hbefore. lia.
      * by replace (S (lane_clock st) + n)%nat
          with (lane_clock st + S n)%nat by lia.
    + rewrite (IH evs); cbn [lane_clock sawMetrics lane_tokenCount].
      * cbn. do 2 f_equal. f_equal; [by rewrite orb_true_r | f_equal; lia].
      * lia.
      * intros k Hk. replace (S (lane_clock st) + k)%nat
          with (lane_clock st + S k)%nat by lia. apply Hbefore. lia.
      * by replace (S (lane_clock st) + n)%nat
          with (lane_clock st + S n)%nat by lia.
Qed.

(** X9.  In a time-limited race a lane reads the clock once before every
    event.  If the [n] first readings are within the limit and the next one
    is not, the lane dispatches the actions of the [n] first events and
    drops the rest; unless a metrics event was among them it then reads the
    clock once more and finishes the lane with synthetic metrics counting
    the chunks dispatched, whose time stamps are in order when the limit is
    positive and the clock did not run backwards. *)
Theorem time_limit_cuts_lane (config : RaceConfig) (start : Z)
  (clock_now : nat -> Z) (rid : jstring) (s : Stream) (T : Z) (n : nat) :
  mode config = time_limit -> timeLimit config = Some T -> T <> 0%Z ->
  (n < length (events s))%nat ->
  (forall k, (k < n)%nat -> (clock_now k - start < 1000 * T)%Z) ->
  (1000 * T <= clock_now n - start)%Z ->
  let m := mkMetrics start (Some (start + 100)%Z) (Some (clock_now (S n)))
                     (chunk_count (firstn n (events s))) None
                     (Some (chunk_count (firstn n (events s)))) in
  consume config start clock_now rid s
  = List.map (action_of rid) (firstn n (events s))
    ++ (if List.existsb is_metrics (firstn n (events s)) then []
        else [FINISH_STREAM rid m])
  /\ ((0 < T)%Z -> (clock_now n <= clock_now (S n))%Z -> timestamps_ordered m).
Proof.
  intros Hmode HT HT0 Hlen Hbefore Hat m. split.
  - unfold consume.
    rewrite (lane_loop_time_limit config start clock_now rid T n) by done.
    f_equal. cbn [after_loop sawMetrics orb].
    destruct (List.existsb is_metrics (firstn n (events s))); [done|].
    by rewrite Hmode.
  - intros Hpos Hclock first finish [= <-] [= <-]. cbn. lia.
Qed.

Lemma time_limit_cuts_lane_witness :
  consume Sample2.timed 1000%Z Sample2.slow_clock (Js.lit "zhipu-glm-4")
          Sample.three_chunks
  = [ RECEIVE_CHUNK (Js.lit "zhipu-glm-4") (Js.lit "a");
      RECEIVE_CHUNK (Js.lit "zhipu-glm-4") (Js.lit "b");
      FINISH_STREAM (Js.lit "zhipu-glm-4")
        (mkMetrics 1000%Z (Some 1100%Z) (Some 9000%Z) 2%Z None (Some 2%Z)) ].
Proof.
  apply (time_limit_cuts_lane Sample2.timed 1000%Z Sample2.slow_clock
           (Js.lit "zhipu-glm-4") Sample.three_chunks 5%Z 2%nat).
  - reflexivity.
  - reflexivity.
  - lia.
  - simpl. lia.
  - intros [|[|k]] Hk; [reflexivity | reflexivity | lia].
  - vm_compute. discriminate.
Defined.

Lemma lane_loop_token_exact config start clock_now rid L st chunks e rest fin :
  mode config = token_limit -> tokenLimit config = Some L -> L <> 0%Z ->
  (lane_tokenCount st + Z.of_nat (length chunks) = L)%Z ->
  lane_loop config start clock_now rid st (List.map Chunk chunks ++ e :: rest) fin
  = (List.map (RECEIVE_CHUNK rid) chunks,
     mkLane (sawMetrics st) L (lane_clock st), Broke).
Proof.
  intros Hmode HL HL0.
  assert (Hset : limit_set (tokenLimit config) = true).
  { rewrite HL. cbn. by apply negb_true_iff, Z.eqb_neq. }
  revert st. induction chunks as [|c chunks IH]; intros st Hcount;
    cbn [List.map List.app lane_loop]; rewrite Hmode, Hset, HL;
    cbn [is_token_limit is_time_limit andb limit_value default from_option];
    unfold Datatypes.id; cbn [length] in Hcount.
  - replace (L <=? lane_tokenCount st)%Z with true
      by (symmetry; apply Z.leb_le; lia).
    destruct st as [saw tc clk]. cbn in *. do 2 f_equal. f_equal. lia.
  - replace (L <=? lane_tokenCount st)%Z with false
      by (symmetry; apply Z.leb_gt; lia).
    rewrite IH by (cbn; lia). done.
Qed.

Lemma lane_loop_token_below config start clock_now rid L st chunks m :
  mode config = token_limit -> tokenLimit config = Some L ->
  (lane_tokenCount st + Z.of_nat (length chunks) < L)%Z ->
  lane_loop config start clock_now rid st
            (List.map Chunk chunks ++ [Metrics m]) Returned
  = (List.map (RECEIVE_CHUNK rid) chunks ++ [FINISH_STREAM rid m],
     mkLane true (lane_tokenCount st + Z.of_nat (length chunks))%Z (lane_clock st),
     Exhausted).
Proof.
  intros Hmode HL.
  revert st. induction chunks as [|c chunks IH]; intros st Hcount;
    cbn [List.map List.app lane_loop]; rewrite Hmode, HL;
    cbn [is_token_limit is_time_limit andb limit_value default from_option];
    unfold Datatypes.id; cbn [length] in Hcount;
    replace (L <=? lane_tokenCount st)%Z with false
      by (symmetry; apply Z.leb_gt; lia);
    rewrite andb_false_r.
  - destruct st as [saw tc clk]. cbn. do 2 f_equal. f_equal. lia.
  - rewrite IH by (cbn; lia). cbn. do 2 f_equal. f_equal. lia.
Qed.

(** X10.  In a token-limited race the limit is tested before every event,
    the metrics event included.  A stream of fewer chunks than the limit
    has its own metrics recorded; a stream of exactly as many chunks as the
    limit is left at its metrics event, which is dropped, and the lane is
    finished with synthetic metrics instead. *)
Theorem token_limit_boundary (config : RaceConfig) (start : Z)
  (clock_now : nat -> Z) (rid : jstring) (s : Stream) (L : Z)
  (chunks : list jstring) (m : CompletionMetrics) :
  mode config = token_limit -> tokenLimit config = Some L -> (0 < L)%Z ->
  events s = List.map Chunk chunks ++ [Metrics m] ->
  finished s = Returned ->
  ((Z.of_nat (length chunks) < L)%Z ->
   consume config start clock_now rid s
   = List.map (RECEIVE_CHUNK rid) chunks ++ [FINISH_STREAM rid m])
  /\ (Z.of_nat (length chunks) = L ->
      consume config start clock_now rid s
      = List.map (RECEIVE_CHUNK rid) chunks
        ++ [FINISH_STREAM rid
              (mkMetrics start (Some (start + 100)%Z) (Some (clock_now 0%nat))
                         L None (Some L))]).
Proof.
  intros Hmode HL Hpos Hev Hfin. unfold consume. rewrite Hev, Hfin. split.
  - intros Hlt.
    rewrite (lane_loop_token_below config start clock_now rid L) by done.
    cbn. by rewrite List.app_nil_r.
  - intros Heq.
    rewrite (lane_loop_token_exact config start clock_now rid L)
      by (done || lia).
    cbn. by rewrite Hmode.
Qed.

Lemma token_limit_boundary_witness :
  consume (Sample.config token_limit 2) 1000%Z (fun k => (1050 + Z.of_nat k)%Z)
          (Js.lit "zhipu-glm-4") Sample2.two_chunks
  = [ RECEIVE_CHUNK (Js.lit "zhipu-glm-4") (Js.lit "a");
      RECEIVE_CHUNK (Js.lit "zhipu-glm-4") (Js.lit "b");
      FINISH_STREAM (Js.lit "zhipu-glm-4")
        (mkMetrics 1000%Z (Some 1100%Z) (Some 1050%Z) 2%Z None (Some 2%Z)) ].
Proof.
  apply (proj2 (token_limit_boundary (Sample.config token_limit 2) 1000%Z
                  (fun k => (1050 + Z.of_nat k)%Z) (Js.lit "zhipu-glm-4")
                  Sample2.two_chunks 2%Z [Js.lit "a"; Js.lit "b"]
                  Sample.metrics0 eq_refl eq_refl ltac:(lia) eq_refl eq_refl)).
  reflexivity.
Defined.

Lemma take_from_In {A} i (qs : list (list A)) b qs' q a :
  take_from i qs = Some (b, qs') -> In q qs -> In a q ->
  a = b \/ exists q', In q' qs' /\ In a q'.
Proof.
  revert i qs'. induction qs as [|q0 qs IH]; intros i qs' H Hq Ha; [done|].
  destruct i as [|i]; simpl in H.
  - destruct q0 as [|b0 q0]; [done|]. inversion H; subst.
    destruct Hq as [<- | Hq].
    + destruct Ha as [-> | Ha]; [by left|].
      right. exists q0. split; [by left | done].
    + right. exists q. split; [by right | done].
  - destruct (take_from i qs) as [[b0 qs0]|] eqn:E; [|done].
    inversion H; subst. destruct Hq as [<- | Hq].
    + right. exists q0. split; [by left | done].
    + destruct (IH _ _ E Hq Ha) as [-> | [q' [Hq' Ha']]]; [by left|].
      right. exists q'. split; [by right | done].
Qed.

(** Whatever the schedule, no action of a lane is lost. *)
Lemma interleave_In {A} sched (qs : list (list A)) q a :
  In q qs -> In a q -> In a (interleave sched qs).
Proof.
  revert qs q. induction sched as [|i sched IH]; intros qs q Hq Ha.
  - simpl. apply List.in_concat. eauto.
  - simpl. destruct (take_from i qs) as [[b qs']|] eqn:E; [|by eapply IH].
    destruct (take_from_In _ _ _ _ _ _ E Hq Ha) as [-> | [q' [Hq' Ha']]];
      [by left|].
    right. by eapply IH.
Qed.

Lemma lane_loop_saw config start clock_now rid st evs fin acts st' exit :
  lane_loop config start clock_now rid st evs fin = (acts, st', exit) ->
  sawMetrics st' = true ->
  sawMetrics st = true \/ exists m, In (FINISH_STREAM rid m) acts.
Proof.
  revert st acts. induction evs as [|e evs IH]; intros st acts H Hsaw.
  - cbn in H. inversion H; subst. by left.
  - cbn [lane_loop] in H.
    destruct (is_token_limit (mode config) && limit_set (tokenLimit config)
              && (limit_value (tokenLimit config) <=? lane_tokenCount st)%Z).
    { inversion H; subst. by left. }
    cbv zeta in H.
    destruct (is_time_limit (mode config) && limit_set (timeLimit config)
              && (1000 * limit_value (timeLimit config)
                  <=? clock_now (lane_clock st) - start)%Z).
    { inversion H; subst. left.
      by destruct (is_time_limit (mode config) && limit_set (timeLimit config)). }
    destruct e as [content|data].
    + match type of H with
      | context [lane_loop _ _ _ _ ?st2 evs fin] =>
          destruct (lane_loop config start clock_now rid st2 evs fin)
            as [[acts0 st0] exit0] eqn:E
      end.
      inversion H; subst.
      destruct (IH _ _ E Hsaw) as [Hst | [m Hm]].
      * left. cbn in Hst.
        by destruct (is_time_limit (mode config) && limit_set (timeLimit config)).
      * right. exists m. by right.
    + match type of H with
      | context [lane_loop _ _ _ _ ?st2 evs fin] =>
          destruct (lane_loop config start clock_now rid st2 evs fin)
            as [[acts0 st0] exit0] eqn:E
      end.
      inversion H; subst. right. exists data. by left.
Qed.

(** Every lane dispatches an action that settles it. *)
Lemma consume_settles config start clock_now rid s :
  exists a, In a (consume config start clock_now rid s) /\ settles rid a.
Proof.
  unfold consume.
  destruct (lane_loop config start clock_now rid (mkLane false 0%Z 0)
                      (events s) (finished s)) as [[acts st] exit] eqn:E.
  assert (Hno : sawMetrics st = false ->
                exists a, In a (after_loop config start clock_now rid st exit)
                          /\ settles rid a).
  { intros Hsaw. unfold after_loop, settles. rewrite Hsaw.
    destruct exit; destruct (mode config); eexists; (split; [by left|]); eauto. }
  destruct exit as [| |msg].
  - destruct (sawMetrics st) eqn:Esaw.
    + destruct (lane_loop_saw _ _ _ _ _ _ _ _ _ _ E Esaw) as [H | [m Hm]];
        [done|].
      exists (FINISH_STREAM rid m). split; [apply List.in_or_app; by left|].
      left. eauto.
    + destruct (Hno eq_refl) as [a [Ha Hs]].
      exists a. split; [apply List.in_or_app; by right | done].
  - destruct (sawMetrics st) eqn:Esaw.
    + destruct (lane_loop_saw _ _ _ _ _ _ _ _ _ _ E Esaw) as [H | [m Hm]];
        [done|].
      exists (FINISH_STREAM rid m). split; [apply List.in_or_app; by left|].
      left. eauto.
    + destruct (Hno eq_refl) as [a [Ha Hs]].
      exists a. split; [apply List.in_or_app; by right | done].
  - exists (SET_ERROR rid msg). split; [|right; eauto].
    apply List.in_or_app. right. by left.
Qed.

Lemma lane_settles state env p :
  exists a, In a (fst (lane state env p)) /\ settles (resultId_of p) a.
Proof.
  unfold lane.
  assert (Hkeyless : exists a,
             In a [SET_ERROR (resultId_of p) (Js.lit "API Key not set")]
             /\ settles (resultId_of p) a).
  { eexists. split; [by left|]. right. eauto. }
  destruct (apiKey_of state p) as [apiKey|]; [|done].
  destruct (Js.truthy apiKey); [|done].
  apply consume_settles.
Qed.

Lemma reduce_result_settled r a : settled r -> settled (reduce_result r a).
Proof.
  intros [Hload Hhas]. unfold settled.
  destruct a; cbn; try done; destruct (Js.eqb (id r) _); cbn; eauto.
Qed.

Lemma reduce_result_settles r a :
  settles (id r) a -> settled (reduce_result r a).
Proof.
  intros [[m ->] | [e ->]]; cbn; rewrite eqb_refl; cbn; split; eauto.
Qed.

Lemma fold_settled acts r :
  settled r \/ (exists a, In a acts /\ settles (id r) a) ->
  settled (List.fold_left reduce_result acts r).
Proof.
  revert r. induction acts as [|a0 acts IH]; intros r H; simpl.
  - destruct H as [H | [a [[] _]]]. done.
  - apply IH. destruct H as [H | [a [[<- | Ha] Hs]]].
    + left. by apply reduce_result_settled.
    + left. by apply reduce_result_settles.
    + right. exists a. by rewrite reduce_result_id.
Qed.

(** X11.  When a race is over no lane is left loading: whatever the
    streams did and however the lanes were scheduled, every lane result
    holds metrics or an error, and the application is back out of its
    loading state with the race marked finished. *)
Theorem every_lane_settles (state : AppState) (env : RaceEnv) :
  selected state <> [] ->
  let state' := after_race state env in
  app_isLoading state' = false
  /\ raceState state' = finished_race
  /\ countdownValue state' = CountNull
  /\ Forall settled (results state').
Proof.
  intros Hsel state'.
  assert (Hlast : exists st,
             state' = appReducer st FINISH_COMPARISON).
  { unfold state', after_race, handleRunComparison.
    destruct (selected state) as [|p0 ps]; [done|]. cbn [fst].
    rewrite dispatch_all_cons, !dispatch_all_app. eauto. }
  destruct Hlast as [st Hst].
  split; [by rewrite Hst|]. split; [by rewrite Hst|]. split; [by rewrite Hst|].
  unfold state'. rewrite after_race_results by done.
  rewrite List.Forall_map, List.Forall_map. apply List.Forall_forall.
  intros p Hp. apply fold_settled. right.
  destruct (lane_settles state env p) as [a [Ha Hs]].
  exists a. split; [|by rewrite resultId_of_staged].
  apply (interleave_In _ _ (fst (lane state env p))); [|done].
  rewrite List.map_map. apply List.in_map_iff. eauto.
Qed.

Lemma every_lane_settles_witness :
  Forall settled
    (results (after_race (Sample.state time_limit 500)
                         (Sample2.denied_race [1; 1; 0]%nat))).
Proof.
  apply (every_lane_settles (Sample.state time_limit 500)
                            (Sample2.denied_race [1; 1; 0]%nat)).
  vm_compute. discriminate.
Defined.

(** ** The start button and the selection *)

(** X12.  Whenever the start button is enabled, [handleRunComparison] does
    start a race: the countdown is not running, some selected and enabled
    pair has a key and a model, and the lanes are staged.  The button asks
    for one such pair only: the race may still hold lanes without a key. *)
Theorem start_enabled_starts_a_race (state : AppState) (env : RaceEnv) :
  startDisabled state = false ->
  raceState state <> countingDown
  /\ (exists p, In p (selected state)
                /\ option_truthy (apiKey_of state p) = true
                /\ modelId p <> [])
  /\ exists rest,
       fst (handleRunComparison state env)
       = START_COMPARISON (selected state) :: rest.
Proof.
  unfold startDisabled. intros H.
  apply orb_false_iff in H as [Hsome Hstate].
  apply negb_false_iff, List.existsb_exists in Hsome as [p [Hin Hp]].
  apply andb_true_iff in Hp as [Hp Hmodel].
  apply andb_true_iff in Hp as [Hen Hkey].
  assert (Hsel : In p (selected state)).
  { unfold selected. apply List.filter_In. by split. }
  split; [by destruct (raceState state)|]. split.
  - exists p. split; [done|]. split; [done|]. by destruct (modelId p).
  - unfold handleRunComparison.
    destruct (selected state) as [|p0 ps]; [done|]. cbn [fst]. eauto.
Qed.

Lemma start_enabled_starts_a_race_witness :
  exists rest,
    fst (handleRunComparison (Sample.state drag 500) (Sample.race_env []))
    = START_COMPARISON (selected (Sample.state drag 500)) :: rest.
Proof.
  apply (start_enabled_starts_a_race (Sample.state drag 500)
                                     (Sample.race_env [])).
  reflexivity.
Defined.

Lemma fold_reduce_names acts r :
  providerName (List.fold_left reduce_result acts r) = providerName r
  /\ modelName (List.fold_left reduce_result acts r) = modelName r.
Proof.
  revert r. induction acts as [|a acts IH]; intros r; [done|]. simpl.
  destruct (IH (reduce_result r a)) as [-> ->].
  destruct a; cbn; try done; by destruct (Js.eqb (id r) _).
Qed.

Lemma enabled_after_disable state pid p :
  enabled (appReducer state (SET_PROVIDER_ENABLED pid false)) p
  = enabled state p && negb (Js.eqb (providerId p) pid).
Proof.
  unfold enabled. cbn [appReducer enabledProviders].
  destruct (Js.eqb (providerId p) pid) eqn:E.
  - apply eqb_true in E. rewrite E, lookup_insert_eq.
    by rewrite andb_false_r.
  - apply eqb_false in E. rewrite lookup_insert_ne by done.
    by rewrite andb_true_r.
Qed.

(** X13.  Disabling a provider keeps its pairs selected but takes them out
    of the next race: the lanes are those of the other providers, in the
    same order, and no lane result carries the provider's name. *)
Theorem disabled_provider_does_not_race (state : AppState) (env : RaceEnv)
  (pid : jstring) :
  let state' := appReducer state (SET_PROVIDER_ENABLED pid false) in
  selectedPairs state' = selectedPairs state
  /\ selected state'
     = List.filter (fun p => negb (Js.eqb (providerId p) pid)) (selected state)
  /\ (selected state' <> [] ->
      Forall (fun r => providerName r <> pid) (results (after_race state' env))).
Proof.
  intros state'.
  assert (Hsel : selected state'
                 = List.filter (fun p => negb (Js.eqb (providerId p) pid))
                               (selected state)).
  { unfold selected.
    change (selectedPairs state') with (selectedPairs state).
    generalize (selectedPairs state). intros ps.
    induction ps as [|p ps IH]; [done|].
    cbn [List.filter]. unfold state' at 1.
    rewrite enabled_after_disable.
    destruct (enabled state p); cbn [andb List.filter].
    - destruct (negb (Js.eqb (providerId p) pid)); by rewrite IH.
    - exact IH. }
  split; [done|]. split; [done|].
  intros Hne. rewrite after_race_results by done.
  rewrite !List.Forall_map. apply List.Forall_forall. intros p Hp.
  rewrite (proj1 (fold_reduce_names _ _)). cbn.
  rewrite Hsel in Hp. apply List.filter_In in Hp as [_ Hp].
  by apply negb_true_iff, eqb_false in Hp.
Qed.

Lemma disabled_provider_does_not_race_witness :
  Forall (fun r => providerName r <> Js.lit "cerebras")
         (results (after_race
                     (appReducer (Sample.state drag 500)
                        (SET_PROVIDER_ENABLED (Js.lit "cerebras") false))
                     (Sample.race_env []))).
Proof.
  apply (disabled_provider_does_not_race (Sample.state drag 500)
           (Sample.race_env []) (Js.lit "cerebras")).
  vm_compute. discriminate.
Defined.

Lemma same_pair_eq pid mid p :
  same_pair pid mid p = true <-> p = mkPair pid mid.
Proof.
  unfold same_pair. rewrite andb_true_iff, !eqb_true.
  destruct p as [pp pm]. cbn. split.
  - by intros [-> ->].
  - by intros [= -> ->].
Qed.

Lemma NoDup_List_filter {A} (f : A -> bool) (l : list A) :
  NoDup l -> NoDup (List.filter f l).
Proof. rewrite !NoDup_ListNoDup. apply List.NoDup_filter. Qed.

Lemma appReducer_NoDup state a :
  NoDup (selectedPairs state) -> NoDup (selectedPairs (appReducer state a)).
Proof.
  intros Hnd. destruct a; cbn [appReducer selectedPairs with_selectedPairs
                                 with_results]; try done.
  - cbv zeta.
    destruct (List.existsb (same_pair providerId0 modelId0) (selectedPairs state))
      eqn:E; cbn [selectedPairs].
    + by apply NoDup_List_filter.
    + apply NoDup_app. split; [done|]. split; [|apply NoDup_singleton].
      intros p Hp Hin. apply list_elem_of_singleton in Hin as ->.
      apply Bool.not_true_iff_false in E. apply E.
      apply List.existsb_exists. exists (mkPair providerId0 modelId0).
      split; [by apply list_elem_of_In | by apply same_pair_eq].
  - by apply NoDup_List_filter.
Qed.

Lemma NoDup_map_on {A B} (f : A -> B) (l : list A) :
  (forall x y, In x l -> In y l -> f x = f y -> x = y) ->
  NoDup l -> NoDup (List.map f l).
Proof.
  intros Hinj Hnd. induction Hnd as [|x l Hx Hnd IH]; cbn; [constructor|].
  constructor.
  - intros Hin. apply list_elem_of_In, List.in_map_iff in Hin as [y [Hy Hin]].
    apply Hx. apply list_elem_of_In.
    rewrite (Hinj x y); [done | by left | by right | done].
  - apply IH. intros a b Ha Hb. apply Hinj; by right.
Qed.

(** X14.  No sequence of actions makes the selection hold a pair twice; so
    as long as no provider id holds a hyphen, the lanes of a race have
    distinct ids, and every lane action updates one lane only. *)
Theorem selection_has_no_duplicates (actions : list AppAction) :
  let state := dispatch_all initialState actions in
  NoDup (selectedPairs state)
  /\ NoDup (selected state)
  /\ (Forall (fun p => ~ In 45 (providerId p)) (selectedPairs state) ->
      NoDup (List.map resultId_of (selected state))).
Proof.
  intros state.
  assert (Hnd : NoDup (selectedPairs state)).
  { unfold state, dispatch_all.
    assert (H0 : NoDup (selectedPairs initialState)) by constructor.
    revert H0. generalize initialState.
    induction actions as [|a actions IH]; intros s Hs; [done|].
    simpl. apply IH. by apply appReducer_NoDup. }
  assert (Hsel : NoDup (selected state)) by by apply NoDup_List_filter.
  split; [done|]. split; [done|].
  intros Hhyphen. apply NoDup_map_on; [|done].
  rewrite List.Forall_forall in Hhyphen.
  intros p q Hp Hq. apply resultId_of_inj; apply Hhyphen.
  - by apply List.filter_In in Hp as [Hp _].
  - by apply List.filter_In in Hq as [Hq _].
Qed.

Lemma selection_has_no_duplicates_witness :
  NoDup (List.map resultId_of
           (selected
              (dispatch_all initialState
                 [ TOGGLE_MODEL_SELECTION (Js.lit "zhipu") (Js.lit "glm-4");
                   TOGGLE_MODEL_SELECTION (Js.lit "cerebras") (Js.lit "glm-4");
                   TOGGLE_MODEL_SELECTION (Js.lit "zhipu") (Js.lit "glm-4");
                   TOGGLE_MODEL_SELECTION (Js.lit "zhipu") (Js.lit "glm-4") ]))).
Proof.
  apply (selection_has_no_duplicates
           [ TOGGLE_MODEL_SELECTION (Js.lit "zhipu") (Js.lit "glm-4");
             TOGGLE_MODEL_SELECTION (Js.lit "cerebras") (Js.lit "glm-4");
             TOGGLE_MODEL_SELECTION (Js.lit "zhipu") (Js.lit "glm-4");
             TOGGLE_MODEL_SELECTION (Js.lit "zhipu") (Js.lit "glm-4") ]).
  vm_compute. repeat constructor; intros H;
    repeat (destruct H as [H | H]; [discriminate H|]); exact H.
Defined.

(** ** What the views make of the lane results *)

Lemma status_finish r :
  status r = finish
  <-> is_Some (metrics r) /\ option_truthy (error r) = false.
Proof.
  unfold status. destruct (option_truthy (error r)).
  - split; [done | by intros [_ ?]].
  - destruct (metrics r) as [m|]; cbn.
    + split; [eauto | done].
    + split.
      * by destruct (Js.truthy (responseText r)).
      * by intros [[? [=]] _].
Qed.

(** X17.  The leaderboard's numbers for a lane.  Metrics whose time stamps
    are in order give a time to first token between 0 and the total time.
    A lane finished with synthetic metrics is ranked with a time to first
    token of exactly 100 ms, whatever it streamed, and has no tokens-per-
    second figure when it was cut within those 100 ms. *)
Theorem leaderboard_numbers (r : ResultState) (m : CompletionMetrics) :
  metrics r = Some m ->
  (timestamps_ordered m ->
   forall ttft total,
     Leaderboard.calcTtft r = Some ttft -> Leaderboard.calcTotal r = Some total ->
     (0 <= ttft <= total)%Z)
  /\ (forall start clock_now st,
        m = synthetic_metrics start clock_now st -> (0 < start)%Z ->
        Leaderboard.calcTtft r = Some 100%Z
        /\ ((clock_now (lane_clock st) <= start + 100)%Z ->
            Leaderboard.calcTps r = None)).
Proof.
  intros Hm. split.
  - intros Hord ttft total.
    unfold Leaderboard.calcTtft, Leaderboard.calcTotal. rewrite Hm.
    destruct (firstTokenTime m) as [first|] eqn:Ef; [|done].
    destruct (finishTime m) as [finish|] eqn:Efin;
      [|by rewrite orb_true_l; destruct (_ || _)].
    destruct (Hord first finish Ef Efin) as [H1 H2].
    cbn [Leaderboard.missing default from_option]. unfold Datatypes.id.
    destruct ((first =? 0)%Z || (startTime m =? 0)%Z); [done|].
    destruct ((finish =? 0)%Z || (startTime m =? 0)%Z); [done|].
    intros [= <-] [= <-]. lia.
  - intros start clock_now st -> Hstart. split.
    + unfold Leaderboard.calcTtft. rewrite Hm. cbn.
      replace (start + 100 =? 0)%Z with false by (symmetry; apply Z.eqb_neq; lia).
      replace (start =? 0)%Z with false by (symmetry; apply Z.eqb_neq; lia).
      cbn. f_equal. lia.
    + intros Hcut. unfold Leaderboard.calcTps. rewrite Hm. cbn.
      destruct (clock_now (lane_clock st) =? 0)%Z; [done|].
      replace (start + 100 =? 0)%Z with false by (symmetry; apply Z.eqb_neq; lia).
      cbn [orb].
      match goal with
      | |- (if Qle_bool ?q 0 then _ else _) = _ =>
          replace (Qle_bool q 0) with true; [done|]
      end.
      symmetry. apply Qle_bool_iff. unfold Qle. cbn. lia.
Qed.

Lemma leaderboard_numbers_witness :
  Leaderboard.calcTtft
    (mkResult (Js.lit "zhipu-glm-4") (Js.lit "zhipu") (Js.lit "glm-4") [] 
       (Some (synthetic_metrics 1000%Z (fun k => (1050 + Z.of_nat k)%Z)
                                (mkLane false 2%Z 0)))
       false None)
  = Some 100%Z.
Proof.
  apply (proj2 (leaderboard_numbers
                  (mkResult (Js.lit "zhipu-glm-4") (Js.lit "zhipu")
                     (Js.lit "glm-4") []
                     (Some (synthetic_metrics 1000%Z
                              (fun k => (1050 + Z.of_nat k)%Z)
                              (mkLane false 2%Z 0)))
                     false None)
                  _ eq_refl)
               1000%Z (fun k => (1050 + Z.of_nat k)%Z) (mkLane false 2%Z 0)
               eq_refl ltac:(lia)).
Defined.

Lemma insert_In x y l :
  In y (Leaderboard.insert x l) <-> y = x \/ In y l.
Proof.
  induction l as [|z l IH]; cbn.
  - intuition.
  - destruct (snd x <=? snd z)%Z; cbn; [intuition|].
    rewrite IH. intuition.
Qed.

Lemma sort_In y l : In y (Leaderboard.sort l) <-> In y l.
Proof.
  induction l as [|x l IH]; cbn; [done|].
  rewrite insert_In, IH. intuition.
Qed.

Lemma insert_length x l :
  length (Leaderboard.insert x l) = S (length l).
Proof.
  induction l as [|z l IH]; cbn; [done|].
  destruct (snd x <=? snd z)%Z; cbn; [done|]. by rewrite IH.
Qed.

Lemma insert_sorted x l :
  StronglySorted (fun a b => (snd a <= snd b)%Z) l ->
  StronglySorted (fun a b => (snd a <= snd b)%Z) (Leaderboard.insert x l).
Proof.
  intros Hs. induction Hs as [|z l Hs IH Hz]; cbn.
  - constructor; constructor.
  - destruct (snd x <=? snd z)%Z eqn:E.
    + apply Z.leb_le in E. constructor; [by constructor|].
      constructor; [done|].
      eapply List.Forall_impl; [|exact Hz]. cbn. intros; lia.
    + apply Z.leb_gt in E. constructor; [done|].
      apply List.Forall_forall. intros y Hy.
      apply insert_In in Hy as [-> | Hy]; [lia|].
      rewrite List.Forall_forall in Hz. by apply Hz.
Qed.

Lemma sort_sorted l :
  StronglySorted (fun a b => (snd a <= snd b)%Z) (Leaderboard.sort l).
Proof.
  induction l as [|x l IH]; cbn; [constructor | by apply insert_sorted].
Qed.

Lemma sorted_split {A} (R : A -> A -> Prop) (l1 l2 : list A) :
  StronglySorted R (l1 ++ l2) ->
  StronglySorted R l1 /\ forall x y, In x l1 -> In y l2 -> R x y.
Proof.
  induction l1 as [|a l1 IH]; cbn; intros Hs.
  - split; [constructor | by intros ? ? []].
  - inversion Hs as [|? ? Hs' Ha]; subst.
    destruct (IH Hs') as [H1 H2]. rewrite List.Forall_forall in Ha. split.
    + constructor; [done|]. apply List.Forall_forall. intros y Hy.
      apply Ha. apply List.in_or_app. by left.
    + intros x y [<- | Hx] Hy; [|by apply H2].
      apply Ha. apply List.in_or_app. by right.
Qed.

Lemma with_ttft_In r t rs :
  In (r, t) (Leaderboard.with_ttft rs)
  <-> In r rs /\ Leaderboard.calcTtft r = Some t.
Proof.
  induction rs as [|r0 rs IH]; cbn; [tauto|].
  destruct (Leaderboard.calcTtft r0) as [t0|] eqn:E; cbn; rewrite IH.
  - split.
    + intros [[= <- <-] | [Hin Ht]]; [by split; [left|] | by split; [right|]].
    + intros [[<- | Hin] Ht]; [left; congruence | by right].
  - split.
    + intros [Hin Ht]. by split; [right|].
    + intros [[<- | Hin] Ht]; [congruence | done].
Qed.

Lemma finished_In r rs :
  In r (Leaderboard.finished rs) <-> In r rs /\ status r = finish.
Proof.
  unfold Leaderboard.finished. rewrite List.filter_In, status_finish.
  rewrite andb_true_iff, negb_true_iff, bool_decide_eq_true. tauto.
Qed.

(** X16.  The views agree with the status a lane shows.  The list the
    leaderboard draws its podiums from, [finished], holds exactly the lanes
    whose status is 'finish', and the leaderboard is left out exactly when no
    lane has that status; 'hide failed' hides exactly the lanes whose status
    is 'error'; a lane holding both metrics and an error shows as failed, is
    not in [finished] and is on no time-to-first-token podium. *)
Theorem views_agree_with_status (rs : list ResultState) (r : ResultState) :
  (In r (Leaderboard.finished rs) <-> In r rs /\ status r = finish)
  /\ (Leaderboard.finished rs = []
      <-> forall r', In r' rs -> status r' <> finish)
  /\ (In r (ResultsDisplay.displayed true rs)
      <-> In r rs /\ status r <> error_status)
  /\ (is_Some (metrics r) -> option_truthy (error r) = true ->
      status r = error_status
      /\ ~ In r (Leaderboard.finished rs)
      /\ forall t, ~ In (r, t) (Leaderboard.topByTtft rs)).
Proof.
  split; [apply finished_In|]. split; [|split].
  - split.
    + intros Hnone r' Hin Hst.
      assert (H : In r' (Leaderboard.finished rs)) by by apply finished_In.
      by rewrite Hnone in H.
    + intros Hnone.
      destruct (Leaderboard.finished rs) as [|r0 l] eqn:E; [done|].
      assert (H : In r0 (Leaderboard.finished rs)) by (rewrite E; by left).
      apply finished_In in H as [Hin Hst]. by destruct (Hnone r0 Hin).
  - unfold ResultsDisplay.displayed. rewrite List.filter_In, negb_true_iff.
    unfold status. destruct (option_truthy (error r)).
    + split; [by intros [_ ?] | by intros [_ ?]].
    + split; intros [Hin _]; (split; [done|]); [|done].
      destruct (bool_decide _); [done|].
      by destruct (Js.truthy (responseText r)).
  - intros Hm He.
    assert (Hnot : ~ In r (Leaderboard.finished rs)).
    { rewrite finished_In. intros [_ Hs]. apply status_finish in Hs as [_ Hs].
      congruence. }
    split; [unfold status; by rewrite He|]. split; [done|].
    intros t Hin. apply Hnot. unfold Leaderboard.topByTtft in Hin.
    assert (Hin' : In (r, t) (Leaderboard.sort
                               (Leaderboard.with_ttft (Leaderboard.finished rs)))).
    { rewrite <- (List.firstn_skipn 3). apply List.in_or_app. by left. }
    apply sort_In, with_ttft_In in Hin' as [Hfin _]. done.
Qed.

Lemma views_agree_with_status_witness :
  status Sample2.failed_late = error_status
  /\ ~ In Sample2.failed_late
         (Leaderboard.finished [Sample2.finished_ok; Sample2.failed_late]).
Proof.
  destruct (proj2 (proj2 (proj2 (views_agree_with_status
                                   [Sample2.finished_ok; Sample2.failed_late]
                                   Sample2.failed_late))))
    as [Hstatus [Hnot _]].
  - eexists. reflexivity.
  - reflexivity.
  - split; [exact Hstatus | exact Hnot].
Defined.

(** X18.  The time-to-first-token podium: at most three entries, in
    ascending order, each of them a lane with status 'finish' together with
    its time to first token; and every such lane that is left off the
    podium is no faster than any of the three on it. *)
Theorem topByTtft_ranks_the_fastest (rs : list ResultState) :
  let top := Leaderboard.topByTtft rs in
  StronglySorted (fun a b => (snd a <= snd b)%Z) top
  /\ (length top <= 3)%nat
  /\ (forall r t, In (r, t) top ->
        In r rs /\ status r = finish /\ Leaderboard.calcTtft r = Some t)
  /\ (forall r t,
        In r rs -> status r = finish -> Leaderboard.calcTtft r = Some t ->
        In (r, t) top
        \/ (length top = 3%nat /\ forall x, In x top -> (snd x <= t)%Z)).
Proof.
  intros top. unfold top, Leaderboard.topByTtft.
  set (S := Leaderboard.sort (Leaderboard.with_ttft (Leaderboard.finished rs))).
  assert (Hsorted : StronglySorted (fun a b => (snd a <= snd b)%Z)
                                   (firstn 3 S ++ skipn 3 S)).
  { rewrite List.firstn_skipn. apply sort_sorted. }
  apply sorted_split in Hsorted as [Hfirst Hcross].
  assert (Hmem : forall r t,
             In (r, t) S
             <-> In r rs /\ status r = finish /\ Leaderboard.calcTtft r = Some t).
  { intros r t. unfold S. rewrite sort_In, with_ttft_In, finished_In. tauto. }
  split; [done|]. split; [apply List.firstn_le_length|]. split.
  - intros r t Hin. apply Hmem.
    rewrite <- (List.firstn_skipn 3 S). apply List.in_or_app. by left.
  - intros r t Hin Hst Ht.
    assert (HinS : In (r, t) S) by by apply Hmem.
    rewrite <- (List.firstn_skipn 3 S) in HinS.
    apply List.in_app_or in HinS as [Hl | Hr]; [by left|]. right. split.
    + apply List.firstn_length_le.
      destruct (le_lt_dec 3 (length S)) as [Hle | Hlt]; [done|].
      rewrite List.skipn_all2 in Hr by lia. done.
    + intros x Hx. exact (Hcross x (r, t) Hx Hr).
Qed.

Lemma topByTtft_ranks_the_fastest_witness :
  StronglySorted (fun a b => (snd a <= snd b)%Z)
    (Leaderboard.topByTtft
       (results (after_race Sample.state_keys (Sample.race_env [])))).
Proof.
  apply (topByTtft_ranks_the_fastest
           (results (after_race Sample.state_keys (Sample.race_env [])))).
Defined.

(** ** moonshot's model list *)

Lemma sameValueZero_str a y :
  MoonshotModels.sameValueZero (JStr a) y = true <-> y = JStr a.
Proof.
  destruct y; cbn; try (split; [done | by intros [=]]).
  rewrite eqb_true. split; [by intros -> | by intros [= ->]].
Qed.

Lemma from_set_In_str seen items a :
  In (JStr a) items -> ~ In (JStr a) seen ->
  In (JStr a) (MoonshotModels.from_set seen items).
Proof.
  revert seen. induction items as [|x items IH]; intros seen Hin Hseen; [done|].
  cbn [MoonshotModels.from_set].
  destruct (List.existsb (MoonshotModels.sameValueZero x) seen) eqn:E.
  - apply IH; [|done]. destruct Hin as [-> | Hin]; [|done].
    apply List.existsb_exists in E as [y [Hy Hsame]].
    apply sameValueZero_str in Hsame as ->. done.
  - destruct Hin as [-> | Hin]; [by left|].
    destruct (MoonshotModels.sameValueZero (JStr a) x) eqn:Ex.
    + apply sameValueZero_str in Ex as ->. by left.
    + right. apply IH; [done|]. intros [-> | ?]; [|done].
      assert (MoonshotModels.sameValueZero (JStr a) (JStr a) = true)
        by by apply sameValueZero_str.
      congruence.
Qed.

Lemma from_set_pairwise seen items :
  ForallOrdPairs (fun x y => MoonshotModels.sameValueZero y x = false)
                 (MoonshotModels.from_set seen items)
  /\ Forall (fun y => Forall (fun x => MoonshotModels.sameValueZero y x = false)
                             seen)
            (MoonshotModels.from_set seen items).
Proof.
  revert seen. induction items as [|x items IH]; intros seen.
  - cbn. split; constructor.
  - cbn [MoonshotModels.from_set].
    destruct (List.existsb (MoonshotModels.sameValueZero x) seen) eqn:E;
      [apply IH|].
    destruct (IH (x :: seen)) as [Hpairs Hseen]. split.
    + constructor; [|done].
      eapply List.Forall_impl; [|exact Hseen].
      cbn. intros y Hy. by inversion Hy.
    + constructor.
      * apply List.Forall_forall. intros s Hs.
        destruct (MoonshotModels.sameValueZero x s) eqn:Es; [|done].
        assert (List.existsb (MoonshotModels.sameValueZero x) seen = true)
          by (apply List.existsb_exists; eauto).
        congruence.
      * eapply List.Forall_impl; [|exact Hseen].
        cbn. intros y Hy. by inversion Hy.
Qed.

(** X19.  moonshot's [getModels] always answers with a list that holds
    every model of the static list, whatever the request came back with,
    and never holds the same value twice; when the request succeeded every
    id string sent by the provider is in the list as well. *)
Theorem getModels_keeps_static_models (env : Env) (answer : result Response) :
  let models := MoonshotModels.getModels env answer in
  (forall m, In m MoonshotModels.MOONSHOT_MODELS -> In (JStr m) models)
  /\ ForallOrdPairs (fun x y => MoonshotModels.sameValueZero y x = false) models
  /\ (forall response v data ids a,
        answer = Ok response -> resp_ok response = true ->
        MoonshotModels.json env response = Ok v ->
        JsVal.getProp v (Js.lit "data") = Ok (JArr data) ->
        MoonshotModels.ids_of data = Ok ids ->
        In (JStr a) ids -> In (JStr a) models).
Proof.
  intros models.
  assert (Hstatic : MoonshotModels.from_set
                      [] (List.map JStr MoonshotModels.MOONSHOT_MODELS)
                    = List.map JStr MoonshotModels.MOONSHOT_MODELS)
    by (vm_compute; reflexivity).
  assert (Hshape : models = List.map JStr MoonshotModels.MOONSHOT_MODELS
                   \/ exists ids,
                        MoonshotModels.fetched env answer
                        = Ok (MoonshotModels.from_set
                                [] (ids ++ List.map JStr MoonshotModels.MOONSHOT_MODELS))
                        /\ models
                           = MoonshotModels.from_set
                               [] (ids ++ List.map JStr MoonshotModels.MOONSHOT_MODELS)).
  { unfold models, MoonshotModels.getModels.
    destruct (MoonshotModels.fetched env answer) as [l|m] eqn:E; [|by left].
    right. unfold MoonshotModels.fetched in E.
    destruct answer as [response|m]; [|done].
    destruct (negb (resp_ok response)); [done|].
    destruct (MoonshotModels.json env response) as [v|m]; [|done].
    destruct (JsVal.getProp v (Js.lit "data")) as [[| | | | |data|]|m];
      try done.
    destruct (MoonshotModels.ids_of data) as [ids|m]; [|done].
    inversion E; subst. eauto. }
  split; [|split].
  - intros m Hm. destruct Hshape as [-> | [ids [_ ->]]].
    + by apply List.in_map.
    + apply from_set_In_str; [|by intros []].
      apply List.in_or_app. right. by apply List.in_map.
  - destruct Hshape as [-> | [ids [_ ->]]].
    + rewrite <- Hstatic. apply from_set_pairwise.
    + apply from_set_pairwise.
  - intros response v data ids a -> Hok Hjson Hdata Hids Hin.
    unfold models, MoonshotModels.getModels, MoonshotModels.fetched.
    rewrite Hok, Hjson, Hdata, Hids. cbn [negb].
    apply from_set_In_str; [|by intros []].
    apply List.in_or_app. by left.
Qed.

Lemma getModels_keeps_static_models_witness :
  In (JStr (Js.lit "kimi-latest"))
     (MoonshotModels.getModels Sample.env (Ok Sample2.denied)).
Proof.
  apply (proj1 (getModels_keeps_static_models Sample.env (Ok Sample2.denied))).
  vm_compute. tauto.
Defined.

(** ** The selection, continued *)

(** X15.  Toggling a pair flips whether that pair is selected and leaves
    every other pair as it was; toggling a pair that was not selected twice
    gives the selection back unchanged. *)
Theorem toggle_flips_one_pair (state : AppState) (pid mid : jstring) :
  let state' := appReducer state (TOGGLE_MODEL_SELECTION pid mid) in
  (In (mkPair pid mid) (selectedPairs state')
   <-> ~ In (mkPair pid mid) (selectedPairs state))
  /\ (forall q, q <> mkPair pid mid ->
        (In q (selectedPairs state') <-> In q (selectedPairs state)))
  /\ (~ In (mkPair pid mid) (selectedPairs state) ->
      appReducer state' (TOGGLE_MODEL_SELECTION pid mid) = state).
Proof.
  intros state'.
  assert (Hexists : List.existsb (same_pair pid mid) (selectedPairs state) = true
                    <-> In (mkPair pid mid) (selectedPairs state)).
  { rewrite List.existsb_exists. split.
    - intros [p [Hin Hp]]. apply same_pair_eq in Hp. by subst.
    - intros Hin. exists (mkPair pid mid). split; [done|]. by apply same_pair_eq. }
  assert (Hkeep : forall l : list Pair,
             ~ In (mkPair pid mid) l ->
             List.filter (fun p => negb (same_pair pid mid p)) l = l).
  { induction l as [|p l IH]; intros Hnot; [done|]. cbn.
    destruct (same_pair pid mid p) eqn:E.
    - apply same_pair_eq in E. subst. exfalso. apply Hnot. by left.
    - cbn. rewrite IH; [done|]. intros H. apply Hnot. by right. }
  unfold state'. cbn [appReducer]. cbv zeta.
  destruct (List.existsb (same_pair pid mid) (selectedPairs state)) eqn:E;
    cbn [with_selectedPairs selectedPairs].
  - assert (Hin : In (mkPair pid mid) (selectedPairs state)) by by apply Hexists.
    split; [|split].
    + rewrite List.filter_In. split; [|done].
      intros [_ H]. apply negb_true_iff in H.
      assert (same_pair pid mid (mkPair pid mid) = true) by by apply same_pair_eq.
      congruence.
    + intros q Hq. rewrite List.filter_In, negb_true_iff. split; [by intros [? _]|].
      intros Hq'. split; [done|].
      apply Bool.not_true_iff_false. intros H. by apply same_pair_eq in H.
    + done.
  - assert (Hnot : ~ In (mkPair pid mid) (selectedPairs state)).
    { intros H. apply Hexists in H. congruence. }
    split; [|split].
    + split; [done|]. intros _. apply List.in_or_app. right. by left.
    + intros q Hq. rewrite List.in_app_iff. cbn. split; [|by left].
      intros [H | [H | []]]; [done | congruence].
    + intros _.
      assert (Hex : List.existsb (same_pair pid mid)
                      (selectedPairs state ++ [mkPair pid mid]) = true).
      { apply List.existsb_exists. exists (mkPair pid mid).
        split; [apply List.in_or_app; right; by left | by apply same_pair_eq]. }
      rewrite Hex. rewrite List.filter_app, Hkeep by done. cbn.
      replace (same_pair pid mid (mkPair pid mid)) with true
        by (symmetry; by apply same_pair_eq).
      cbn. rewrite List.app_nil_r. by destruct state.
Qed.

Lemma toggle_flips_one_pair_witness :
  appReducer (appReducer initialState
                (TOGGLE_MODEL_SELECTION (Js.lit "zhipu") (Js.lit "glm-4")))
             (TOGGLE_MODEL_SELECTION (Js.lit "zhipu") (Js.lit "glm-4"))
  = initialState.
Proof.
  apply (proj2 (proj2 (toggle_flips_one_pair initialState (Js.lit "zhipu")
                                             (Js.lit "glm-4")))).
  intros [].
Defined.

(** ** The times a lane shows *)

(** X20.  Whenever the leaderboard has a time to first token or a total
    time for a lane, the lane itself shows the same number; the lane shows
    one where the leaderboard has none only for metrics whose startTime is
    zero. *)
Theorem lane_and_leaderboard_times (r : ResultState) (t : Z) :
  (Leaderboard.calcTtft r = Some t
   <-> RaceLane.ttft (metrics r) = Some t
       /\ exists m, metrics r = Some m /\ startTime m <> 0%Z)
  /\ (Leaderboard.calcTotal r = Some t
      <-> RaceLane.total (metrics r) = Some t
          /\ exists m, metrics r = Some m /\ startTime m <> 0%Z).
Proof.
  unfold Leaderboard.calcTtft, Leaderboard.calcTotal, RaceLane.ttft,
    RaceLane.total.
  destruct (metrics r) as [m|].
  2:{ split; (split; [done | by intros [? _]]). }
  split.
  - destruct (Leaderboard.missing (firstTokenTime m)); cbn [orb].
    + split; [done | by intros [? _]].
    + destruct (startTime m =? 0)%Z eqn:E.
      * apply Z.eqb_eq in E. split; [done|]. by intros [_ [? [[= <-] ?]]].
      * apply Z.eqb_neq in E. split; [eauto | by intros [? _]].
  - destruct (Leaderboard.missing (finishTime m)); cbn [orb].
    + split; [done | by intros [? _]].
    + destruct (startTime m =? 0)%Z eqn:E.
      * apply Z.eqb_eq in E. split; [done|]. by intros [_ [? [[= <-] ?]]].
      * apply Z.eqb_neq in E. split; [eauto | by intros [? _]].
Qed.

(** ** What a race leaves alone *)

Lemma race_action_inputs state a :
  race_action a = true -> same_inputs state (appReducer state a).
Proof. by destruct a. Qed.

Lemma race_actions_inputs acts state :
  Forall (fun a => race_action a = true) acts ->
  same_inputs state (dispatch_all state acts).
Proof.
  intros Hacts. revert state.
  induction Hacts as [|a acts Ha Hacts IH]; intros state; [done|].
  rewrite dispatch_all_cons.
  destruct (IH (appReducer state a)) as (H1 & H2 & H3 & H4 & H5).
  destruct (race_action_inputs state a Ha) as (G1 & G2 & G3 & G4 & G5).
  unfold same_inputs. by rewrite H1, H2, H3, H4, H5.
Qed.

Lemma handleRunComparison_actions state env :
  Forall (fun a => race_action a = true) (fst (handleRunComparison state env)).
Proof.
  unfold handleRunComparison.
  destruct (selected state) as [|p0 ps]; [constructor|]. cbn [fst].
  constructor; [done|]. apply Forall_app. split.
  { by destruct (reduceMotion env); repeat constructor. }
  apply Forall_app. split; [|by repeat constructor].
  apply interleave_Forall.
  eapply List.Forall_impl; [|apply (lanes_target state env (p0 :: ps))].
  intros q Hq. eapply List.Forall_impl; [|exact Hq].
  intros a [r Hr]. by destruct a.
Qed.

(** X21.  A race changes nothing of what the user edits: the prompt, the
    keys, the selection, the enabled providers and the race configuration
    are after the race what they were before it, so the same race can be
    run again. *)
Theorem race_leaves_inputs_alone (state : AppState) (env : RaceEnv) :
  same_inputs state (after_race state env)
  /\ selected (after_race state env) = selected state
  /\ fst (handleRunComparison (after_race state env) env)
     = fst (handleRunComparison state env).
Proof.
  assert (Hsame : same_inputs state (after_race state env)).
  { apply race_actions_inputs, handleRunComparison_actions. }
  destruct Hsame as (Hprompt & Hkeys & Hsel & Hen & Hcfg).
  assert (Henabled : forall p, enabled (after_race state env) p = enabled state p).
  { intros p. unfold enabled. by rewrite Hen. }
  assert (Hselected : selected (after_race state env) = selected state).
  { unfold selected. rewrite Hsel. by apply List.filter_ext. }
  split; [done|]. split; [done|].
  assert (Hlane : forall p, lane (after_race state env) env p = lane state env p).
  { intros p. unfold lane, apiKey_of. by rewrite Hkeys, Hprompt, Hcfg. }
  unfold handleRunComparison. rewrite Hselected.
  destruct (selected state) as [|p0 ps]; [done|]. cbn [fst].
  by rewrite (List.map_ext _ _ Hlane).
Qed.

Lemma lane_loop_excluded config newExcluded start clock_now rid st evs fin :
  lane_loop (with_excluded config newExcluded) start clock_now rid st evs fin
  = lane_loop config start clock_now rid st evs fin.
Proof.
  revert st. induction evs as [|e evs IH]; intros st; [done|].
  cbn [lane_loop with_excluded mode tokenLimit timeLimit].
  by rewrite !IH.
Qed.

(** X22.  Opting a model in or out of reasoning effort changes nothing in a
    race: [handleRunComparison] never reads [excludedReasoningModels], so
    the actions dispatched and the requests made are the same. *)
Theorem excluded_models_ignored (state : AppState) (env : RaceEnv)
  (newExcluded : option (list jstring)) :
  handleRunComparison
    (appReducer state
       (SET_RACE_CONFIG (with_excluded (raceConfig state) newExcluded)))
    env
  = handleRunComparison state env.
Proof.
  unfold handleRunComparison.
  change (selected (appReducer state
            (SET_RACE_CONFIG (with_excluded (raceConfig state) newExcluded))))
    with (selected state).
  destruct (selected state) as [|p0 ps]; [done|].
  assert (Hlane : forall p,
             lane (appReducer state
                     (SET_RACE_CONFIG (with_excluded (raceConfig state) newExcluded)))
                  env p
             = lane state env p).
  { intros p. unfold lane, apiKey_of.
    cbn [appReducer apiKeys prompt raceConfig].
    change (modelSettings (with_excluded (raceConfig state) newExcluded))
      with (modelSettings (raceConfig state)).
    destruct (apiKeys state !! providerId p) as [apiKey|]; [|done].
    destruct (Js.truthy apiKey); [|done].
    unfold consume. rewrite lane_loop_excluded.
    by destruct (lane_loop _ _ _ _ _ _ _) as [[acts st] exit]. }
  rewrite (List.map_ext _ _ Hlane). done.
Qed.
